(** * bc-client: the BigCommerce API client of [src/index.js]

    A shallow embedding of the client class (constructor, [get], [post],
    [put], [delete], [readResponse], [paginate], [getAll], [deleteAll]) and
    the properties of its pagination and bulk-delete orchestration.

    Layout:
    - [JS]: the JavaScript values the client handles, with property read
      and truthiness.
    - [Runtime]: the library functions the client calls but does not define
      (JSON.parse, JSON.stringify, querystring.stringify) and the notation
      of numbers; they are parameters of the whole development.  On them
      rest the conversions to a string and to a number, and [<].
    - request executors ([get], [post], [put], [delete], [readResponse]) as
      trees of suspension points: an [async] function is a [Task] that is
      either settled or suspended at [await fetch(...)].
    - orchestrators ([paginate], [getAll], [deleteAll]) as [Prog]s: they call
      executors without awaiting them, which creates promises, and await
      promises later.
    - the event loop: a pool of promises, the shared session store, and
      [deliver], which completes one in-flight fetch and runs everything that
      becomes runnable until the next suspension.  A completion order is the
      list of the promises whose fetch completes, in order.
    - the notions the properties are stated with (requests, pages, the
      items of a bulk delete), and an example store with its servers.
    - the properties: the executors, the event loop, [paginate] and
      [getAll], the variant of [paginate] that reads the page count once,
      [deleteAll]; then what the operations do when something goes wrong
      (transport failures, bodies without an envelope, sessions without a
      page count, pages and deletes that [deleteAll] cannot handle), what
      they leave in the session, and which requests they can send; and the
      properties on the example store.

    What is left out: the console output of the [debug] flag; the 15 s
    timeout as time (a timeout is a fetch that throws); the reading of the
    response body as a suspension of its own (a response arrives with its
    text).  Recursion that the source does not bound (the retries of an
    executor, the loops of [_paginate] and [deleteAll]) takes a bound as
    argument; reaching it is a result of its own ([Stalled], [Starved]). *)

From Stdlib Require Import ZArith String List Lia DecimalString.
From stdpp Require Import base tactics option list strings.

Set Warnings "-register-all".

Open Scope string_scope.
Open Scope list_scope.
Open Scope Z_scope.

(** ** JavaScript values *)

Module JS.

(** JSON values, [undefined], and references to promises of the event loop
    (the handle is the index of the promise in the pool).  Numbers are
    integers: the client only computes with page numbers, limits and HTTP
    status codes. *)
Inductive jsval : Type :=
| JUndefined
| JNull
| JBool (b : bool)
| JNum (n : Z)
| JStr (s : string)
| JArr (elems : list jsval)
| JObj (fields : list (string * jsval))
| JPromise (h : nat).

(** What [throw] carries: [new Error(message)] built by the client, the
    [TypeError] of the language (property read on [undefined]/[null], call
    of a non-function), and the [SyntaxError] of JSON.parse. *)
Inductive jserror : Type :=
| Error (message : string)
| TypeError
| SyntaxError.

(** An object is a list of fields in insertion order, without repeated keys. *)
Definition object := list (string * jsval).

Fixpoint obj_get (k : string) (o : object) : jsval :=
  match o with
  | [] => JUndefined
  | (k', v) :: o' => if String.eqb k k' then v else obj_get k o'
  end.

(** [o.k = v]: overwrite in place, or add the key at the end. *)
Fixpoint obj_set (k : string) (v : jsval) (o : object) : object :=
  match o with
  | [] => [(k, v)]
  | (k', v') :: o' =>
      if String.eqb k k' then (k, v) :: o' else (k', v') :: obj_set k v o'
  end.

(** [v.k] for the property names the client reads ([meta], [data],
    [pagination], [total_pages], [id], [length], [ok]): a [TypeError] on
    [undefined] and [null], the own field of an object, the length of an
    array or a string, and [undefined] otherwise. *)
Definition GetProp (v : jsval) (k : string) : jserror + jsval :=
  match v with
  | JUndefined | JNull => inl TypeError
  | JObj o => inr (obj_get k o)
  | JArr l =>
      inr (if String.eqb k "length" then JNum (Z.of_nat (length l))
           else JUndefined)
  | JStr s =>
      inr (if String.eqb k "length" then JNum (Z.of_nat (String.length s))
           else JUndefined)
  | JBool _ | JNum _ | JPromise _ => inr JUndefined
  end.

(** Truthiness, as tested by [if] and [while]. *)
Definition ToBoolean (v : jsval) : bool :=
  match v with
  | JUndefined | JNull => false
  | JBool b => b
  | JNum n => negb (n =? 0)
  | JStr s => negb (String.eqb s EmptyString)
  | JArr _ | JObj _ | JPromise _ => true
  end.

(** Decimal notation. *)
Definition Z_to_string (z : Z) : string := NilZero.string_of_int (Z.to_int z).

Fixpoint join (sep : string) (l : list string) : string :=
  match l with
  | [] => EmptyString
  | [s] => s
  | s :: l' => s +:+ sep +:+ join sep l'
  end.

(** Whether an object has a field [k] of its own. *)
Definition obj_has (k : string) (o : object) : bool :=
  existsb (fun kv => String.eqb k (fst kv)) o.

(** The values JSON.parse can return: no [undefined] and no promise, at any
    depth. *)
Fixpoint is_json (v : jsval) : bool :=
  match v with
  | JUndefined | JPromise _ => false
  | JNull | JBool _ | JNum _ | JStr _ => true
  | JArr l => forallb is_json l
  | JObj o => forallb (fun kv => is_json (snd kv)) o
  end.

Definition is_promise (v : jsval) : bool :=
  match v with
  | JPromise _ => true
  | _ => false
  end.

End JS.
Export JS.

(** ** Library functions used by the client *)

(** [JSON_parse] returns [None] where JSON.parse throws its [SyntaxError],
    and JSON values otherwise; [JSON_stringify] returns [None] where
    JSON.stringify returns [undefined].  The notation of numbers is that of
    the language: [NumberToString] is the string a number converts to
    (decimal digits up to 21 of them, an exponent from there on), and
    [StringToNumber] is the numeric reading of a string ([None] is NaN). *)
Class Runtime : Type := {
  JSON_parse : string -> option jsval;
  JSON_stringify : jsval -> option string;
  querystring_stringify : object -> string;
  NumberToString : Z -> string;
  StringToNumber : string -> option Z;
  JSON_parse_json : forall s v, JSON_parse s = Some v -> is_json v = true
}.

Section Language.
Context `{Runtime}.

(** String conversion, as applied by [+] on a string.  An object converts
    through the [toString] it inherits, and so does an array, whose
    [toString] joins the conversions of its elements.  A field [toString]
    of the object's own hides the inherited one; in a JSON value it is no
    function, and the conversion throws a [TypeError]. *)
Fixpoint ToString (v : jsval) : jserror + string :=
  match v with
  | JUndefined => inr "undefined"
  | JNull => inr "null"
  | JBool true => inr "true"
  | JBool false => inr "false"
  | JNum n => inr (NumberToString n)
  | JStr s => inr s
  | JArr l =>
      match
        (fix elements (l : list jsval) : jserror + list string :=
           match l with
           | [] => inr []
           | e :: l' =>
               match
                 match e with
                 | JUndefined | JNull => inr EmptyString
                 | _ => ToString e
                 end
               with
               | inl err => inl err
               | inr s =>
                   match elements l' with
                   | inl err => inl err
                   | inr ss => inr (s :: ss)
                   end
               end
           end) l
      with
      | inl err => inl err
      | inr ss => inr (join "," ss)
      end
  | JObj o =>
      if obj_has "toString" o then inl TypeError else inr "[object Object]"
  | JPromise _ => inr "[object Promise]"
  end.

(** Numeric conversion ([None] is NaN); an object or an array converts
    through its string. *)
Definition ToNumber (v : jsval) : jserror + option Z :=
  match v with
  | JUndefined => inr None
  | JNull => inr (Some 0)
  | JBool b => inr (Some (if b then 1 else 0))
  | JNum n => inr (Some n)
  | JStr s => inr (StringToNumber s)
  | JArr _ | JObj _ | JPromise _ =>
      match ToString v with
      | inl e => inl e
      | inr s => inr (StringToNumber s)
      end
  end.

(** [current < total] with a number on the left: the right-hand side is
    converted to a number, and nothing is less than NaN. *)
Definition js_lt (current : Z) (total : jsval) : jserror + bool :=
  match ToNumber total with
  | inl e => inl e
  | inr (Some n) => inr (current <? n)
  | inr None => inr false
  end.

End Language.

(** ** HTTP transport (node-fetch) *)

Inductive Method : Type := GET | POST | PUT | DELETE.

#[global] Instance Method_eq_dec : EqDecision Method.
Proof. solve_decision. Defined.

Record Request : Type := mkRequest {
  req_method : Method;
  req_url : string;
  req_headers : list (string * string);
  req_timeout : Z;
  req_body : option string
}.

Record Response : Type := mkResponse {
  status : Z;
  statusText : string;
  text : string
}.

(** [response.ok]: the status is in the range 200-299. *)
Definition ok (response : Response) : bool :=
  (200 <=? status response) && (status response <? 300).

(** How an [await fetch(...)] ends: the transport throws (network error,
    timeout) before any response, or a response arrives.  The body text of a
    response is delivered together with it. *)
Inductive FetchOutcome : Type :=
| Thrown
| Responded (response : Response).

(** ** The client session *)

(** The constructor's arguments. *)
Record Client : Type := mkClient {
  hash : string;
  token : string;
  debug : bool
}.

Definition base (this : Client) : string :=
  "https://api.bigcommerce.com/stores/" +:+ hash this +:+ "/".

Definition headers (this : Client) : list (string * string) :=
  [("X-Auth-Token", token this);
   ("Accept", "application/json");
   ("Content-Type", "application/json")].

(** The mutable part of a session: [this.meta], and the [queries] object of
    the operation in progress, which [paginate] and [deleteAll] mutate while
    executors that were given the same object read it. *)
Record Store : Type := mkStore {
  meta : jsval;
  queries : object
}.

(** [this.meta = {}] in the constructor. *)
Definition new_store (queries : object) : Store :=
  {| meta := JObj []; queries := queries |}.

(** The [queries] argument of an executor: the operation's object (read
    through the store at each use), or the default parameter [{}]. *)
Inductive qref : Type := caller_queries | default_queries.

(** ** Asynchronous functions *)

(** An [async] request executor between two suspension points: it has
    returned, it has thrown, it is suspended at [await fetch(rq)] with what
    it does when the fetch ends, or it is about to write [this.meta] or to
    read the [queries] object.  [Stalled] is the model's bound on the number
    of re-issued requests being reached. *)
Inductive Task : Type :=
| Ret (v : jsval)
| Throw (e : jserror)
| Stalled
| Fetch (rq : Request) (k : FetchOutcome -> Task)
| SetMeta (m : jsval) (k : Task)
| GetQueries (k : object -> Task).

(** [await t] followed by [f]; a rejection of [t] propagates. *)
Fixpoint bind (t : Task) (f : jsval -> Task) : Task :=
  match t with
  | Ret v => f v
  | Throw e => Throw e
  | Stalled => Stalled
  | Fetch rq k => Fetch rq (fun o => bind (k o) f)
  | SetMeta m k => SetMeta m (bind k f)
  | GetQueries k => GetQueries (fun q => bind (k q) f)
  end.

Definition read_queries (queries : qref) (k : object -> Task) : Task :=
  match queries with
  | caller_queries => GetQueries k
  | default_queries => k []
  end.

Section Executors.
Context `{Runtime} (this : Client).

(** The message of the error thrown on a non-2xx response; the status is
    the three-digit code of the status line, in decimal notation. *)
Definition status_message (response : Response) : string :=
  Z_to_string (status response) +:+ " - " +:+ statusText response +:+ ": "
    +:+ text response.

Definition readResponse (response : Response) : Task :=
  let result := text response in
  if (0 <? String.length result)%nat then
    match JSON_parse result with
    | None => Throw SyntaxError
    | Some body =>
        match GetProp body "meta" with
        | inl e => Throw e
        | inr m =>
            SetMeta m
              match GetProp body "data" with
              | inl e => Throw e
              | inr d => Ret d
              end
        end
    end
  else Ret JUndefined.

Fixpoint get (retries : nat) (endpoint : string) (queries : qref) : Task :=
  read_queries queries (fun q =>
    let endpoint := endpoint +:+ "?" +:+ querystring_stringify q in
    Fetch (mkRequest GET (base this +:+ endpoint) (headers this) 15000 None)
      (fun outcome =>
         match outcome with
         | Thrown =>
             match retries with
             | O => Stalled
             | S retries' => get retries' endpoint queries
             end
         | Responded response =>
             if ok response then readResponse response
             else Throw (Error (status_message response))
         end)).

Fixpoint post (retries : nat) (endpoint : string) (body : jsval) : Task :=
  Fetch (mkRequest POST (base this +:+ endpoint) (headers this) 15000
           (JSON_stringify body))
    (fun outcome =>
       match outcome with
       | Thrown =>
           match retries with
           | O => Stalled
           | S retries' => post retries' endpoint body
           end
       | Responded response =>
           if ok response then readResponse response
           else Throw (Error (status_message response))
       end).

Fixpoint put (retries : nat) (endpoint : string) (body : jsval) : Task :=
  Fetch (mkRequest PUT (base this +:+ endpoint) (headers this) 15000
           (JSON_stringify body))
    (fun outcome =>
       match outcome with
       | Thrown =>
           match retries with
           | O => Stalled
           | S retries' => put retries' endpoint body
           end
       | Responded response =>
           if ok response then readResponse response
           else Throw (Error (status_message response))
       end).

(** The two statements after the [try] of [delete].  [response] is [None]
    when the [catch] branch ran: the variable is still unassigned, and
    reading [ok] from it is a [TypeError]. *)
Definition delete_after_try (response : option Response) : Task :=
  match response with
  | None => Throw TypeError
  | Some response =>
      if ok response then Ret JUndefined
      else Throw (Error (status_message response))
  end.

Fixpoint delete (retries : nat) (endpoint : string) (queries : qref) : Task :=
  read_queries queries (fun q =>
    let endpoint := endpoint +:+ "?" +:+ querystring_stringify q in
    Fetch (mkRequest DELETE (base this +:+ endpoint) (headers this) 15000 None)
      (fun outcome =>
         match outcome with
         | Thrown =>
             match retries with
             | O => Stalled
             | S retries' =>
                 bind (delete retries' endpoint queries)
                   (fun _ => delete_after_try None)
             end
         | Responded response => delete_after_try (Some response)
         end)).

End Executors.

(** ** Orchestrators *)

(** An [async] orchestrator between two suspension points.  Calling an
    executor without [await] ([Call]) runs it up to its first suspension and
    yields its promise; [Await] and [AwaitAll] suspend until promises settle,
    and a rejection of an awaited promise propagates, as none of the
    orchestrators has a [try].  [Starved] is the model's bound on loop
    iterations being reached. *)
Inductive Prog : Type :=
| Done (v : jsval)
| Fail (e : jserror)
| Starved
| Call (t : Task) (k : jsval -> Prog)
| Await (p : jsval) (k : jsval -> Prog)
| AwaitAll (ps : list jsval) (k : list jsval -> Prog)
| ReadMeta (k : jsval -> Prog)
| WriteQuery (key : string) (v : jsval) (k : Prog).

Fixpoint bindP (p : Prog) (f : jsval -> Prog) : Prog :=
  match p with
  | Done v => f v
  | Fail e => Fail e
  | Starved => Starved
  | Call t k => Call t (fun h => bindP (k h) f)
  | Await h k => Await h (fun v => bindP (k v) f)
  | AwaitAll ps k => AwaitAll ps (fun vs => bindP (k vs) f)
  | ReadMeta k => ReadMeta (fun m => bindP (k m) f)
  | WriteQuery key v k => WriteQuery key v (bindP k f)
  end.

(** Bluebird's [Promise.map(input, mapper, {concurrency})] for a mapper that
    returns plain values: the input promise is awaited, its elements are
    awaited, the mapper is applied to the values they settle with and the
    results are collected by index; the first rejection rejects the whole.
    [concurrency] limits how many promises returned by the mapper may be
    pending at once; a mapper that returns plain values has none. *)
Definition BlueBirdProm_map (input : Prog) (mapper : jsval -> jsval)
    (concurrency : nat) : Prog :=
  bindP input (fun arr =>
    match arr with
    | JArr items =>
        AwaitAll items (fun values => Done (JArr (map mapper values)))
    | _ => Fail TypeError
    end).

(** [Promise.all(proms)]. *)
Definition Promise_all (proms : list jsval) (k : jsval -> Prog) : Prog :=
  AwaitAll proms (fun values => k (JArr values)).

Section Orchestrators.
Context `{Runtime} (this : Client) (retries : nat).

Fixpoint _paginate (fuel : nat) (endpoint : string) (accum : list jsval)
    (current : Z) : Prog :=
  ReadMeta (fun meta =>
    match GetProp meta "pagination" with
    | inl e => Fail e
    | inr pagination =>
        match GetProp pagination "total_pages" with
        | inl e => Fail e
        | inr total =>
            WriteQuery "page" (JNum (current + 1))
              match js_lt current total with
              | inl e => Fail e
              | inr true =>
                  Call (get this retries endpoint caller_queries) (fun prom =>
                    match fuel with
                    | O => Starved
                    | S fuel' =>
                        _paginate fuel' endpoint (accum ++ [prom])
                          (current + 1)
                    end)
              | inr false => Done (JArr accum)
              end
        end
    end).

Definition paginate (fuel : nat) (endpoint : string) : Prog :=
  Call (get this retries endpoint caller_queries) (fun prom =>
    Await prom (fun first => _paginate fuel endpoint [first] 1)).

Definition getAll (fuel : nat) (endpoint : string) : Prog :=
  BlueBirdProm_map (paginate fuel endpoint) (fun prom => prom) 3.

(** [items.map((item) => this.delete(endpoint + '/' + item.id))]: the
    deletes are called one after the other, none is awaited. *)
Fixpoint delete_each (endpoint : string) (items : list jsval)
    (proms : list jsval) (k : list jsval -> Prog) : Prog :=
  match items with
  | [] => k proms
  | item :: items' =>
      match GetProp item "id" with
      | inl e => Fail e
      | inr id =>
          match ToString id with
          | inl e => Fail e
          | inr id =>
              Call (delete this retries (endpoint +:+ "/" +:+ id)
                      default_queries)
                (fun prom => delete_each endpoint items' (proms ++ [prom]) k)
          end
      end
  end.

(** The [while] loop of [deleteAll], entered with the page just fetched. *)
Fixpoint deleteAll_loop (fuel : nat) (endpoint : string) (items : jsval)
    : Prog :=
  match GetProp items "length" with
  | inl e => Fail e
  | inr len =>
      if ToBoolean len then
        match items with
        | JArr l =>
            delete_each endpoint l [] (fun proms =>
              Promise_all proms (fun _ =>
                Call (get this retries endpoint caller_queries) (fun prom =>
                  Await prom (fun items' =>
                    match fuel with
                    | O => Starved
                    | S fuel' => deleteAll_loop fuel' endpoint items'
                    end))))
        | _ => Fail TypeError
        end
      else Done JUndefined
  end.

Definition deleteAll (fuel : nat) (endpoint : string) (limit : jsval) : Prog :=
  WriteQuery "limit" limit
    (Call (get this retries endpoint caller_queries) (fun prom =>
       Await prom (fun items => deleteAll_loop fuel endpoint items))).

End Orchestrators.

(** ** The event loop *)

(** Runs the synchronous part of an executor: up to a settled state or the
    next [await fetch(...)]. *)
Fixpoint run_task (t : Task) (st : Store) : Store * Task :=
  match t with
  | SetMeta m k => run_task k {| meta := m; queries := queries st |}
  | GetQueries k => run_task (k (queries st)) st
  | Ret _ | Throw _ | Stalled | Fetch _ _ => (st, t)
  end.

(** The request a suspended executor has just sent. *)
Definition sent (t : Task) : list Request :=
  match t with
  | Fetch rq _ => [rq]
  | _ => []
  end.

Definition in_flight (t : Task) : bool :=
  match t with
  | Fetch _ _ => true
  | _ => false
  end.

(** The state of a promise, or of a plain value that is awaited. *)
Inductive Settled : Type :=
| Pending
| Fulfilled (v : jsval)
| Rejected (e : jserror).

Definition peek (pool : list Task) (p : jsval) : Settled :=
  match p with
  | JPromise h =>
      match pool !! h with
      | Some (Ret v) => Fulfilled v
      | Some (Throw e) => Rejected e
      | _ => Pending
      end
  | _ => Fulfilled p
  end.

(** What [Promise.all] and Bluebird's [map] see of the promises they were
    given: a rejection, if one of them is rejected (the orchestrator is
    resumed after every completion, so at most one is), or else the values
    they are fulfilled with, if all are. *)
Fixpoint first_rejected (pool : list Task) (ps : list jsval) : option jserror :=
  match ps with
  | [] => None
  | p :: ps' =>
      match peek pool p with
      | Rejected e => Some e
      | _ => first_rejected pool ps'
      end
  end.

Fixpoint all_fulfilled (pool : list Task) (ps : list jsval)
    : option (list jsval) :=
  match ps with
  | [] => Some []
  | p :: ps' =>
      match peek pool p, all_fulfilled pool ps' with
      | Fulfilled v, Some vs => Some (v :: vs)
      | _, _ => None
      end
  end.

(** The server, the session store, the promises of the executors called so
    far (a promise's handle is its index), the requests sent so far in the
    order they were sent, and the orchestrator. *)
Record Config (Srv : Type) : Type := mkConfig {
  server : Srv;
  store : Store;
  pool : list Task;
  issued : list Request;
  main : Prog
}.

Arguments mkConfig {Srv} _ _ _ _ _.
Arguments server {Srv} _.
Arguments store {Srv} _.
Arguments pool {Srv} _.
Arguments issued {Srv} _.
Arguments main {Srv} _.

(** Runs the orchestrator up to its next suspension. *)
Fixpoint run_main {Srv : Type} (p : Prog) (s : Srv) (st : Store)
    (pl : list Task) (log : list Request) : Config Srv :=
  match p with
  | Call t k =>
      let '(st', t') := run_task t st in
      run_main (k (JPromise (length pl))) s st' (pl ++ [t']) (log ++ sent t')
  | Await v k =>
      match peek pl v with
      | Fulfilled r => run_main (k r) s st pl log
      | Rejected e => mkConfig s st pl log (Fail e)
      | Pending => mkConfig s st pl log p
      end
  | AwaitAll ps k =>
      match first_rejected pl ps with
      | Some e => mkConfig s st pl log (Fail e)
      | None =>
          match all_fulfilled pl ps with
          | Some vs => run_main (k vs) s st pl log
          | None => mkConfig s st pl log p
          end
      end
  | ReadMeta k => run_main (k (meta st)) s st pl log
  | WriteQuery key v k =>
      run_main k s {| meta := meta st; queries := obj_set key v (queries st) |}
        pl log
  | Done _ | Fail _ | Starved => mkConfig s st pl log p
  end.

(** A client operation is started on a session. *)
Definition start {Srv : Type} (p : Prog) (s : Srv) (st : Store) : Config Srv :=
  run_main p s st [] [].

(** The fetches in flight. *)
Definition flying {Srv : Type} (c : Config Srv) : list Task :=
  filter (fun t => in_flight t = true) (pool c).

Section EventLoop.
Context {Srv : Type} (serve : Srv -> Request -> FetchOutcome * Srv).

(** The fetch of promise [h] completes: the server handles the request, the
    executor resumes with the outcome and runs to its next suspension, then
    the orchestrator resumes if what it awaits has settled. *)
Definition deliver (h : nat) (c : Config Srv) : option (Config Srv) :=
  match pool c !! h with
  | Some (Fetch rq k) =>
      let '(outcome, s') := serve (server c) rq in
      let '(st', t') := run_task (k outcome) (store c) in
      Some (run_main (main c) s' st' (<[h := t']> (pool c))
              (issued c ++ sent t'))
  | _ => None
  end.

(** A completion order: the handles of the fetches that complete, in
    order.  A handle with no fetch in flight is skipped. *)
Fixpoint exec (order : list nat) (c : Config Srv) : Config Srv :=
  match order with
  | [] => c
  | h :: order' => exec order' (default c (deliver h c))
  end.

(** A completion order in which every handle names a fetch in flight;
    [None] otherwise. *)
Fixpoint run (order : list nat) (c : Config Srv) : option (Config Srv) :=
  match order with
  | [] => Some c
  | h :: order' =>
      match deliver h c with
      | Some c' => run order' c'
      | None => None
      end
  end.

End EventLoop.

(** ** One executor alone on a session *)

(** What a caller observes of a promise. *)
Definition settled (t : Task) : Settled :=
  match t with
  | Ret v => Fulfilled v
  | Throw e => Rejected e
  | _ => Pending
  end.

Definition outcome (p : Prog) : Settled :=
  match p with
  | Done v => Fulfilled v
  | Fail e => Rejected e
  | _ => Pending
  end.

(** The executor's fetches end with the given outcomes, one after the
    other.  The result is the store, the executor and the requests sent. *)
Fixpoint feed (outcomes : list FetchOutcome) (st : Store) (t : Task)
    (log : list Request) : Store * Task * list Request :=
  match outcomes, t with
  | o :: outcomes', Fetch _ k =>
      let '(st', t') := run_task (k o) st in
      feed outcomes' st' t' (log ++ sent t')
  | _, _ => (st, t, log)
  end.

Definition solo (t : Task) (st : Store) (outcomes : list FetchOutcome)
    : Store * Task * list Request :=
  let '(st', t') := run_task t st in
  feed outcomes st' t' (sent t').

(** ** The requests of the client *)

Section Requests.
Context `{Runtime} (this : Client).

(** The request [get] sends for an endpoint that already carries its query
    string. *)
Definition get_request (endpoint : string) : Request :=
  mkRequest GET (base this +:+ endpoint) (headers this) 15000 None.

Definition delete_request (endpoint : string) : Request :=
  mkRequest DELETE (base this +:+ endpoint) (headers this) 15000 None.

Definition post_request (endpoint : string) (body : jsval) : Request :=
  mkRequest POST (base this +:+ endpoint) (headers this) 15000
    (JSON_stringify body).

Definition put_request (endpoint : string) (body : jsval) : Request :=
  mkRequest PUT (base this +:+ endpoint) (headers this) 15000
    (JSON_stringify body).

(** The endpoint with the query string of [q] appended. *)
Definition with_query (endpoint : string) (q : object) : string :=
  endpoint +:+ "?" +:+ querystring_stringify q.

(** What [get] does when its fetch ends; [endpoint] carries the query
    string. *)
Definition get_await (retries : nat) (endpoint : string) (queries : qref)
    (outcome : FetchOutcome) : Task :=
  match outcome with
  | Thrown =>
      match retries with
      | O => Stalled
      | S retries' => get this retries' endpoint queries
      end
  | Responded response =>
      if ok response then readResponse response
      else Throw (Error (status_message response))
  end.

Definition delete_await (retries : nat) (endpoint : string) (queries : qref)
    (outcome : FetchOutcome) : Task :=
  match outcome with
  | Thrown =>
      match retries with
      | O => Stalled
      | S retries' =>
          bind (delete this retries' endpoint queries)
            (fun _ => delete_after_try None)
      end
  | Responded response => delete_after_try (Some response)
  end.

(** The object a [queries] argument denotes. *)
Definition deref (qr : qref) (st : Store) : object :=
  match qr with
  | caller_queries => queries st
  | default_queries => []
  end.

End Requests.

(** ** Pages *)

Section Pages.
Context `{Runtime} (this : Client) (retries : nat).

(** What a 2xx response with a body yields: the [data] and the [meta] of
    its envelope. *)
Definition envelope_of (response : Response) : option (jsval * jsval) :=
  if ok response && (0 <? String.length (text response))%nat then
    match JSON_parse (text response) with
    | Some body =>
        match GetProp body "meta", GetProp body "data" with
        | inr m, inr d => Some (d, m)
        | _, _ => None
        end
    | None => None
    end
  else None.

(** What [get] settles with when the response arrives: the value it
    returns or the error it throws. *)
Definition received (response : Response) : jserror + jsval :=
  if ok response then
    if (0 <? String.length (text response))%nat then
      match JSON_parse (text response) with
      | None => inl SyntaxError
      | Some body =>
          match GetProp body "meta", GetProp body "data" with
          | inl e, _ => inl e
          | inr _, inl e => inl e
          | inr _, inr d => inr d
          end
      end
    else inr JUndefined
  else inl (Error (status_message response)).

Definition as_task (r : jserror + jsval) : Task :=
  match r with
  | inl e => Throw e
  | inr v => Ret v
  end.

(** [meta.pagination.total_pages]. *)
Definition total_pages (m : jsval) : option jsval :=
  match GetProp m "pagination" with
  | inr pagination =>
      match GetProp pagination "total_pages" with
      | inr total => Some total
      | inl _ => None
      end
  | inl _ => None
  end.

(** The caller's query with [page] overwritten. *)
Definition page_query (q : object) (p : nat) : object :=
  obj_set "page" (JNum (Z.of_nat p)) q.

Definition page_request (endpoint : string) (q : object) (p : nat) : Request :=
  get_request this (with_query endpoint (page_query q p)).



(** The pending fetch of page [p]: a [get] suspended on its request. *)
Definition page_fetch (endpoint : string) (q : object) (p : nat) : Task :=
  Fetch (page_request endpoint q p)
    (get_await this retries (with_query endpoint (page_query q p))
       caller_queries).

(** What [getAll] does with the values of the pages. *)
Definition collect (values : list jsval) : Prog :=
  Done (JArr (map (fun prom => prom) values)).

End Pages.

(** ** The variant of [paginate] that reads the page count once *)

Section PaginateOnce.
Context `{Runtime} (this : Client) (retries : nat).

(** The loop of [_paginate] with the page count as an argument. *)
Fixpoint _paginate_with (total : jsval) (fuel : nat) (endpoint : string)
    (accum : list jsval) (current : Z) : Prog :=
  WriteQuery "page" (JNum (current + 1))
    match js_lt current total with
    | inl e => Fail e
    | inr true =>
        Call (get this retries endpoint caller_queries) (fun prom =>
          match fuel with
          | O => Starved
          | S fuel' =>
              _paginate_with total fuel' endpoint (accum ++ [prom])
                (current + 1)
          end)
    | inr false => Done (JArr accum)
    end.

(** [total_pages] is read from the session's metadata exactly once, after
    the first fetch, and the loop uses the value read. *)
Definition paginate_once (fuel : nat) (endpoint : string) : Prog :=
  Call (get this retries endpoint caller_queries) (fun prom =>
    Await prom (fun first =>
      ReadMeta (fun meta =>
        match GetProp meta "pagination" with
        | inl e => Fail e
        | inr pagination =>
            match GetProp pagination "total_pages" with
            | inl e => Fail e
            | inr total => _paginate_with total fuel endpoint [first] 1
            end
        end))).

End PaginateOnce.

(** What is observable of a configuration: everything but the code the
    orchestrator has yet to run, of which the outcome is kept. *)
Definition observe {Srv : Type} (c : Config Srv)
      : Srv * Store * list Task * list Request * Settled :=
  (server c, store c, pool c, issued c, outcome (main c)).

(** The orchestrator [p], followed by [f] on its value. *)
Definition then_run {Srv : Type} (f : jsval -> Prog) (c : Config Srv)
    : Config Srv :=
  match main c with
  | Done v => run_main (f v) (server c) (store c) (pool c) (issued c)
  | q => mkConfig (server c) (store c) (pool c) (issued c) (bindP q f)
  end.

(** ** Bulk delete *)

(** ceil(M / L). *)
Definition rounds (M L : nat) : nat := ((M + L - 1) / L)%nat.

(** The DELETE and the GET requests of a log, in order. *)
Definition deletes (log : list Request) : list Request :=
  filter (fun rq => req_method rq = DELETE) log.

Definition gets (log : list Request) : list Request :=
  filter (fun rq => req_method rq = GET) log.

Section Items.
Context `{Runtime} (this : Client) (retries : nat) (endpoint : string).

(** [item.id]. *)
Definition id_of (v : jsval) : jsval :=
  match GetProp v "id" with
  | inr id => id
  | inl _ => JUndefined
  end.

(** [item.id] as a string. *)
Definition id_string (v : jsval) : string :=
  match ToString (id_of v) with
  | inr id => id
  | inl _ => EmptyString
  end.

(** The endpoint of the item can be built: [item.id] can be read (the item
    is neither [null] nor [undefined]), and it converts to a string (it is
    no object with a field [toString] of its own, nor an array that holds
    one). *)
Definition deletable (v : jsval) : bool :=
  match GetProp v "id" with
  | inr id =>
      match ToString id with
      | inr _ => true
      | inl _ => false
      end
  | inl _ => false
  end.

(** The endpoint of an item, with the empty query string [delete] appends. *)
Definition item_endpoint (v : jsval) : string :=
  with_query (endpoint +:+ "/" +:+ id_string v) [].

Definition item_request (v : jsval) : Request :=
  delete_request this (item_endpoint v).

(** The pending delete of an item. *)
Definition item_delete (v : jsval) : Task :=
  Fetch (item_request v)
    (delete_await this retries (item_endpoint v) default_queries).

(** What [deleteAll] does with the next page, [fuel] being what the loop
    was entered with. *)
Definition next_page (fuel : nat) (items' : jsval) : Prog :=
  match fuel with
  | O => Starved
  | S fuel' => deleteAll_loop this retries fuel' endpoint items'
  end.

(** What [deleteAll] does once the deletes of a page have settled. *)
Definition after_deletes (fuel : nat) (values : list jsval) : Prog :=
  Call (get this retries endpoint caller_queries) (fun prom =>
    Await prom (next_page fuel)).

(** The caller's query with [limit] set, the request of a page of it, and
    the pending fetch of a page. *)
Definition limited (q : object) (L : nat) : object :=
  obj_set "limit" (JNum (Z.of_nat L)) q.

Definition page_get (q : object) (L : nat) : Request :=
  get_request this (with_query endpoint (limited q L)).

Definition page_task (q : object) (L : nat) : Task :=
  Fetch (page_get q L)
    (get_await this retries (with_query endpoint (limited q L)) caller_queries).

End Items.

(** ** Re-issued requests *)

Section Retries.
Context `{Runtime} (this : Client).

(** The endpoint after [n] calls of [get] or [delete] have each appended
    the query string of [q] to it. *)
Fixpoint requeried (n : nat) (endpoint : string) (q : object) : string :=
  match n with
  | O => endpoint
  | S n' => requeried n' (with_query endpoint q) q
  end.

(** The requests of a [get] or a [delete] whose transport throws [k] times:
    the first one and [k] retries. *)
Definition get_requests (k : nat) (endpoint : string) (q : object)
    : list Request :=
  map (fun i => get_request this (requeried i endpoint q)) (seq 1 (S k)).

Definition delete_requests (k : nat) (endpoint : string) (q : object)
    : list Request :=
  map (fun i => delete_request this (requeried i endpoint q)) (seq 1 (S k)).

End Retries.

(** ** The requests of a session *)

(** A request of the session: to a URL under the store's base URL, with
    the session's headers (the token among them) and the 15 s timeout. *)
Definition of_session (this : Client) (rq : Request) : bool :=
  String.prefix (base this) (req_url rq)
  && bool_decide (req_headers rq = headers this)
  && (req_timeout rq =? 15000).

(** A request of the session with the given method and body. *)
Definition session_request (this : Client) (m : Method) (body : option string)
    (rq : Request) : bool :=
  of_session this rq
  && bool_decide (req_method rq = m)
  && bool_decide (req_body rq = body).

(** A GET or a DELETE of the session, without a body. *)
Definition reads_or_deletes (this : Client) (rq : Request) : bool :=
  session_request this GET None rq || session_request this DELETE None rq.

(** Every request the executor can send, whatever the outcomes of its
    fetches and whatever the session holds, satisfies [P]. *)
Inductive sends (P : Request -> bool) : Task -> Prop :=
| sends_Ret v : sends P (Ret v)
| sends_Throw e : sends P (Throw e)
| sends_Stalled : sends P Stalled
| sends_Fetch rq k :
    P rq = true -> (forall o, sends P (k o)) -> sends P (Fetch rq k)
| sends_SetMeta m k : sends P k -> sends P (SetMeta m k)
| sends_GetQueries k : (forall q, sends P (k q)) -> sends P (GetQueries k).

(** Every executor the orchestrator can call sends requests that satisfy
    [P] only. *)
Inductive calls (P : Request -> bool) : Prog -> Prop :=
| calls_Done v : calls P (Done v)
| calls_Fail e : calls P (Fail e)
| calls_Starved : calls P Starved
| calls_Call t k :
    sends P t -> (forall prom, calls P (k prom)) -> calls P (Call t k)
| calls_Await p k : (forall v, calls P (k v)) -> calls P (Await p k)
| calls_AwaitAll ps k : (forall vs, calls P (k vs)) -> calls P (AwaitAll ps k)
| calls_ReadMeta k : (forall m, calls P (k m)) -> calls P (ReadMeta k)
| calls_WriteQuery key v k : calls P k -> calls P (WriteQuery key v k).

(** ** The first page of a bulk delete *)

Section FirstRequest.
Context `{Runtime} (this : Client) (endpoint : string).

(** The first request of a [deleteAll]: that of the query with [limit]
    set. *)
Definition limit_request (q : object) (limit : jsval) : Request :=
  get_request this (with_query endpoint (obj_set "limit" limit q)).

End FirstRequest.

Section FirstRound.
Context `{Runtime} (this : Client) (retries : nat) (endpoint : string).

(** The promises of the deletes of a page, of which the delete of item [b]
    is the one that goes wrong: [stages c] is its promise after [c]
    completions of its fetches.  [D] lists the other items whose delete has
    completed. *)
Definition round_slot (stages : nat -> Task) (b : nat) (D : list nat)
    (c : nat) (i : nat) (v : jsval) : Task :=
  if bool_decide (i = b) then stages c
  else if bool_decide (i ∈ D) then Ret JUndefined
  else item_delete this retries endpoint v.

Definition round_pool (stages : nat -> Task) (b : nat) (items : list jsval)
    (D : list nat) (c : nat) : list Task :=
  Ret (JArr items) :: imap (round_slot stages b D c) items.

(** The requests the delete that goes wrong has sent after the first, up to
    its stage [c]. *)
Definition round_log (stages : nat -> Task) (c : nat) : list Request :=
  flat_map (fun j => sent (stages j)) (seq 1 c).

(** How often the fetch of promise [h] completes in a completion order. *)
Definition completions (h : nat) (order : list nat) : nat :=
  length (filter (fun h' => h' = h) order).

End FirstRound.

Section Stages.
Context `{Runtime} (this : Client) (endpoint : string).

(** The delete of item [v] is refused: its promise is rejected with [e] at
    the first completion. *)
Definition refused_stages (retries : nat) (v : jsval) (e : jserror)
    (c : nat) : Task :=
  match c with
  | O => item_delete this retries endpoint v
  | S _ => Throw e
  end.

(** The request of the delete of item [v] as [delete] re-issues it: the
    item's URL with the empty query string appended once more. *)
Definition reissued_request (v : jsval) : Request :=
  delete_request this (with_query (item_endpoint endpoint v) []).

(** The promise of the delete of item [v] once its transport has thrown: it
    awaits the [delete] it has called for the retry, and then reads [ok]
    from its own response, which it never got. *)
Definition reissued_delete (retries : nat) (v : jsval) : Task :=
  Fetch (reissued_request v)
    (fun o =>
       bind (delete_await this retries
               (with_query (item_endpoint endpoint v) []) default_queries o)
         (fun _ => delete_after_try None)).

(** The transport of the delete of item [v] throws and the retry is
    answered 2xx. *)
Definition timeout_stages (retries : nat) (v : jsval) (c : nat) : Task :=
  match c with
  | 0%nat => item_delete this (S retries) endpoint v
  | 1%nat => reissued_delete retries v
  | _ => Throw TypeError
  end.

End Stages.

(** ** An example store, its runtime and its servers *)

Module Example.

Definition dq : string := String (Ascii.ascii_of_nat 34) EmptyString.

(** JSON text of a value. *)
Fixpoint render (v : jsval) : string :=
  match v with
  | JUndefined => "undefined"
  | JNull => "null"
  | JBool true => "true"
  | JBool false => "false"
  | JNum n => Z_to_string n
  | JStr s => dq +:+ s +:+ dq
  | JArr l => "[" +:+ join "," (map render l) +:+ "]"
  | JObj o =>
      "{" +:+ join "," (map (fun kv => dq +:+ fst kv +:+ dq +:+ ":"
                                         +:+ render (snd kv)) o) +:+ "}"
  | JPromise _ => "{}"
  end.

(** JSON.stringify on JSON values; [undefined] has no JSON text. *)
Definition to_json (v : jsval) : option string :=
  match v with
  | JUndefined => None
  | _ => Some (render v)
  end.

Definition item (id : Z) : jsval := JObj [("id", JNum id)].

(** The body of a page: its data, and the page count in the metadata. *)
Definition envelope (data : list jsval) (total_pages : Z) : jsval :=
  JObj [("data", JArr data);
        ("meta", JObj [("pagination",
                        JObj [("total_pages", JNum total_pages)])])].

(** The three products of the shop. *)
Definition products : list jsval := [item 1; item 2; item 3].

(** The lists obtained by removing elements. *)
Fixpoint sublists {A : Type} (l : list A) : list (list A) :=
  match l with
  | [] => [[]]
  | x :: l' => map (cons x) (sublists l') ++ sublists l'
  end.

(** A catalog of five products in pages of two. *)
Definition catalog : list (list jsval) :=
  [[item 1; item 2]; [item 3; item 4]; [item 5]].

(** The bodies the example servers send. *)
Definition bodies : list jsval :=
  JObj [] ::
  map (fun data => envelope data 3) catalog ++
  map (fun p => envelope [item p] 5) [1; 2; 3; 4; 5] ++
  map (fun s => envelope (take 2 s) 1) (sublists products).

(** JSON.parse on the bodies above; any other text is rejected. *)
Definition parse (s : string) : option jsval :=
  List.find (fun v => String.eqb (render v) s) bodies.

(** querystring.stringify on keys and values that need no escaping, and
    on numbers that print in decimal notation, as those of the examples do:
    a string, a number or a boolean gives one field, an array one field per
    element, and any other value a field without text. *)
Definition primitive (v : jsval) : string :=
  match v with
  | JStr s => s
  | JNum n => Z_to_string n
  | JBool true => "true"
  | JBool false => "false"
  | _ => EmptyString
  end.

Definition stringify (q : object) : string :=
  join "&"
    (flat_map (fun kv =>
                 match snd kv with
                 | JArr l => map (fun e => fst kv +:+ "=" +:+ primitive e) l
                 | v => [fst kv +:+ "=" +:+ primitive v]
                 end) q).

Lemma parse_json (s : string) (v : jsval) :
  parse s = Some v -> is_json v = true.
Proof.
  intros P. apply find_some in P as [I _].
  assert (F : forallb is_json bodies = true) by reflexivity.
  rewrite forallb_forall in F. exact (F v I).
Qed.

(** The runtime of the examples.  Their numbers (ids, page numbers,
    limits) are small and print in decimal notation; none of their strings
    is read as a number. *)
Definition runtime : Runtime :=
  {| JSON_parse := parse;
     JSON_stringify := to_json;
     querystring_stringify := stringify;
     NumberToString := Z_to_string;
     StringToNumber := fun _ => None;
     JSON_parse_json := parse_json |}.

Definition bc : Client :=
  mkClient "gha3w9n1at" "j3aovsvag3vg88hhyl4qt89q6ag2b6b" false.

Definition endpoint : string := "v3/catalog/products".

Definition page_url (q : object) : string :=
  base bc +:+ endpoint +:+ "?" +:+ stringify q.

Definition ok_response (body : jsval) : Response :=
  mkResponse 200 "OK" (render body).

Definition not_found : Response := mkResponse 404 "Not Found" "not found".

(** A server of numbered pages: the request without [page] gets the first
    one. *)
Definition page_number (rq : Request) (count : nat) : option nat :=
  if String.eqb (req_url rq) (page_url []) then Some 1%nat
  else
    List.find (fun p => String.eqb (req_url rq)
                          (page_url [("page", JNum (Z.of_nat p))]))
      (seq 2 (count - 1)).

(** Three pages of two products. *)
Definition catalog_server (s : unit) (rq : Request) : FetchOutcome * unit :=
  match page_number rq 3 with
  | Some p =>
      match catalog !! (p - 1)%nat with
      | Some data => (Responded (ok_response (envelope data 3)), s)
      | None => (Responded not_found, s)
      end
  | None => (Responded not_found, s)
  end.

(** Five pages of one product. *)
Definition long_server (s : unit) (rq : Request) : FetchOutcome * unit :=
  match page_number rq 5 with
  | Some p => (Responded (ok_response (envelope [item (Z.of_nat p)] 5)), s)
  | None => (Responded not_found, s)
  end.

(** The catalog with its second page missing. *)
Definition broken_server (s : unit) (rq : Request) : FetchOutcome * unit :=
  match page_number rq 3 with
  | Some 2%nat => (Responded not_found, s)
  | _ => catalog_server s rq
  end.

(** A server whose state is the list of products left: a GET answers with
    the first two, a DELETE of a product's URL removes it. *)
Definition delete_url (v : jsval) : string :=
  match GetProp v "id" with
  | inr id =>
      match @ToString runtime id with
      | inr id => base bc +:+ endpoint +:+ "/" +:+ id +:+ "?"
      | inl _ => EmptyString
      end
  | inl _ => EmptyString
  end.

Definition shop_server (s : list jsval) (rq : Request)
    : FetchOutcome * list jsval :=
  match req_method rq with
  | GET =>
      if String.eqb (req_url rq) (page_url [("limit", JNum 2)])
      then (Responded (ok_response (envelope (take 2 s) 1)), s)
      else (Responded not_found, s)
  | DELETE =>
      match List.find (fun v => String.eqb (req_url rq) (delete_url v)) s with
      | Some v =>
          (Responded (mkResponse 204 "No Content" EmptyString),
           List.filter
             (fun w => negb (String.eqb (delete_url w) (delete_url v))) s)
      | None => (Responded not_found, s)
      end
  | _ => (Responded not_found, s)
  end.

(** A session of the example store that has received one response with body
    [{}]. *)
Definition after_empty_object : Store :=
  fst (run_task (@readResponse runtime (mkResponse 200 "OK" "{}"))
         (new_store [])).

(** The metadata the catalog sends. *)
Definition catalog_meta : jsval :=
  JObj [("pagination", JObj [("total_pages", JNum 3)])].

(** The answers of the catalog by page number. *)
Definition catalog_page (p : nat) : Response :=
  match catalog !! (p - 1)%nat with
  | Some data => ok_response (envelope data 3)
  | None => not_found
  end.

(** The answers of the catalog with its second page missing. *)
Definition broken_page (p : nat) : Response :=
  match p with
  | 2%nat => not_found
  | _ => catalog_page p
  end.

End Example.

(** ** Further servers of the example store *)

Module Cases.
Import Example.

(** A page that tells its own number in its metadata. *)
Definition numbered (data : list jsval) (p : Z) : jsval :=
  JObj [("data", JArr data);
        ("meta", JObj [("pagination",
                        JObj [("total_pages", JNum 3);
                              ("current_page", JNum p)])])].

Definition numbered_catalog : list jsval :=
  [numbered [item 1; item 2] 1; numbered [item 3; item 4] 2;
   numbered [item 5] 3].

(** A page whose metadata has no page count, and a page whose page count
    is an object that hides the [toString] it inherits. *)
Definition uncounted : jsval :=
  JObj [("data", JArr [item 1]); ("meta", JObj [("pagination", JObj [])])].

Definition miscounted : jsval :=
  JObj [("data", JArr [item 1]);
        ("meta", JObj [("pagination",
                        JObj [("total_pages",
                               JObj [("toString", JNull)])])])].

(** A product whose [id] is an object that hides the [toString] it
    inherits. *)
Definition odd_item : jsval := JObj [("id", JObj [("toString", JNull)])].

(** Bodies without an envelope, a page with a [null] item, the pages that
    tell their number, the pages without a page count, and a page with a
    product whose [id] cannot be converted. *)
Definition bodies : list jsval :=
  JArr [item 1; item 2] :: JNull :: envelope [item 1; JNull; item 3] 1
    :: numbered_catalog
    ++ [uncounted; miscounted; envelope [item 1; odd_item; item 3] 1].

Definition parse (s : string) : option jsval :=
  List.find (fun v => String.eqb (render v) s) bodies.

Lemma parse_bodies_json (s : string) (v : jsval) :
  parse s = Some v -> is_json v = true.
Proof.
  intros P. apply find_some in P as [I _].
  assert (F : forallb is_json bodies = true) by reflexivity.
  rewrite forallb_forall in F. exact (F v I).
Qed.

Definition runtime : Runtime :=
  {| JSON_parse := parse;
     JSON_stringify := to_json;
     querystring_stringify := stringify;
     NumberToString := Z_to_string;
     StringToNumber := fun _ => None;
     JSON_parse_json := parse_bodies_json |}.



(** A product list with a [null] among the products. *)
Definition holed_server (s : unit) (rq : Request) : FetchOutcome * unit :=
  match req_method rq with
  | GET => (Responded (ok_response (envelope [item 1; JNull; item 3] 1)), s)
  | _ => (Responded (mkResponse 204 "No Content" EmptyString), s)
  end.

(** A product list with a product whose [id] cannot be converted to a
    string. *)
Definition odd_server (s : unit) (rq : Request) : FetchOutcome * unit :=
  match req_method rq with
  | GET => (Responded (ok_response (envelope [item 1; odd_item; item 3] 1)), s)
  | _ => (Responded (mkResponse 204 "No Content" EmptyString), s)
  end.

(** The catalog behind a transport that throws on the first request of
    page 2; the state tells whether it has. *)
Definition flaky_server (s : bool) (rq : Request) : FetchOutcome * bool :=
  if negb s && String.eqb (req_url rq) (page_url [("page", JNum 2)])
  then (Thrown, true)
  else (fst (catalog_server tt rq), s).

(** Servers of the pages without a page count. *)
Definition uncounted_server (s : unit) (rq : Request) : FetchOutcome * unit :=
  (Responded (ok_response uncounted), s).

Definition miscounted_server (s : unit) (rq : Request) : FetchOutcome * unit :=
  (Responded (ok_response miscounted), s).

(** A server that answers every request with an empty 204. *)
Definition silent_server (s : unit) (rq : Request) : FetchOutcome * unit :=
  (Responded (mkResponse 204 "No Content" EmptyString), s).

(** A session that holds the metadata of the catalog. *)
Definition after_catalog : Store :=
  {| meta := catalog_meta; queries := [] |}.

(** Two products, of which the second cannot be deleted. *)
Definition conflict : Response :=
  mkResponse 409 "Conflict" "product 2 is in use".

Definition refusing_server (s : unit) (rq : Request) : FetchOutcome * unit :=
  match req_method rq with
  | GET => (Responded (ok_response (envelope [item 1; item 2] 1)), s)
  | DELETE =>
      if String.eqb (req_url rq) (delete_url (item 2))
      then (Responded conflict, s)
      else (Responded (mkResponse 204 "No Content" EmptyString), s)
  | _ => (Responded not_found, s)
  end.

(** Two products behind a transport that throws on every request to the
    URL of product 1, and on no other. *)
Definition timeout_server (s : unit) (rq : Request) : FetchOutcome * unit :=
  match req_method rq with
  | GET => (Responded (ok_response (envelope [item 1; item 2] 1)), s)
  | DELETE =>
      if String.eqb (req_url rq) (delete_url (item 1))
      then (Thrown, s)
      else (Responded (mkResponse 204 "No Content" EmptyString), s)
  | _ => (Responded not_found, s)
  end.

End Cases.

(** * Properties *)

(** ** The request executors *)

Section ExecutorFacts.
Context `{Runtime} (this : Client).

Lemma get_unfold retries endpoint qr :
  get this retries endpoint qr =
  read_queries qr (fun q =>
    Fetch (get_request this (with_query endpoint q))
      (get_await this retries (with_query endpoint q) qr)).
Proof. destruct retries; reflexivity. Qed.

Lemma delete_unfold retries endpoint qr :
  delete this retries endpoint qr =
  read_queries qr (fun q =>
    Fetch (delete_request this (with_query endpoint q))
      (delete_await this retries (with_query endpoint q) qr)).
Proof. destruct retries; reflexivity. Qed.

Lemma post_unfold retries endpoint body :
  post this retries endpoint body =
  Fetch (post_request this endpoint body)
    (fun o => match o with
              | Thrown => match retries with
                          | O => Stalled
                          | S r => post this r endpoint body
                          end
              | Responded response =>
                  if ok response then readResponse response
                  else Throw (Error (status_message response))
              end).
Proof. destruct retries; reflexivity. Qed.

Lemma put_unfold retries endpoint body :
  put this retries endpoint body =
  Fetch (put_request this endpoint body)
    (fun o => match o with
              | Thrown => match retries with
                          | O => Stalled
                          | S r => put this r endpoint body
                          end
              | Responded response =>
                  if ok response then readResponse response
                  else Throw (Error (status_message response))
              end).
Proof. destruct retries; reflexivity. Qed.

Lemma run_read_queries qr k st :
  run_task (read_queries qr k) st = run_task (k (deref qr st)) st.
Proof. destruct qr; reflexivity. Qed.

(** Calling [get] sends one request and suspends; the store is untouched. *)
Lemma run_get retries endpoint qr st :
  run_task (get this retries endpoint qr) st =
  (st, Fetch (get_request this (with_query endpoint (deref qr st)))
         (get_await this retries (with_query endpoint (deref qr st)) qr)).
Proof. rewrite get_unfold, run_read_queries. reflexivity. Qed.

Lemma run_delete retries endpoint qr st :
  run_task (delete this retries endpoint qr) st =
  (st, Fetch (delete_request this (with_query endpoint (deref qr st)))
         (delete_await this retries (with_query endpoint (deref qr st)) qr)).
Proof. rewrite delete_unfold, run_read_queries. reflexivity. Qed.

(** [readResponse] on a store, case by case. *)
Lemma run_readResponse_empty response st :
  text response = EmptyString ->
  run_task (readResponse response) st = (st, Ret JUndefined).
Proof. intros E. unfold readResponse. rewrite E. reflexivity. Qed.

Lemma nonempty_length (s : string) :
  s <> EmptyString -> (0 <? String.length s)%nat = true.
Proof. destruct s; [congruence | reflexivity]. Qed.

Lemma run_readResponse_invalid response st :
  text response <> EmptyString ->
  JSON_parse (text response) = None ->
  run_task (readResponse response) st = (st, Throw SyntaxError).
Proof.
  intros E P. unfold readResponse.
  rewrite (nonempty_length _ E), P. reflexivity.
Qed.

Lemma run_readResponse_object response fields st :
  text response <> EmptyString ->
  JSON_parse (text response) = Some (JObj fields) ->
  run_task (readResponse response) st =
  ({| meta := obj_get "meta" fields; queries := queries st |},
   Ret (obj_get "data" fields)).
Proof.
  intros E P. unfold readResponse.
  rewrite (nonempty_length _ E), P. reflexivity.
Qed.


Lemma length_append (a b : string) :
  String.length (a +:+ b) = (String.length a + String.length b)%nat.
Proof. induction a as [|c a IH]; simpl; [reflexivity | now rewrite IH]. Qed.


(** Appending a query string changes the endpoint. *)
Lemma with_query_neq endpoint q : with_query endpoint q <> endpoint.
Proof.
  unfold with_query. intros E.
  apply (f_equal String.length) in E.
  rewrite length_append in E. simpl in E. lia.
Qed.

Lemma append_inj_l (a b c : string) : a +:+ b = a +:+ c -> b = c.
Proof. induction a as [|x a IH]; simpl; intros E; [exact E | injection E; auto]. Qed.

(** On a 2xx response every executor that reads a body hands it to
    [readResponse]. *)
Lemma get_await_ok retries endpoint qr response :
  ok response = true ->
  get_await this retries endpoint qr (Responded response) = readResponse response.
Proof. intros E. simpl. now rewrite E. Qed.

Lemma get_await_not_ok retries endpoint qr response :
  ok response = false ->
  get_await this retries endpoint qr (Responded response) =
  Throw (Error (status_message response)).
Proof. intros E. simpl. now rewrite E. Qed.

(** X2.  [post] re-issues the very same request after a transport failure,
    and stays pending. *)
Lemma post_retry_identical retries endpoint body st :
  solo (post this (S retries) endpoint body) st [Thrown] =
  (st, post this retries endpoint body,
   [post_request this endpoint body; post_request this endpoint body]).
Proof. unfold solo. simpl. rewrite post_unfold. reflexivity. Qed.

(** X3.  [put] re-issues the very same request after a transport failure,
    and stays pending. *)
Lemma put_retry_identical retries endpoint body st :
  solo (put this (S retries) endpoint body) st [Thrown] =
  (st, put this retries endpoint body,
   [put_request this endpoint body; put_request this endpoint body]).
Proof. unfold solo. simpl. rewrite put_unfold. reflexivity. Qed.

(** A failed transport attempt of [get] is followed by a [get] that
    returns what the server then answers. *)
Lemma get_retry_returns retries endpoint qr st response :
  ok response = true ->
  solo (get this (S retries) endpoint qr) st [Thrown; Responded response] =
  (fst (run_task (readResponse response) st),
   snd (run_task (readResponse response) st),
   [get_request this (with_query endpoint (deref qr st));
    get_request this
      (with_query (with_query endpoint (deref qr st)) (deref qr st))]).
Proof.
  intros E. unfold solo. rewrite run_get. simpl feed.
  rewrite run_get. simpl. rewrite E.
  destruct (run_task (readResponse response) st) as [st' t'] eqn:R.
  assert (sent t' = []) as ->; [|reflexivity].
  revert R. unfold readResponse.
  destruct (0 <? String.length (text response))%nat; [|now inversion 1].
  destruct (JSON_parse (text response)) as [body|]; [|now inversion 1].
  destruct (GetProp body "meta"); [now inversion 1|].
  destruct (GetProp body "data"); now inversion 1.
Qed.

End ExecutorFacts.

Section ExecutorClaims.
Context `{Runtime} (this : Client).

(** C6.  The envelope reader ([readResponse], which every executor calls on
    a 2xx response): on an empty body it returns no value and leaves the
    session as it is; on a non-empty body that is not valid JSON it fails
    with the parse error (and leaves the session as it is); on a non-empty
    body that parses to an object it returns the object's [data] field and
    overwrites the session's held metadata with the object's [meta] field,
    whatever the session held before. *)
Theorem readResponse_envelope (response : Response) (st : Store) :
  (text response = EmptyString ->
   run_task (readResponse response) st = (st, Ret JUndefined)) /\
  (text response <> EmptyString -> JSON_parse (text response) = None ->
   run_task (readResponse response) st = (st, Throw SyntaxError)) /\
  (forall fields,
     text response <> EmptyString ->
     JSON_parse (text response) = Some (JObj fields) ->
     run_task (readResponse response) st =
     ({| meta := obj_get "meta" fields; queries := queries st |},
      Ret (obj_get "data" fields))).
Proof.
  split; [|split].
  - apply run_readResponse_empty.
  - apply run_readResponse_invalid.
  - intros fields. apply run_readResponse_object.
Qed.

(** C9, as amended.  When JSON.parse reads the text [{}] as the empty
    object, a response with an empty body and a response with body [{}] both
    return no value; the first leaves the session's metadata as it is and
    the second sets it to [undefined].  So the two are told apart exactly
    when the session's metadata was not [undefined] before the response. *)
Theorem empty_body_vs_empty_object (r0 r1 : Response) (st : Store) :
  JSON_parse "{}" = Some (JObj []) ->
  text r0 = EmptyString ->
  text r1 = "{}" ->
  run_task (readResponse r0) st = (st, Ret JUndefined) /\
  run_task (readResponse r1) st =
    ({| meta := JUndefined; queries := queries st |}, Ret JUndefined) /\
  (run_task (readResponse r0) st = run_task (readResponse r1) st <->
   meta st = JUndefined).
Proof.
  intros P E0 E1.
  assert (R0 := run_readResponse_empty r0 st E0).
  assert (R1 : run_task (readResponse r1) st =
               ({| meta := JUndefined; queries := queries st |}, Ret JUndefined)).
  { apply (run_readResponse_object r1 [] st); rewrite E1; [discriminate | exact P]. }
  split; [exact R0 | split; [exact R1 |]].
  rewrite R0, R1. destruct st as [m q]; simpl. split.
  - intros E. injection E. auto.
  - intros ->. reflexivity.
Qed.


(** C3, on [get].  After a transport failure [get] sends a second request
    and stays pending, but the second request is not the first one again:
    its URL is the first URL with the query string appended once more. *)
Theorem get_retry_appends_query_again retries endpoint qr st :
  exists t,
    solo (get this (S retries) endpoint qr) st [Thrown] =
    (st, t,
     [get_request this (with_query endpoint (deref qr st));
      get_request this
        (with_query (with_query endpoint (deref qr st)) (deref qr st))]) /\
    settled t = Pending /\
    req_url (get_request this
               (with_query (with_query endpoint (deref qr st)) (deref qr st)))
    <> req_url (get_request this (with_query endpoint (deref qr st))).
Proof.
  eexists. split; [|split].
  - unfold solo. rewrite run_get. simpl feed. rewrite run_get. reflexivity.
  - reflexivity.
  - simpl. intros E. apply append_inj_l in E.
    exact (with_query_neq _ _ E).
Qed.

End ExecutorClaims.

(** ** The event loop *)

Lemma run_main_bindP {Srv : Type} (p : Prog) (f : jsval -> Prog) (s : Srv) st pl log :
  run_main (bindP p f) s st pl log = then_run f (run_main p s st pl log).
Proof.
  revert s st pl log.
  induction p as [v|e| |t k IH|v k IH|ps k IH|k IH|key v k IH]; intros s st pl log;
    simpl; try reflexivity.
  - destruct (run_task t st) as [st' t']. apply IH.
  - destruct (peek pl v); [reflexivity | apply IH | reflexivity].
  - destruct (first_rejected pl ps); [reflexivity|].
    destruct (all_fulfilled pl ps); [apply IH | reflexivity].
  - apply IH.
  - apply IH.
Qed.

Lemma deliver_fetch {Srv : Type} (serve : Srv -> Request -> FetchOutcome * Srv)
    h (c : Config Srv) rq k o s' st' t' :
  pool c !! h = Some (Fetch rq k) ->
  serve (server c) rq = (o, s') ->
  run_task (k o) (store c) = (st', t') ->
  deliver serve h c =
  Some (run_main (main c) s' st' (<[h := t']> (pool c)) (issued c ++ sent t')).
Proof. intros Hp Hs Hr. unfold deliver. now rewrite Hp, Hs, Hr. Qed.

Lemma deliver_not_flying {Srv : Type} (serve : Srv -> Request -> FetchOutcome * Srv)
    h (c : Config Srv) :
  (forall t, pool c !! h = Some t -> in_flight t = false) ->
  deliver serve h c = None.
Proof.
  intros Hp. unfold deliver. destruct (pool c !! h) as [t|]; [|reflexivity].
  specialize (Hp t eq_refl). now destruct t.
Qed.

Lemma run_main_AwaitAll {Srv : Type} ps k (s : Srv) st pl log :
  run_main (AwaitAll ps k) s st pl log =
  match first_rejected pl ps with
  | Some e => mkConfig s st pl log (Fail e)
  | None =>
      match all_fulfilled pl ps with
      | Some vs => run_main (k vs) s st pl log
      | None => mkConfig s st pl log (AwaitAll ps k)
      end
  end.
Proof. reflexivity. Qed.

Lemma run_main_Call {Srv : Type} t k (s : Srv) st pl log :
  run_main (Call t k) s st pl log =
  run_main (k (JPromise (length pl))) s (fst (run_task t st))
    (pl ++ [snd (run_task t st)]) (log ++ sent (snd (run_task t st))).
Proof. simpl. now destruct (run_task t st). Qed.

Lemma run_main_Await_pending {Srv : Type} h k rq k' (s : Srv) st pl log :
  pl !! h = Some (Fetch rq k') ->
  run_main (Await (JPromise h) k) s st pl log =
  mkConfig s st pl log (Await (JPromise h) k).
Proof. intros Hl. simpl. now rewrite Hl. Qed.

Lemma run_main_Await_fulfilled {Srv : Type} h k v (s : Srv) st pl log :
  pl !! h = Some (Ret v) ->
  run_main (Await (JPromise h) k) s st pl log = run_main (k v) s st pl log.
Proof. intros Hl. simpl. now rewrite Hl. Qed.

Lemma run_main_WriteQuery {Srv : Type} key v k (s : Srv) st pl log :
  run_main (WriteQuery key v k) s st pl log =
  run_main k s {| meta := meta st; queries := obj_set key v (queries st) |}
    pl log.
Proof. reflexivity. Qed.

Lemma obj_set_set k v v' (o : object) :
  obj_set k v (obj_set k v' o) = obj_set k v o.
Proof.
  induction o as [|[k' w] o IH]; simpl.
  - now rewrite String.eqb_refl.
  - destruct (String.eqb k k') eqn:E; simpl.
    + now rewrite String.eqb_refl.
    + now rewrite E, IH.
Qed.



Section PaginateFacts.
Context `{Runtime} (this : Client) (retries : nat).

Lemma _paginate_unfold fuel endpoint accum current :
  _paginate this retries fuel endpoint accum current =
  ReadMeta (fun meta =>
    match GetProp meta "pagination" with
    | inl e => Fail e
    | inr pagination =>
        match GetProp pagination "total_pages" with
        | inl e => Fail e
        | inr total =>
            WriteQuery "page" (JNum (current + 1))
              match js_lt current total with
              | inl e => Fail e
              | inr true =>
                  Call (get this retries endpoint caller_queries) (fun prom =>
                    match fuel with
                    | O => Starved
                    | S fuel' =>
                        _paginate this retries fuel' endpoint (accum ++ [prom])
                          (current + 1)
                    end)
              | inr false => Done (JArr accum)
              end
        end
    end).
Proof. destruct fuel; reflexivity. Qed.

Lemma _paginate_with_unfold total fuel endpoint accum current :
  _paginate_with this retries total fuel endpoint accum current =
  WriteQuery "page" (JNum (current + 1))
    match js_lt current total with
    | inl e => Fail e
    | inr true =>
        Call (get this retries endpoint caller_queries) (fun prom =>
          match fuel with
          | O => Starved
          | S fuel' =>
              _paginate_with this retries total fuel' endpoint (accum ++ [prom])
                (current + 1)
          end)
    | inr false => Done (JArr accum)
    end.
Proof. destruct fuel; reflexivity. Qed.

Lemma page_query_again q p p' : page_query (page_query q p') p = page_query q p.
Proof. apply obj_set_set. Qed.

(** The loop of [_paginate], entered at page [c] with [k] pages to go. *)
Lemma run_paginate_loop {Srv : Type} (k : nat) :
  forall fuel endpoint accum (c : nat) (s : Srv) st pl log total N,
    total_pages (meta st) = Some total ->
    ToNumber total = inr (Some N) ->
    Z.of_nat k = Z.max 0 (N - Z.of_nat c) ->
    (k <= fuel)%nat ->
    run_main (_paginate this retries fuel endpoint accum (Z.of_nat c)) s st pl log =
    mkConfig s
      {| meta := meta st; queries := page_query (queries st) (c + k + 1) |}
      (pl ++ map (page_fetch this retries endpoint (queries st)) (seq (c + 1) k))
      (log ++ map (page_request this endpoint (queries st)) (seq (c + 1) k))
      (Done (JArr (accum ++ map JPromise (seq (length pl) k)))).
Proof.
  induction k as [|k IH]; intros fuel endpoint accum c s st pl log total N HT HN Hk Hf.
  - rewrite _paginate_unfold. simpl run_main.
    unfold total_pages in HT.
    destruct (GetProp (meta st) "pagination") as [|pg]; [discriminate|].
    destruct (GetProp pg "total_pages") as [|t]; [discriminate|].
    injection HT as ->. simpl run_main.
    unfold js_lt. rewrite HN.
    assert ((Z.of_nat c <? N) = false) as -> by lia.
    simpl. rewrite !app_nil_r. unfold page_query.
    repeat f_equal. lia.
  - rewrite _paginate_unfold. simpl run_main.
    pose proof HT as HT'. unfold total_pages in HT'.
    destruct (GetProp (meta st) "pagination") as [|pg]; [discriminate|].
    destruct (GetProp pg "total_pages") as [|t]; [discriminate|].
    injection HT' as ->. simpl run_main.
    unfold js_lt. rewrite HN.
    assert ((Z.of_nat c <? N) = true) as -> by lia.
    simpl run_main. rewrite run_get. simpl deref. simpl sent.
    destruct fuel as [|fuel]; [lia|].
    replace (Z.of_nat c + 1) with (Z.of_nat (c + 1)) by lia.
    erewrite (IH fuel endpoint _ (c + 1)%nat); [| exact HT | exact HN | simpl; lia | lia].
    simpl queries. simpl meta.
    fold (page_query (queries st) (c + 1)).
    rewrite page_query_again.
    rewrite length_app. simpl length.
    rewrite <- !app_assoc. simpl.
    replace (c + 1 + k + 1)%nat with (c + S k + 1)%nat by lia.
    replace (c + 1 + 1)%nat with (S (c + 1)) by lia.
    replace (length pl + 1)%nat with (S (length pl)) by lia.
    f_equal.
    + f_equal. f_equal. apply map_ext. intros p. unfold page_fetch, page_request.
      now rewrite page_query_again.
    + f_equal. f_equal. apply map_ext. intros p. unfold page_request.
      now rewrite page_query_again.
Qed.

End PaginateFacts.

(** ** Awaiting promises *)

Lemma peek_plain pl v : is_promise v = false -> peek pl v = Fulfilled v.
Proof. destruct v; simpl; congruence. Qed.

Lemma first_rejected_none pl ps :
  (forall p e, p ∈ ps -> peek pl p <> Rejected e) ->
  first_rejected pl ps = None.
Proof.
  induction ps as [|p ps IH]; intros Hn; simpl; [reflexivity|].
  destruct (peek pl p) eqn:E.
  - apply IH. intros q e Hq. apply Hn. now right.
  - apply IH. intros q e Hq. apply Hn. now right.
  - exfalso. apply (Hn p e); [left | exact E].
Qed.

Lemma first_rejected_one pl ps p0 e :
  p0 ∈ ps ->
  peek pl p0 = Rejected e ->
  (forall p e', p ∈ ps -> peek pl p = Rejected e' -> e' = e) ->
  first_rejected pl ps = Some e.
Proof.
  induction ps as [|p ps IH]; intros Hin Hp Hn; [inversion Hin|].
  simpl. destruct (peek pl p) eqn:E.
  - apply IH; [|exact Hp|].
    + apply elem_of_cons in Hin as [->|]; [congruence | assumption].
    + intros q e' Hq. apply Hn. now right.
  - apply IH; [|exact Hp|].
    + apply elem_of_cons in Hin as [->|]; [congruence | assumption].
    + intros q e' Hq. apply Hn. now right.
  - f_equal. apply (Hn p); [left | exact E].
Qed.

Lemma all_fulfilled_some pl ps (val : jsval -> jsval) :
  (forall p, p ∈ ps -> peek pl p = Fulfilled (val p)) ->
  all_fulfilled pl ps = Some (map val ps).
Proof.
  induction ps as [|p ps IH]; intros Hf; simpl; [reflexivity|].
  rewrite (Hf p) by left. rewrite IH; [reflexivity|].
  intros q Hq. apply Hf. now right.
Qed.

Lemma all_fulfilled_none pl ps p0 :
  p0 ∈ ps ->
  (forall v, peek pl p0 <> Fulfilled v) ->
  all_fulfilled pl ps = None.
Proof.
  induction ps as [|p ps IH]; intros Hin Hp; [inversion Hin|].
  simpl. apply elem_of_cons in Hin as [->|Hin].
  - destruct (peek pl p); try reflexivity. now destruct (Hp v).
  - rewrite (IH Hin Hp). now destruct (peek pl p).
Qed.

Section ReceivedFacts.
Context `{Runtime} (this : Client).

Lemma is_json_get k (o : object) :
  forallb (fun kv => is_json (snd kv)) o = true ->
  is_promise (obj_get k o) = false.
Proof.
  induction o as [|[k' v] o IH]; simpl; [reflexivity|].
  intros F. apply andb_true_iff in F as [Fv Fo].
  destruct (String.eqb k k'); [|now apply IH].
  destruct v; simpl in *; congruence.
Qed.

Lemma GetProp_plain body k d :
  is_json body = true -> GetProp body k = inr d -> is_promise d = false.
Proof.
  destruct body; simpl; intros J G; try discriminate;
    try (injection G as <-; reflexivity).
  - injection G as <-. now destruct (String.eqb k "length").
  - injection G as <-. now destruct (String.eqb k "length").
  - injection G as <-. now apply is_json_get.
Qed.

(** What [get] returns is never a promise. *)
Lemma received_plain response d :
  received response = inr d -> is_promise d = false.
Proof.
  unfold received.
  destruct (ok response); [|discriminate].
  destruct (0 <? String.length (text response))%nat; [|now intros [= <-]].
  destruct (JSON_parse (text response)) as [body|] eqn:P; [|discriminate].
  apply JSON_parse_json in P.
  destruct (GetProp body "meta"); [discriminate|].
  destruct (GetProp body "data") eqn:G; [discriminate|].
  intros [= <-]. exact (GetProp_plain _ _ _ P G).
Qed.

Lemma envelope_received response d m :
  envelope_of response = Some (d, m) -> received response = inr d.
Proof.
  unfold envelope_of, received.
  destruct (ok response); [|discriminate]. simpl.
  destruct (0 <? String.length (text response))%nat; [|discriminate].
  destruct (JSON_parse (text response)) as [body|]; [|discriminate].
  destruct (GetProp body "meta"); [discriminate|].
  destruct (GetProp body "data"); [discriminate|].
  now intros [= <- <-].
Qed.

(** The response arrives: [get] settles with [received], sends nothing, and
    leaves the [queries] object as it is. *)
Lemma run_get_await retries endpoint qr response st :
  exists m,
    run_task (get_await this retries endpoint qr (Responded response)) st =
    ({| meta := m; queries := queries st |}, as_task (received response)).
Proof.
  unfold get_await, received, readResponse.
  destruct (ok response); [|exists (meta st); now destruct st].
  destruct (0 <? String.length (text response))%nat;
    [|exists (meta st); now destruct st].
  destruct (JSON_parse (text response)) as [body|];
    [|exists (meta st); now destruct st].
  destruct (GetProp body "meta") as [e|m]; [exists (meta st); now destruct st|].
  exists m. now destruct (GetProp body "data").
Qed.

Lemma run_get_await_page retries endpoint qr response st d m :
  envelope_of response = Some (d, m) ->
  run_task (get_await this retries endpoint qr (Responded response)) st =
  ({| meta := m; queries := queries st |}, Ret d).
Proof.
  unfold envelope_of, get_await, readResponse.
  destruct (ok response); [|discriminate]. simpl.
  destruct (0 <? String.length (text response))%nat; [|discriminate].
  destruct (JSON_parse (text response)) as [body|]; [|discriminate].
  destruct (GetProp body "meta"); [discriminate|].
  destruct (GetProp body "data"); [discriminate|].
  now intros [= <- <-].
Qed.

Lemma sent_as_task r : sent (as_task r) = [].
Proof. now destruct r. Qed.

End ReceivedFacts.

(** ** The first page of [paginate] *)

Section FirstPage.
Context `{Runtime} (this : Client) (retries : nat).
Context {Srv : Type} (serve : Srv -> Request -> FetchOutcome * Srv).

Lemma start_paginate fuel endpoint (s0 : Srv) st0 :
  start (paginate this retries fuel endpoint) s0 st0 =
  mkConfig s0 st0
    [Fetch (get_request this (with_query endpoint (queries st0)))
       (get_await this retries (with_query endpoint (queries st0)) caller_queries)]
    [get_request this (with_query endpoint (queries st0))]
    (Await (JPromise 0)
       (fun first => _paginate this retries fuel endpoint [first] 1)).
Proof. unfold start, paginate. simpl run_main. rewrite run_get. reflexivity. Qed.

(** The first page arrives: the loop of [_paginate] runs to its end. *)
Lemma paginate_first_page fuel endpoint (s0 s1 : Srv) st0 r1 d1 m total N :
  serve s0 (get_request this (with_query endpoint (queries st0))) =
    (Responded r1, s1) ->
  envelope_of r1 = Some (d1, m) ->
  total_pages m = Some total ->
  ToNumber total = inr (Some N) ->
  (Z.to_nat (N - 1) <= fuel)%nat ->
  deliver serve 0 (start (paginate this retries fuel endpoint) s0 st0) =
  Some (mkConfig s1
          {| meta := m;
             queries := page_query (queries st0) (Z.to_nat (N - 1) + 2) |}
          (Ret d1 :: map (page_fetch this retries endpoint (queries st0))
                       (seq 2 (Z.to_nat (N - 1))))
          (get_request this (with_query endpoint (queries st0))
             :: map (page_request this endpoint (queries st0))
                  (seq 2 (Z.to_nat (N - 1))))
          (Done (JArr (d1 :: map JPromise (seq 1 (Z.to_nat (N - 1))))))).
Proof.
  intros Hs He Ht HN Hf.
  rewrite start_paginate.
  erewrite deliver_fetch;
    [| reflexivity | exact Hs | exact (run_get_await_page this _ _ _ _ _ _ _ He)].
  simpl main. simpl run_main.
  change 1 with (Z.of_nat 1).
  erewrite (run_paginate_loop this retries (Z.to_nat (N - 1)));
    [| exact Ht | exact HN | simpl; lia | exact Hf].
  simpl. f_equal. f_equal. f_equal. f_equal. lia.
Qed.

End FirstPage.

(** ** The pages of [getAll] after the first *)

Section GetAllRun.
Context `{Runtime} (this : Client) (retries : nat).
Context {Srv : Type} (serve : Srv -> Request -> FetchOutcome * Srv).
Context (endpoint : string) (q0 : object) (n : nat) (resp : nat -> Response).
Context (d1 : jsval) (log1 : list Request).

Hypothesis d1_plain : is_promise d1 = false.

(** The server answers the request for page [p] with [resp p]. *)
Hypothesis pages_served :
  forall s p, (2 <= p <= S n)%nat ->
    fst (serve s (page_request this endpoint q0 p)) = Responded (resp p).

(** The promise [h] is the fetch of page [h + 1].  [D] lists the promises
    whose fetch has completed. *)
Definition slot (D : list nat) (h : nat) : Task :=
  if bool_decide (h ∈ D) then as_task (received (resp (S h)))
  else page_fetch this retries endpoint q0 (S h).

Definition pool_of (D : list nat) : list Task :=
  Ret d1 :: map (slot D) (seq 1 n).

Definition value_of (h : nat) : jsval :=
  match received (resp (S h)) with
  | inr v => v
  | inl _ => JUndefined
  end.

Definition awaited : list jsval := d1 :: map JPromise (seq 1 n).

Definition values : list jsval := d1 :: map value_of (seq 1 n).

Definition no_error (D : list nat) : Prop :=
  forall h, h ∈ D -> exists v, received (resp (S h)) = inr v.

Definition complete (D : list nat) : Prop :=
  Forall (fun h => h ∈ D) (seq 1 n).

Definition GA (D : list nat) (c : Config Srv) : Prop :=
  pool c = pool_of D /\ issued c = log1 /\
  ((no_error D /\ ~ complete D /\ main c = AwaitAll awaited collect) \/
   (no_error D /\ complete D /\ main c = Done (JArr values)) \/
   (exists h e, h ∈ D /\ received (resp (S h)) = inl e /\ main c = Fail e)).

Lemma lookup_pool_of D h :
  (1 <= h <= n)%nat -> pool_of D !! h = Some (slot D h).
Proof.
  intros Hh. unfold pool_of. destruct h as [|h]; [lia|].
  simpl. rewrite list_lookup_fmap, lookup_seq_lt by lia. reflexivity.
Qed.

Lemma lookup_pool_of_ge D h : (n < h)%nat -> pool_of D !! h = None.
Proof.
  intros Hh. apply lookup_ge_None. unfold pool_of. simpl.
  rewrite length_map, length_seq. lia.
Qed.

Lemma peek_slot D h :
  (1 <= h <= n)%nat ->
  peek (pool_of D) (JPromise h) =
  if bool_decide (h ∈ D) then
    match received (resp (S h)) with
    | inl e => Rejected e
    | inr v => Fulfilled v
    end
  else Pending.
Proof.
  intros Hh. simpl. rewrite lookup_pool_of by exact Hh. unfold slot.
  destruct (bool_decide (h ∈ D)); [|reflexivity].
  now destruct (received (resp (S h))).
Qed.

Lemma awaited_cases p :
  p ∈ awaited -> p = d1 \/ exists h, p = JPromise h /\ (1 <= h <= n)%nat.
Proof.
  unfold awaited. intros Hp. apply elem_of_cons in Hp as [->|Hp]; [now left|].
  right. apply list_elem_of_fmap in Hp as (h & -> & Hh).
  exists h. split; [reflexivity|]. apply elem_of_seq in Hh. lia.
Qed.

Lemma insert_pool_of D h :
  (1 <= h <= n)%nat ->
  <[h := as_task (received (resp (S h)))]> (pool_of D) = pool_of (h :: D).
Proof.
  intros Hh. apply list_eq. intros i.
  destruct (decide (i = h)) as [->|Hne].
  - rewrite list_lookup_insert_eq.
    + rewrite lookup_pool_of by exact Hh. unfold slot.
      rewrite bool_decide_eq_true_2 by left. reflexivity.
    + unfold pool_of. simpl. rewrite length_map, length_seq. lia.
  - rewrite list_lookup_insert_ne by congruence.
    destruct (decide (i = 0%nat)) as [->|Hi0]; [reflexivity|].
    destruct (decide (i <= n)%nat) as [Hin|Hout].
    + rewrite !lookup_pool_of by lia. unfold slot.
      destruct (decide (i ∈ D)) as [Hd|Hd].
      * rewrite !bool_decide_eq_true_2; [reflexivity | now right | exact Hd].
      * rewrite !bool_decide_eq_false_2; [reflexivity | | exact Hd].
        intros Hc. apply elem_of_cons in Hc as [|]; congruence.
    + rewrite !lookup_pool_of_ge by lia. reflexivity.
Qed.

(** The orchestrator looks at the promises it awaits. *)
Lemma poll D (s : Srv) st log :
  no_error D ->
  exists p,
    run_main (AwaitAll awaited collect) s st (pool_of D) log =
      mkConfig s st (pool_of D) log p /\
    ((~ complete D /\ p = AwaitAll awaited collect) \/
     (complete D /\ p = Done (JArr values))).
Proof.
  intros Hne. rewrite run_main_AwaitAll.
  rewrite first_rejected_none.
  2:{ intros p e Hp. apply awaited_cases in Hp as [->|(h & -> & Hh)].
      - now rewrite peek_plain.
      - rewrite peek_slot by exact Hh.
        destruct (bool_decide (h ∈ D)) eqn:Hd; [|discriminate].
        apply bool_decide_eq_true in Hd.
        destruct (Hne h Hd) as [v ->]. discriminate. }
  destruct (decide (complete D)) as [Hc|Hc].
  - rewrite (all_fulfilled_some _ _
               (fun p => match p with JPromise h => value_of h | _ => p end)).
    + eexists. split; [reflexivity|]. right. split; [exact Hc|].
      unfold collect, values, awaited. simpl. rewrite map_id, map_map.
      destruct d1; try reflexivity. discriminate.
    + intros p Hp. apply awaited_cases in Hp as [->|(h & -> & Hh)].
      * rewrite peek_plain by exact d1_plain. destruct d1; try reflexivity.
        discriminate.
      * rewrite peek_slot by exact Hh.
        assert (Hd : h ∈ D).
        { unfold complete in Hc. rewrite Forall_forall in Hc. apply Hc.
          apply elem_of_seq. lia. }
        rewrite bool_decide_eq_true_2 by exact Hd.
        unfold value_of. now destruct (Hne h Hd) as [v ->].
  - assert (Hex : Exists (fun h => ~ h ∈ D) (seq 1 n)).
    { apply not_Forall_Exists; [apply _ | exact Hc]. }
    apply Exists_exists in Hex as (h & Hh & Hd).
    apply elem_of_seq in Hh.
    rewrite (all_fulfilled_none _ _ (JPromise h)).
    + eexists. split; [reflexivity|]. left. now split.
    + unfold awaited. right. apply list_elem_of_fmap. exists h.
      split; [reflexivity|]. apply elem_of_seq. lia.
    + intros v. rewrite peek_slot by lia.
      now rewrite bool_decide_eq_false_2 by exact Hd.
Qed.

Lemma GA_step D c h :
  GA D c -> (1 <= h <= n)%nat -> ~ h ∈ D ->
  exists c', deliver serve h c = Some c' /\ GA (h :: D) c'.
Proof.
  intros (Hp & Hl & Hm) Hh Hd.
  destruct (serve (server c) (page_request this endpoint q0 (S h)))
    as [o s'] eqn:Hs.
  assert (Ho : o = Responded (resp (S h))).
  { pose proof (pages_served (server c) (S h) ltac:(lia)) as E.
    now rewrite Hs in E. }
  subst o.
  destruct (run_get_await this retries
              (with_query endpoint (page_query q0 (S h))) caller_queries
              (resp (S h)) (store c)) as [m Hr].
  eexists. split.
  - eapply deliver_fetch; [| exact Hs | exact Hr].
    rewrite Hp, lookup_pool_of by exact Hh. unfold slot.
    now rewrite bool_decide_eq_false_2 by exact Hd.
  - rewrite sent_as_task, app_nil_r, Hp, insert_pool_of, Hl by exact Hh.
    destruct Hm as [(Hne & Hc & Hm)|[(Hne & Hc & Hm)|(h0 & e & Hin & He & Hm)]].
    + rewrite Hm. destruct (received (resp (S h))) as [e|v] eqn:Hv.
      * (* the page fails *)
        rewrite run_main_AwaitAll.
        rewrite (first_rejected_one _ _ (JPromise h) e).
        -- split; [reflexivity | split; [reflexivity|]].
           right. right. exists h, e. split; [left | now split].
        -- unfold awaited. right. apply list_elem_of_fmap. exists h.
           split; [reflexivity|]. apply elem_of_seq. lia.
        -- rewrite peek_slot by exact Hh.
           rewrite bool_decide_eq_true_2 by left. now rewrite Hv.
        -- intros p e' Hin. apply awaited_cases in Hin as [->|(h' & -> & Hh')].
           ++ now rewrite peek_plain.
           ++ rewrite peek_slot by exact Hh'.
              destruct (bool_decide (h' ∈ h :: D)) eqn:Hd'; [|discriminate].
              apply bool_decide_eq_true in Hd'.
              apply elem_of_cons in Hd' as [->|Hd'].
              ** rewrite Hv. congruence.
              ** destruct (Hne h' Hd') as [v ->]. discriminate.
      * assert (Hne' : no_error (h :: D)).
        { intros h' Hin. apply elem_of_cons in Hin as [->|Hin];
            [now exists v | now apply Hne]. }
        destruct (poll (h :: D) s' {| meta := m; queries := queries (store c) |}
                    log1 Hne') as (p & -> & Hp').
        split; [reflexivity | split; [reflexivity|]].
        destruct Hp' as [[Hc' ->]|[Hc' ->]]; [left | right; left]; now repeat split.
    + exfalso. apply Hd. unfold complete in Hc. rewrite Forall_forall in Hc.
      apply Hc. apply elem_of_seq. lia.
    + rewrite Hm. simpl run_main.
      split; [reflexivity | split; [reflexivity|]].
      right. right. exists h0, e. split; [now right | now split].
Qed.

Lemma GA_skip D c h :
  GA D c -> (forall h', h' ∈ D -> (1 <= h' <= n)%nat) ->
  ~ ((1 <= h <= n)%nat /\ ~ h ∈ D) ->
  deliver serve h c = None.
Proof.
  intros (Hp & _) HD Hh. apply deliver_not_flying. intros t. rewrite Hp.
  destruct (decide (h = 0%nat)) as [->|H0]; [now intros [= <-]|].
  destruct (decide (h <= n)%nat) as [Hin|Hout].
  - rewrite lookup_pool_of by lia. intros [= <-]. unfold slot.
    destruct (decide (h ∈ D)) as [Hd|Hd].
    + rewrite bool_decide_eq_true_2 by exact Hd.
      now destruct (received (resp (S h))).
    + exfalso. apply Hh. split; [lia | exact Hd].
  - rewrite lookup_pool_of_ge by lia. discriminate.
Qed.

(** Whatever the order in which the fetches complete, the invariant holds
    with the promises the order names. *)
Lemma GA_exec order : forall D c,
  GA D c -> (forall h, h ∈ D -> (1 <= h <= n)%nat) ->
  exists D',
    GA D' (exec serve order c) /\
    (forall h, h ∈ D' <-> h ∈ D \/ (h ∈ order /\ (1 <= h <= n)%nat)).
Proof.
  induction order as [|h order IH]; intros D c Hga HD.
  - exists D. split; [exact Hga|]. intros h. split; [now left|].
    intros [Hh|[Hh _]]; [exact Hh | inversion Hh].
  - simpl exec.
    destruct (decide ((1 <= h <= n)%nat /\ ~ h ∈ D)) as [[Hh Hd]|Hno].
    + destruct (GA_step D c h Hga Hh Hd) as (c' & -> & Hga').
      simpl default.
      destruct (IH (h :: D) c' Hga') as (D' & Hga'' & HD').
      { intros h' Hin. apply elem_of_cons in Hin as [->|Hin]; [exact Hh | now apply HD]. }
      exists D'. split; [exact Hga''|]. intros h'. rewrite HD'.
      rewrite !elem_of_cons. split.
      * intros [[->|Hin]|[Hin Hr]]; auto.
      * intros [Hin|[[->|Hin] Hr]]; auto.
    + rewrite (GA_skip D c h Hga HD Hno). simpl default.
      destruct (IH D c Hga HD) as (D' & Hga' & HD').
      exists D'. split; [exact Hga'|]. intros h'. rewrite HD'.
      rewrite elem_of_cons. split.
      * intros [Hin|[Hin Hr]]; auto.
      * intros [Hin|[[->|Hin] Hr]]; auto.
        left. destruct (decide (h ∈ D)) as [Hd|Hd]; [exact Hd|].
        exfalso. apply Hno. now split.
Qed.

End GetAllRun.

(** ** [getAll] as [paginate] followed by Bluebird's map *)

Section ThenRun.
Context {Srv : Type} (serve : Srv -> Request -> FetchOutcome * Srv).

Lemma start_bindP p f (s : Srv) st :
  start (bindP p f) s st = then_run f (start p s st).
Proof. apply run_main_bindP. Qed.

Lemma deliver_then_run f h (c : Config Srv) :
  outcome (main c) = Pending \/ (exists e, main c = Fail e) ->
  deliver serve h (then_run f c) = then_run f <$> deliver serve h c.
Proof.
  intros Hm.
  assert (E : then_run f c =
              mkConfig (server c) (store c) (pool c) (issued c) (bindP (main c) f)).
  { unfold then_run. destruct (main c); try reflexivity.
    destruct Hm as [Hm|[e Hm]]; discriminate. }
  rewrite E. unfold deliver. simpl.
  destruct (pool c !! h) as [[]|]; try reflexivity.
  destruct (serve (server c) rq) as [o s'].
  destruct (run_task (k o) (store c)) as [st' t']. simpl.
  now rewrite run_main_bindP.
Qed.

Lemma exec_idle order (c : Config Srv) :
  (forall h t, pool c !! h = Some t -> in_flight t = false) ->
  exec serve order c = c.
Proof.
  intros Hi. induction order as [|h order IH]; [reflexivity|].
  simpl. rewrite deliver_not_flying; [exact IH | apply Hi].
Qed.

End ThenRun.

Section GetAllFacts.
Context `{Runtime} (this : Client) (retries : nat).
Context {Srv : Type} (serve : Srv -> Request -> FetchOutcome * Srv).

Lemma start_getAll fuel endpoint (s0 : Srv) st0 :
  start (getAll this retries fuel endpoint) s0 st0 =
  then_run
    (fun arr =>
       match arr with
       | JArr items => AwaitAll items collect
       | _ => Fail TypeError
       end)
    (start (paginate this retries fuel endpoint) s0 st0).
Proof. unfold getAll, BlueBirdProm_map. apply start_bindP. Qed.

Lemma map_slot_nil endpoint q0 n resp :
  map (slot this retries endpoint q0 resp []) (seq 1 n) =
  map (page_fetch this retries endpoint q0) (seq 2 n).
Proof.
  rewrite <- (seq_shift n 1), map_map. apply map_ext. intros h.
  unfold slot. now rewrite bool_decide_eq_false_2 by apply not_elem_of_nil.
Qed.

(** The first page arrives: [getAll] has called [get] for every other page
    and awaits them all. *)
Lemma getAll_first_page fuel endpoint (s0 s1 : Srv) st0 r1 d1 m total N resp :
  serve s0 (get_request this (with_query endpoint (queries st0))) =
    (Responded r1, s1) ->
  envelope_of r1 = Some (d1, m) ->
  total_pages m = Some total ->
  ToNumber total = inr (Some N) ->
  (Z.to_nat (N - 1) <= fuel)%nat ->
  exists c1,
    deliver serve 0 (start (getAll this retries fuel endpoint) s0 st0) = Some c1 /\
    GA this retries endpoint (queries st0) (Z.to_nat (N - 1)) resp d1
      (get_request this (with_query endpoint (queries st0))
         :: map (page_request this endpoint (queries st0))
              (seq 2 (Z.to_nat (N - 1))))
      [] c1.
Proof.
  intros Hs He Ht HN Hf.
  assert (Hd : is_promise d1 = false).
  { eapply received_plain, envelope_received, He. }
  rewrite start_getAll, deliver_then_run.
  2:{ left. now rewrite start_paginate. }
  rewrite (paginate_first_page this retries serve fuel endpoint s0 s1 st0
             r1 d1 m total N Hs He Ht HN Hf).
  simpl fmap. eexists. split; [reflexivity|].
  unfold then_run. simpl main. simpl server. simpl store. simpl pool. simpl issued.
  rewrite <- map_slot_nil with (resp := resp).
  fold (pool_of this retries endpoint (queries st0) (Z.to_nat (N - 1)) resp d1 []).
  fold (awaited (Z.to_nat (N - 1)) d1).
  match goal with
  | |- context [run_main _ ?s ?st _ ?log] =>
      destruct (poll this retries endpoint (queries st0) (Z.to_nat (N - 1))
                  resp d1 Hd [] s st log) as (p & -> & Hp)
  end.
  { intros h Hh. inversion Hh. }
  split; [reflexivity | split; [reflexivity|]]. simpl main.
  destruct Hp as [[Hc ->]|[Hc ->]]; [left | right; left]; repeat split; try assumption;
    intros h Hh; inversion Hh.
Qed.

End GetAllFacts.

Section PaginationClaims.
Context `{Runtime} (this : Client) (retries : nat).
Context {Srv : Type} (serve : Srv -> Request -> FetchOutcome * Srv).



Lemma flying_pool_of endpoint q0 n resp d1 :
  filter (fun t => in_flight t = true)
    (pool_of this retries endpoint q0 n resp d1 []) =
  map (page_fetch this retries endpoint q0) (seq 2 n).
Proof.
  unfold pool_of. rewrite map_slot_nil.
  rewrite filter_cons_False by (simpl; congruence).
  induction (seq 2 n) as [|p l IH]; [reflexivity|].
  simpl map. rewrite filter_cons_True by reflexivity. now rewrite IH.
Qed.

(** C7, on the code.  When the first page announces [N] pages, [getAll] has
    the fetches of all the other pages in flight at once as soon as the
    first page has arrived: N - 1 of them, which exceeds 3 from five pages
    on. *)
Theorem getAll_fans_out_all_pages fuel endpoint (s0 s1 : Srv) st0 r1 d1 m N :
  serve s0 (get_request this (with_query endpoint (queries st0))) =
    (Responded r1, s1) ->
  envelope_of r1 = Some (d1, m) ->
  total_pages m = Some (JNum N) ->
  (Z.to_nat (N - 1) <= fuel)%nat ->
  exists c1,
    deliver serve 0 (start (getAll this retries fuel endpoint) s0 st0) = Some c1 /\
    flying c1 = map (page_fetch this retries endpoint (queries st0))
                  (seq 2 (Z.to_nat (N - 1))) /\
    length (flying c1) = Z.to_nat (N - 1).
Proof.
  intros Hs He Ht Hf.
  destruct (getAll_first_page this retries serve fuel endpoint s0 s1 st0 r1 d1 m
              (JNum N) N (fun _ => r1) Hs He Ht eq_refl Hf)
    as (c1 & Hd & Hp & _).
  exists c1. split; [exact Hd|].
  unfold flying. rewrite Hp, flying_pool_of.
  split; [reflexivity|]. now rewrite length_map, length_seq.
Qed.

(** The run of [getAll] once the first page has arrived, for any order in
    which the other fetches complete. *)
Lemma getAll_run fuel endpoint (s0 s1 : Srv) st0 r1 d1 m N resp order :
  serve s0 (get_request this (with_query endpoint (queries st0))) =
    (Responded r1, s1) ->
  envelope_of r1 = Some (d1, m) ->
  total_pages m = Some (JNum N) ->
  (Z.to_nat (N - 1) <= fuel)%nat ->
  (forall s p, (2 <= p <= S (Z.to_nat (N - 1)))%nat ->
     fst (serve s (page_request this endpoint (queries st0) p)) =
     Responded (resp p)) ->
  exists D,
    (forall h, h ∈ D <-> h ∈ order /\ (1 <= h <= Z.to_nat (N - 1))%nat) /\
    GA this retries endpoint (queries st0) (Z.to_nat (N - 1)) resp d1
      (get_request this (with_query endpoint (queries st0))
         :: map (page_request this endpoint (queries st0))
              (seq 2 (Z.to_nat (N - 1))))
      D (exec serve (0%nat :: order)
           (start (getAll this retries fuel endpoint) s0 st0)).
Proof.
  intros Hs He Ht Hf Hp.
  destruct (getAll_first_page this retries serve fuel endpoint s0 s1 st0 r1 d1 m
              (JNum N) N resp Hs He Ht eq_refl Hf) as (c1 & Hd & Hga).
  simpl exec. rewrite Hd. simpl default.
  assert (Hpl : is_promise d1 = false).
  { eapply received_plain, envelope_received, He. }
  destruct (GA_exec this retries serve endpoint (queries st0) (Z.to_nat (N - 1))
              resp d1 _ Hpl Hp order [] c1 Hga) as (D & Hga' & HD).
  { intros h Hh. inversion Hh. }
  exists D. split; [|exact Hga'].
  intros h. rewrite HD. split.
  - intros [Hh|Hh]; [inversion Hh | exact Hh].
  - intros Hh. now right.
Qed.

(** X1.  Whatever the order in which the page fetches complete, once they
    all have, [getAll] returns the array of the data of the responses in
    the order of the requests: first the data of the response to the
    caller's query as it is, then, for p = 2, ..., N, the data of the
    response to the query with [page] overwritten by p. *)
Theorem getAll_pages_in_order fuel endpoint (s0 s1 : Srv) st0 r1 d1 m N resp d order :
  serve s0 (get_request this (with_query endpoint (queries st0))) =
    (Responded r1, s1) ->
  envelope_of r1 = Some (d1, m) ->
  total_pages m = Some (JNum N) ->
  (Z.to_nat (N - 1) <= fuel)%nat ->
  (forall s p, (2 <= p <= S (Z.to_nat (N - 1)))%nat ->
     fst (serve s (page_request this endpoint (queries st0) p)) =
     Responded (resp p)) ->
  (forall p, (2 <= p <= S (Z.to_nat (N - 1)))%nat -> received (resp p) = inr (d p)) ->
  (forall h, (1 <= h <= Z.to_nat (N - 1))%nat -> h ∈ order) ->
  main (exec serve (0%nat :: order)
          (start (getAll this retries fuel endpoint) s0 st0)) =
  Done (JArr (d1 :: map d (seq 2 (Z.to_nat (N - 1))))).
Proof.
  intros Hs He Ht Hf Hp Hr Ho.
  destruct (getAll_run fuel endpoint s0 s1 st0 r1 d1 m N resp order Hs He Ht Hf Hp)
    as (D & HD & _ & _ & Hm).
  assert (Hc : complete (Z.to_nat (N - 1)) D).
  { apply Forall_forall. intros h Hh. apply elem_of_seq in Hh.
    apply HD. split; [apply Ho|]; lia. }
  destruct Hm as [(_ & Hnc & _)|[(_ & _ & ->)|(h & e & Hh & Herr & _)]].
  - now destruct Hnc.
  - unfold values. do 3 f_equal.
    rewrite <- (seq_shift _ 1), map_map. apply map_ext_in. intros h Hh.
    apply in_seq in Hh. unfold value_of. now rewrite Hr by lia.
  - apply HD in Hh as [_ Hh]. rewrite Hr in Herr by lia. discriminate.
Qed.

End PaginationClaims.

(** ** Non-2xx responses *)

Section FailureFacts.
Context `{Runtime} (this : Client).

Lemma feed_settled outcomes st t log :
  in_flight t = false -> feed outcomes st t log = (st, t, log).
Proof. destruct outcomes, t; simpl; congruence. Qed.

Lemma get_non_2xx retries endpoint qr st response more :
  ok response = false ->
  solo (get this retries endpoint qr) st (Responded response :: more) =
  (st, Throw (Error (status_message response)),
   [get_request this (with_query endpoint (deref qr st))]).
Proof.
  intros E. unfold solo. rewrite run_get. simpl.
  rewrite E. simpl. now destruct more.
Qed.

Lemma getAll_first_page_fails {Srv : Type}
    (serve : Srv -> Request -> FetchOutcome * Srv)
    retries fuel endpoint (s0 s1 : Srv) st0 response order :
  ok response = false ->
  serve s0 (get_request this (with_query endpoint (queries st0))) =
    (Responded response, s1) ->
  exec serve (0%nat :: order)
    (start (getAll this retries fuel endpoint) s0 st0) =
  mkConfig s1 st0 [Throw (Error (status_message response))]
    [get_request this (with_query endpoint (queries st0))]
    (Fail (Error (status_message response))).
Proof.
  intros E Hs. simpl exec.
  rewrite start_getAll, deliver_then_run.
  2:{ left. now rewrite start_paginate. }
  rewrite start_paginate.
  erewrite deliver_fetch; [| reflexivity | exact Hs |].
  2:{ simpl. rewrite E. reflexivity. }
  simpl. apply exec_idle. intros [|h] t; simpl; [now intros [= <-]|].
  discriminate.
Qed.

End FailureFacts.

(** ** [paginate] reads the page count once *)

Section Refinement.
Context `{Runtime} (this : Client) (retries : nat).
Context {Srv : Type} (serve : Srv -> Request -> FetchOutcome * Srv).

(** The loop that re-reads the page count at each turn runs as the loop
    that was given the count: calling [get] and writing [queries.page] do
    not touch the session's metadata. *)
Lemma run_paginate_with fuel :
  forall endpoint accum current (s : Srv) st pl log total,
    total_pages (meta st) = Some total ->
    run_main (_paginate this retries fuel endpoint accum current) s st pl log =
    run_main (_paginate_with this retries total fuel endpoint accum current)
      s st pl log.
Proof.
  induction fuel as [|fuel IH]; intros endpoint accum current s st pl log total Ht;
    rewrite _paginate_unfold, _paginate_with_unfold;
    pose proof Ht as Ht'; unfold total_pages in Ht';
    simpl run_main;
    destruct (GetProp (meta st) "pagination") as [|pg]; try discriminate;
    destruct (GetProp pg "total_pages") as [|t]; try discriminate;
    injection Ht' as ->; simpl run_main;
    destruct (js_lt current total) as [e|[|]]; try reflexivity;
    simpl run_main; rewrite run_get;
    first [reflexivity | apply IH; exact Ht].
Qed.

Definition once_after_first (fuel : nat) (endpoint : string) (first : jsval) : Prog :=
  ReadMeta (fun meta =>
    match GetProp meta "pagination" with
    | inl e => Fail e
    | inr pagination =>
        match GetProp pagination "total_pages" with
        | inl e => Fail e
        | inr total => _paginate_with this retries total fuel endpoint [first] 1
        end
    end).

Lemma run_after_first fuel endpoint first (s : Srv) st pl log :
  run_main (_paginate this retries fuel endpoint [first] 1) s st pl log =
  run_main (once_after_first fuel endpoint first) s st pl log.
Proof.
  destruct (total_pages (meta st)) as [total|] eqn:Ht.
  - rewrite (run_paginate_with _ _ _ _ _ _ _ _ _ Ht).
    unfold once_after_first, total_pages in *. simpl run_main.
    destruct (GetProp (meta st) "pagination") as [|pg]; [discriminate|].
    destruct (GetProp pg "total_pages") as [|t]; [discriminate|].
    now injection Ht as ->.
  - rewrite _paginate_unfold. unfold once_after_first, total_pages in *.
    simpl run_main.
    destruct (GetProp (meta st) "pagination") as [|pg]; [reflexivity|].
    destruct (GetProp pg "total_pages") as [|t]; [reflexivity | discriminate].
Qed.

(** Two configurations that differ at most in the code that follows the
    [await] of the first page, code that runs alike. *)
Definition alike (c c' : Config Srv) : Prop :=
  server c = server c' /\ store c = store c' /\ pool c = pool c' /\
  issued c = issued c' /\
  (main c = main c' \/
   exists p k k',
     main c = Await p k /\ main c' = Await p k' /\
     forall v (s : Srv) st pl log,
       run_main (k v) s st pl log = run_main (k' v) s st pl log).

Lemma alike_observe c c' : alike c c' -> observe c = observe c'.
Proof.
  intros (Hs & Hst & Hp & Hi & Hm). unfold observe.
  rewrite Hs, Hst, Hp, Hi.
  destruct Hm as [->|(p & k & k' & -> & -> & _)]; reflexivity.
Qed.

Lemma alike_run p k k' (s : Srv) st pl log :
  (forall v (s : Srv) st pl log,
     run_main (k v) s st pl log = run_main (k' v) s st pl log) ->
  alike (run_main (Await p k) s st pl log) (run_main (Await p k') s st pl log).
Proof.
  intros Hk. simpl. destruct (peek pl p).
  - repeat split. right. now exists p, k, k'.
  - rewrite Hk. repeat split. now left.
  - repeat split. now left.
Qed.

Lemma alike_refl c : alike c c.
Proof. repeat split. now left. Qed.

Lemma alike_deliver h c c' :
  alike c c' ->
  alike (default c (deliver serve h c)) (default c' (deliver serve h c')).
Proof.
  intros Ha. pose proof Ha as (Hs & Hst & Hp & Hi & Hm).
  unfold deliver. rewrite <- Hs, <- Hst, <- Hp, <- Hi.
  destruct (pool c !! h) as [[]|]; try exact Ha.
  destruct (serve (server c) rq) as [o s'].
  destruct (run_task (k o) (store c)) as [st' t']. simpl default.
  destruct Hm as [<-|(p & k1 & k2 & -> & -> & Hk)].
  - apply alike_refl.
  - now apply alike_run.
Qed.

Lemma alike_exec order : forall c c',
  alike c c' -> alike (exec serve order c) (exec serve order c').
Proof.
  induction order as [|h order IH]; intros c c' Ha; [exact Ha|].
  simpl. apply IH, alike_deliver, Ha.
Qed.

(** C8.  [paginate] and the variant that reads [total_pages] from the
    session's metadata exactly once, after the first fetch, cannot be told
    apart: from any session, against any server and for any order in which
    the fetches complete, they leave the same server, session, promises and
    requests, and have the same outcome. *)
Theorem paginate_reads_total_once fuel endpoint (s : Srv) st order :
  observe (exec serve order (start (paginate this retries fuel endpoint) s st)) =
  observe (exec serve order
             (start (paginate_once this retries fuel endpoint) s st)).
Proof.
  apply alike_observe, alike_exec.
  unfold start, paginate, paginate_once. rewrite !run_main_Call.
  apply alike_run. intros v s1 st1 pl log. apply run_after_first.
Qed.

End Refinement.

(** ** [deleteAll] *)

Lemma rounds_zero L : (1 <= L)%nat -> rounds 0 L = 0%nat.
Proof. intros HL. unfold rounds. apply Nat.div_small. lia. Qed.

Lemma rounds_last M L r :
  (1 <= L)%nat -> (r * L < M)%nat -> (M <= (r + 1) * L)%nat ->
  rounds M L = (r + 1)%nat.
Proof.
  intros HL Hlo Hhi. unfold rounds. symmetry.
  apply (Nat.div_unique _ _ _ (M + L - 1 - L * (r + 1))); nia.
Qed.

Lemma rounds_more M L r :
  (1 <= L)%nat -> (r * L < M)%nat -> (r + 1 <= rounds M L)%nat.
Proof.
  intros HL Hlo. unfold rounds.
  apply Nat.div_le_lower_bound; nia.
Qed.

Section DeleteEach.
Context `{Runtime} (this : Client) (retries : nat) (endpoint : string).
Context {Srv : Type}.

Lemma deleteAll_loop_unfold fuel items :
  deleteAll_loop this retries fuel endpoint items =
  match GetProp items "length" with
  | inl e => Fail e
  | inr len =>
      if ToBoolean len then
        match items with
        | JArr l =>
            delete_each this retries endpoint l [] (fun proms =>
              AwaitAll proms (after_deletes this retries endpoint fuel))
        | _ => Fail TypeError
        end
      else Done JUndefined
  end.
Proof. destruct fuel; reflexivity. Qed.

(** [items.map(...)] calls [delete] for each item, in order. *)
Lemma run_delete_each items : forall proms k (s : Srv) st pl log,
  forallb deletable items = true ->
  run_main (delete_each this retries endpoint items proms k) s st pl log =
  run_main (k (proms ++ map JPromise (seq (length pl) (length items))))
    s st (pl ++ map (item_delete this retries endpoint) items)
    (log ++ map (item_request this endpoint) items).
Proof.
  induction items as [|v items IH]; intros proms k s st pl log Hd.
  - simpl. now rewrite !app_nil_r.
  - simpl in Hd. apply andb_true_iff in Hd as [Hv Hd].
    simpl delete_each. unfold deletable in Hv.
    destruct (GetProp v "id") as [|id] eqn:Hid; [discriminate|].
    destruct (ToString id) as [|text] eqn:Htext; [discriminate|].
    rewrite run_main_Call, run_delete. simpl fst. simpl snd. simpl sent.
    rewrite IH by exact Hd.
    rewrite length_app. simpl length.
    replace (length pl + 1)%nat with (S (length pl)) by lia.
    rewrite <- !app_assoc. simpl.
    unfold item_delete, item_request, item_endpoint, id_string, id_of.
    rewrite Hid, Htext. reflexivity.
Qed.

End DeleteEach.

Definition idle (pl : list Task) : Prop :=
  forall h t, pl !! h = Some t -> in_flight t = false.

Lemma deliver_inv {Srv : Type} (serve : Srv -> Request -> FetchOutcome * Srv)
    h (c c' : Config Srv) :
  deliver serve h c = Some c' ->
  exists rq k,
    pool c !! h = Some (Fetch rq k) /\
    c' = run_main (main c) (snd (serve (server c) rq))
           (fst (run_task (k (fst (serve (server c) rq))) (store c)))
           (<[h := snd (run_task (k (fst (serve (server c) rq))) (store c))]> (pool c))
           (issued c ++ sent (snd (run_task (k (fst (serve (server c) rq))) (store c)))).
Proof.
  unfold deliver. destruct (pool c !! h) as [[]|]; try discriminate.
  destruct (serve (server c) rq) as [o s'] eqn:Hs.
  destruct (run_task (k o) (store c)) as [st' t'] eqn:Hr.
  intros [= <-]. exists rq, k. rewrite Hs. simpl. now rewrite Hr.
Qed.

Lemma idle_flying pl : idle pl -> filter (fun t => in_flight t = true) pl = [].
Proof.
  induction pl as [|t pl IH]; intros Hi; [reflexivity|].
  rewrite filter_cons_False.
  - apply IH. intros h u Hu. exact (Hi (S h) u Hu).
  - rewrite (Hi 0%nat t eq_refl). discriminate.
Qed.

Lemma idle_app pl pl' : idle pl -> idle pl' -> idle (pl ++ pl').
Proof.
  intros H1 H2 h t Hl. apply lookup_app_Some in Hl as [Hl|[_ Hl]].
  - exact (H1 _ _ Hl).
  - exact (H2 _ _ Hl).
Qed.

Lemma idle_singleton t : in_flight t = false -> idle [t].
Proof.
  intros Ht [|h] u; simpl.
  - now intros [= <-].
  - intros E. now rewrite lookup_nil in E.
Qed.

Lemma idle_lookup pl pl' h rq k :
  idle pl -> (pl ++ pl') !! h = Some (Fetch rq k) ->
  (length pl <= h)%nat /\ pl' !! (h - length pl)%nat = Some (Fetch rq k).
Proof.
  intros Hi Hl. apply lookup_app_Some in Hl as [Hl|Hl]; [|exact Hl].
  now apply Hi in Hl.
Qed.

Section Slots.
Context `{Runtime} (this : Client) (retries : nat) (endpoint : string).

(** The items of the page being deleted, each with whether its delete has
    completed. *)
Definition tasks_of (slots : list (jsval * bool)) : list Task :=
  map (fun p : jsval * bool =>
         if snd p then Ret JUndefined
         else item_delete this retries endpoint (fst p)) slots.

Fixpoint undone (slots : list (jsval * bool)) : list jsval :=
  match slots with
  | [] => []
  | (v, true) :: slots' => undone slots'
  | (v, false) :: slots' => v :: undone slots'
  end.

Definition fresh (items : list jsval) : list (jsval * bool) :=
  map (fun v => (v, false)) items.

Lemma tasks_of_fresh items :
  tasks_of (fresh items) = map (item_delete this retries endpoint) items.
Proof. unfold tasks_of, fresh. now rewrite map_map. Qed.

Lemma undone_fresh items : undone (fresh items) = items.
Proof. induction items as [|v items IH]; simpl; [reflexivity | now rewrite IH]. Qed.

Lemma fst_fresh items : map fst (fresh items) = items.
Proof. unfold fresh. rewrite map_map. apply map_id. Qed.

Lemma tasks_of_lookup slots i rq k :
  tasks_of slots !! i = Some (Fetch rq k) ->
  exists v,
    slots !! i = Some (v, false) /\
    rq = item_request this endpoint v /\
    k = delete_await this retries (item_endpoint endpoint v) default_queries.
Proof.
  unfold tasks_of. rewrite list_lookup_fmap.
  destruct (slots !! i) as [[v []]|]; simpl; try discriminate.
  intros [= <- <-]. now exists v.
Qed.

Lemma tasks_of_insert slots i v :
  slots !! i = Some (v, false) ->
  <[i := Ret JUndefined]> (tasks_of slots) = tasks_of (<[i := (v, true)]> slots).
Proof. intros _. unfold tasks_of. now rewrite list_fmap_insert. Qed.

Lemma undone_split slots i v :
  slots !! i = Some (v, false) ->
  exists l1 l2,
    undone slots = l1 ++ v :: l2 /\
    undone (<[i := (v, true)]> slots) = l1 ++ l2.
Proof.
  revert i. induction slots as [|[w b] slots IH]; intros i Hl; [discriminate|].
  destruct i as [|i].
  - injection Hl as -> ->. now exists [], (undone slots).
  - destruct (IH i Hl) as (l1 & l2 & E1 & E2). simpl.
    destruct b.
    + now exists l1, l2.
    + exists (w :: l1), l2. now rewrite E1, E2.
Qed.

Lemma undone_length_insert slots i v :
  slots !! i = Some (v, false) ->
  (length (undone (<[i := (v, true)]> slots)) + 1 = length (undone slots))%nat.
Proof.
  intros Hl. destruct (undone_split slots i v Hl) as (l1 & l2 & -> & ->).
  rewrite !length_app. simpl. lia.
Qed.

Lemma fst_insert (slots : list (jsval * bool)) i v b :
  slots !! i = Some (v, b) ->
  map fst (<[i := (v, true)]> slots) = map fst slots.
Proof.
  revert i. induction slots as [|[w c] slots IH]; intros i Hl; [reflexivity|].
  destruct i as [|i]; simpl.
  - now injection Hl as -> _.
  - f_equal. now apply IH.
Qed.

(** All deletes have completed, or one is still in flight. *)
Lemma undone_nil slots :
  undone slots = [] -> tasks_of slots = map (fun _ : jsval * bool => Ret JUndefined) slots.
Proof.
  induction slots as [|[v []] slots IH]; simpl; intros E;
    [reflexivity | now rewrite <- IH | discriminate].
Qed.

Lemma undone_cons slots v l :
  undone slots = v :: l ->
  exists i, slots !! i = Some (v, false).
Proof.
  induction slots as [|[w []] slots IH]; simpl; intros E; [discriminate| |].
  - destruct (IH E) as [i Hi]. now exists (S i).
  - injection E as -> _. now exists 0%nat.
Qed.

Lemma tasks_of_not_rejected slots i e : tasks_of slots !! i <> Some (Throw e).
Proof.
  unfold tasks_of. rewrite list_lookup_fmap.
  destruct (slots !! i) as [[v []]|]; simpl; discriminate.
Qed.

End Slots.

Lemma forallb_take {A} (P : A -> bool) n l :
  forallb P l = true -> forallb P (take n l) = true.
Proof.
  revert n. induction l as [|x l IH]; intros [|n] F; try reflexivity.
  simpl in *. apply andb_true_iff in F as [-> F]. now apply IH.
Qed.

Lemma forallb_drop {A} (P : A -> bool) n l :
  forallb P l = true -> forallb P (drop n l) = true.
Proof.
  revert n. induction l as [|x l IH]; intros [|n] F; try reflexivity; [exact F|].
  simpl in *. apply andb_true_iff in F as [_ F]. now apply IH.
Qed.

Lemma deletes_app l l' : deletes (l ++ l') = deletes l ++ deletes l'.
Proof. apply filter_app. Qed.

Lemma gets_app l l' : gets (l ++ l') = gets l ++ gets l'.
Proof. apply filter_app. Qed.


Section DeleteAllRun.
Context `{Runtime} (this : Client) (retries : nat).
Context {Srv : Type} (serve : Srv -> Request -> FetchOutcome * Srv).
Context (endpoint : string) (q0 : object) (L : nat).
Context (stock : Srv -> list jsval) (stock0 : list jsval).

Hypothesis L_pos : (1 <= L)%nat.

(** A GET of the query answers with the first [L] items left and changes
    nothing. *)
Hypothesis served_get : forall s,
  stock s `sublist_of` stock0 ->
  exists r m,
    serve s (page_get this endpoint q0 L) = (Responded r, s) /\
    envelope_of r = Some (JArr (take L (stock s)), m).

(** A DELETE of an item that is left answers 2xx and removes the item. *)
Hypothesis served_delete : forall s i v,
  stock s `sublist_of` stock0 ->
  stock s !! i = Some v ->
  exists r s',
    serve s (item_request this endpoint v) = (Responded r, s') /\
    ok r = true /\ stock s' = base.delete i (stock s).

Hypothesis items_deletable : forallb deletable stock0 = true.

#[local] Abbreviation M := (length stock0).
#[local] Abbreviation R := (rounds (length stock0) L).

Lemma deletes_items items :
  deletes (map (item_request this endpoint) items) =
  map (item_request this endpoint) items.
Proof.
  induction items as [|v items IH]; [reflexivity|].
  simpl. unfold deletes in *. rewrite filter_cons_True by reflexivity.
  now rewrite IH.
Qed.

Lemma gets_items items : gets (map (item_request this endpoint) items) = [].
Proof.
  induction items as [|v items IH]; [reflexivity|].
  simpl. unfold gets in *. rewrite filter_cons_False by (simpl; congruence).
  exact IH.
Qed.

(** Where a run of [deleteAll] stands: awaiting page [r + 1] of the query,
    [j] items having been deleted; awaiting the deletes of that page; or
    done.  [f] is the fuel the loop has left. *)
Inductive phase : Type :=
| Fetching (r j f : nat)
| Deleting (r j f : nat) (slots : list (jsval * bool))
| Finished.

Definition position (r j : nat) : Prop :=
  (j = r * L /\ j < M)%nat \/ (j = M /\ r = R).

Definition DA (ph : phase) (c : Config Srv) : Prop :=
  queries (store c) = (limited q0 L) /\
  stock (server c) `sublist_of` stock0 /\
  match ph with
  | Fetching r j f =>
      position r j /\ (R + 1 <= f + r)%nat /\
      stock (server c) = drop j stock0 /\
      deletes (issued c) = map (item_request this endpoint) (take j stock0) /\
      gets (issued c) = repeat (page_get this endpoint q0 L) (r + 1) /\
      exists old,
        idle old /\ pool c = old ++ [(page_task this retries endpoint q0 L)] /\
        main c = Await (JPromise (length old))
                   (next_page this retries endpoint f)
  | Deleting r j f slots =>
      (j = r * L /\ j < M)%nat /\ (R <= f + r)%nat /\
      map fst slots = take L (drop j stock0) /\
      undone slots <> [] /\
      stock (server c) = undone slots ++ drop (j + L) stock0 /\
      deletes (issued c) =
        map (item_request this endpoint) (take (j + L) stock0) /\
      gets (issued c) = repeat (page_get this endpoint q0 L) (r + 1) /\
      exists old,
        idle old /\ pool c = old ++ tasks_of this retries endpoint slots /\
        main c = AwaitAll (map JPromise (seq (length old) (length slots)))
                   (after_deletes this retries endpoint f)
  | Finished =>
      idle (pool c) /\ main c = Done JUndefined /\ stock (server c) = [] /\
      deletes (issued c) = map (item_request this endpoint) stock0 /\
      gets (issued c) = repeat (page_get this endpoint q0 L) (R + 1)
  end.

(** The number of fetches yet to complete. *)
Definition todo (ph : phase) : nat :=
  match ph with
  | Fetching r j f => 1 + (M - j) + (R - r)
  | Deleting r j f slots =>
      length (undone slots) + 1 + (M - (j + length slots)) + (R - (r + 1))
  | Finished => 0
  end.

Lemma position_rounds r j : position r j -> (r <= R)%nat.
Proof.
  intros [[-> Hj]|[_ ->]]; [|lia].
  pose proof (rounds_more M L r L_pos Hj). lia.
Qed.

Lemma peek_app_r (old pl : list Task) i :
  peek (old ++ pl) (JPromise (length old + i)) = peek pl (JPromise i).
Proof.
  simpl. rewrite lookup_app_r by lia.
  now replace (length old + i - length old)%nat with i by lia.
Qed.

Lemma awaited_batch (old : list Task) k p :
  p ∈ map JPromise (seq (length old) k) ->
  exists i, p = JPromise (length old + i) /\ (i < k)%nat.
Proof.
  intros Hp. apply list_elem_of_fmap in Hp as (h & -> & Hh).
  apply elem_of_seq in Hh. exists (h - length old)%nat.
  split; [f_equal|]; lia.
Qed.

(** The orchestrator looks at the deletes it awaits. *)
Lemma poll_deletes slots old f (s : Srv) st log :
  undone slots <> [] ->
  run_main (AwaitAll (map JPromise (seq (length old) (length slots)))
              (after_deletes this retries endpoint f))
    s st (old ++ tasks_of this retries endpoint slots) log =
  mkConfig s st (old ++ tasks_of this retries endpoint slots) log
    (AwaitAll (map JPromise (seq (length old) (length slots)))
       (after_deletes this retries endpoint f)).
Proof.
  intros Hu. rewrite run_main_AwaitAll.
  rewrite first_rejected_none.
  2:{ intros p e Hp. apply awaited_batch in Hp as (i & -> & Hi).
      rewrite peek_app_r. simpl.
      destruct (tasks_of this retries endpoint slots !! i) as [[]|] eqn:E;
        try discriminate.
      now apply tasks_of_not_rejected in E. }
  destruct (undone slots) as [|v l] eqn:E; [congruence|].
  apply undone_cons in E as [i Hi].
  rewrite (all_fulfilled_none _ _ (JPromise (length old + i))); [reflexivity| |].
  - apply list_elem_of_fmap. exists (length old + i)%nat.
    split; [reflexivity|]. apply elem_of_seq.
    apply lookup_lt_Some in Hi. lia.
  - intros w. rewrite peek_app_r. simpl. unfold tasks_of.
    rewrite list_lookup_fmap, Hi. discriminate.
Qed.

Lemma all_done slots old :
  undone slots = [] ->
  all_fulfilled (old ++ tasks_of this retries endpoint slots)
    (map JPromise (seq (length old) (length slots))) =
  Some (map (fun _ => JUndefined) (map JPromise (seq (length old) (length slots)))) /\
  first_rejected (old ++ tasks_of this retries endpoint slots)
    (map JPromise (seq (length old) (length slots))) = None /\
  idle (tasks_of this retries endpoint slots).
Proof.
  intros Hu. rewrite (undone_nil _ _ _ _ Hu). repeat split.
  - apply all_fulfilled_some. intros p Hp.
    apply awaited_batch in Hp as (i & -> & Hi).
    rewrite peek_app_r. simpl. rewrite list_lookup_fmap.
    destruct (slots !! i) eqn:E; [reflexivity|].
    apply lookup_ge_None in E. lia.
  - apply first_rejected_none. intros p e Hp.
    apply awaited_batch in Hp as (i & -> & Hi).
    rewrite peek_app_r. simpl. rewrite list_lookup_fmap.
    destruct (slots !! i); discriminate.
  - intros h t. rewrite list_lookup_fmap.
    destruct (slots !! h); simpl; [now intros [= <-] | discriminate].
Qed.


Lemma take_page j :
  take (j + L) stock0 = take j stock0 ++ take L (drop j stock0).
Proof. now rewrite take_take_drop. Qed.

Lemma drop_page j :
  drop j stock0 = take L (drop j stock0) ++ drop (j + L) stock0.
Proof. now rewrite <- drop_drop, take_drop. Qed.

Lemma repeat_snoc {A} (x : A) n : repeat x n ++ [x] = repeat x (n + 1).
Proof.
  replace (n + 1)%nat with (S n) by lia. simpl. now rewrite repeat_cons.
Qed.

Lemma flying_tasks_of slots :
  filter (fun t => in_flight t = true) (tasks_of this retries endpoint slots) =
  map (item_delete this retries endpoint) (undone slots).
Proof.
  induction slots as [|[v []] slots IH]; simpl; [reflexivity| |].
  - rewrite filter_cons_False by (simpl; congruence). exact IH.
  - rewrite filter_cons_True by reflexivity. now rewrite IH.
Qed.

Lemma undone_length slots : (length (undone slots) <= length slots)%nat.
Proof. induction slots as [|[v []] slots IH]; simpl; lia. Qed.

(** The fetch of a page completes. *)
Lemma step_fetching r j f h c c' :
  DA (Fetching r j f) c ->
  deliver serve h c = Some c' ->
  exists ph',
    DA ph' c' /\ (todo ph' + 1 = todo (Fetching r j f))%nat /\
    flying c' =
      map (item_delete this retries endpoint) (take L (stock (server c))).
Proof.
  intros (Hq & Hnd & Hpos & Hf & Hst & Hdel & Hget & old & Hidle & Hpool & Hmain) Hd.
  apply deliver_inv in Hd as (rq & k & Hl & ->).
  rewrite Hpool in Hl.
  apply idle_lookup in Hl as [Hh Hl]; [|exact Hidle].
  apply list_lookup_singleton_Some in Hl as [Hh' Hl].
  assert (h = length old) as -> by lia. clear Hh Hh'.
  injection Hl as <- <-.
  destruct (served_get (server c) Hnd) as (resp & m & Hs & He).
  rewrite Hs. cbn [fst snd].
  erewrite run_get_await_page by exact He. cbn [fst snd].
  simpl sent. rewrite app_nil_r, Hpool, Hmain.
  rewrite insert_app_r_alt by lia. rewrite Nat.sub_diag. simpl insert.
  pose proof (position_rounds r j Hpos) as Hr.
  destruct f as [|f]; [lia|].
  erewrite run_main_Await_fulfilled by (now apply list_lookup_middle).
  cbn [next_page]. rewrite deleteAll_loop_unfold. simpl GetProp.
  rewrite Hst.
  destruct (take L (drop j stock0)) as [|v items] eqn:Hitems.
  - (* the page is empty: the loop ends *)
    simpl.
    assert (Hj : (M <= j)%nat).
    { destruct (decide (j < M)%nat) as [Hlt|]; [|lia]. exfalso.
      apply (f_equal length) in Hitems.
      rewrite length_take, length_drop in Hitems. simpl in Hitems. lia. }
    destruct Hpos as [[_ Hlt]|[-> ->]]; [lia|].
    exists Finished. split; [|split; [simpl; lia|]].
    2:{ unfold flying. cbn [pool]. apply idle_flying.
        apply idle_app; [exact Hidle | now apply idle_singleton]. }
    split; [exact Hq|]. split; [exact Hnd|]. simpl.
    split; [|split; [reflexivity|split; [|split]]].
    + apply idle_app; [exact Hidle | now apply idle_singleton].
    + rewrite Hst. now apply drop_all.
    + now rewrite Hdel, firstn_all.
    + exact Hget.
  - (* the page has items: one delete each, all awaited *)
    assert (Hj : (j < M)%nat).
    { destruct (decide (j < M)%nat) as [Hlt|Hge]; [exact Hlt|]. exfalso.
      rewrite drop_ge, take_nil in Hitems by lia. discriminate. }
    destruct Hpos as [[-> _]|[-> _]]; [|lia].
    pose proof (rounds_more M L r L_pos Hj) as Hmore.
    assert (Hdeletable : forallb deletable (v :: items) = true).
    { rewrite <- Hitems. now apply forallb_take, forallb_drop. }
    replace (ToBoolean (JNum (Z.of_nat (length (v :: items))))) with true
      by reflexivity.
    cbv iota.
    rewrite (run_delete_each this retries endpoint (v :: items)) by exact Hdeletable.
    rewrite app_nil_l.
    rewrite <- (tasks_of_fresh this retries endpoint (v :: items)).
    replace (length (v :: items)) with (length (fresh (v :: items)))
      by (unfold fresh; now rewrite length_map).
    rewrite poll_deletes by (rewrite undone_fresh; discriminate).
    exists (Deleting r (r * L) f (fresh (v :: items))). split; [|split].
    3:{ unfold flying. cbn [pool].
        rewrite filter_app, flying_tasks_of, undone_fresh.
        rewrite (idle_flying (old ++ [Ret (JArr (v :: items))]));
          [now rewrite tasks_of_fresh|].
        apply idle_app; [exact Hidle | now apply idle_singleton]. }
    + split; [exact Hq|]. split; [exact Hnd|].
      cbn [server issued pool main].
      split; [split; [reflexivity | exact Hj]|].
      split; [lia|].
      split; [now rewrite fst_fresh, Hitems|].
      split; [rewrite undone_fresh; discriminate|].
      split; [rewrite undone_fresh, Hst, <- Hitems; apply drop_page|].
      split; [rewrite deletes_app, deletes_items, Hdel, take_page, map_app, Hitems;
              reflexivity|].
      split; [rewrite gets_app, gets_items, app_nil_r; exact Hget|].
      exists (old ++ [Ret (JArr (v :: items))]). split; [|split; reflexivity].
      apply idle_app; [exact Hidle | now apply idle_singleton].
    + unfold todo. rewrite undone_fresh.
      unfold fresh. rewrite length_map.
      assert (length (v :: items) = Nat.min L (M - r * L)) as ->.
      { rewrite <- Hitems. now rewrite length_take, length_drop. }
      lia.
Qed.


Lemma run_delete_await_ok endpoint' qr response st :
  ok response = true ->
  run_task (delete_await this retries endpoint' qr (Responded response)) st =
  (st, Ret JUndefined).
Proof. intros E. simpl. now rewrite E. Qed.

(** The delete of an item completes. *)
Lemma step_deleting r j f slots h c c' :
  DA (Deleting r j f slots) c ->
  deliver serve h c = Some c' ->
  exists ph', DA ph' c' /\ (todo ph' + 1 = todo (Deleting r j f slots))%nat.
Proof.
  intros (Hq & Hnd & Hpos & Hf & Hfst & Hun & Hst & Hdel & Hget & old & Hidle
          & Hpool & Hmain) Hd.
  apply deliver_inv in Hd as (rq & k & Hl & ->).
  rewrite Hpool in Hl.
  apply idle_lookup in Hl as [Hh Hl]; [|exact Hidle].
  apply tasks_of_lookup in Hl as (v & Hslot & -> & ->).
  destruct (undone_split slots _ v Hslot) as (l1 & l2 & Hu1 & Hu2).
  assert (Hstock0 : stock (server c) = l1 ++ v :: (l2 ++ drop (j + L) stock0)).
  { now rewrite Hst, Hu1, <- app_assoc. }
  destruct (served_delete (server c) (length l1) v Hnd)
    as (resp & s' & Hs & Hok & Hst').
  { rewrite Hstock0. now apply list_lookup_middle. }
  rewrite Hstock0, delete_middle in Hst'.
  rewrite Hs. cbn [fst snd].
  rewrite run_delete_await_ok by exact Hok. cbn [fst snd sent].
  rewrite app_nil_r, Hpool, Hmain.
  rewrite insert_app_r_alt by lia.
  rewrite (tasks_of_insert this retries endpoint slots _ v Hslot).
  set (slots' := <[(h - length old)%nat := (v, true)]> slots) in *.
  assert (Hlen : length slots' = length slots) by apply length_insert.
  assert (Hnd' : stock s' `sublist_of` stock0).
  { transitivity (stock (server c)); [|exact Hnd].
    rewrite Hst', Hstock0, <- (delete_middle l1 _ v). apply sublist_delete. }
  assert (Hstock : stock s' = undone slots' ++ drop (j + L) stock0).
  { now rewrite Hst', Hu2, app_assoc. }
  rewrite <- Hlen.
  destruct (undone slots') as [|w l] eqn:Hu'.
  - (* the last delete of the page: the next page is fetched *)
    destruct (all_done slots' old Hu') as (Hall & Hnone & Hidle').
    rewrite run_main_AwaitAll, Hnone, Hall.
    unfold after_deletes at 1. rewrite run_main_Call, run_get.
    cbn [fst snd sent deref]. rewrite Hq.
    fold (page_get this endpoint q0 L). fold (page_task this retries endpoint q0 L).
    erewrite run_main_Await_pending by (now apply list_lookup_middle).
    assert (Hsl : length slots = Nat.min L (M - j)).
    { rewrite <- (length_map fst), Hfst. now rewrite length_take, length_drop. }
    exists (Fetching (r + 1) (j + length slots) f). split.
    + split; [exact Hq|]. split; [exact Hnd'|]. cbn [server issued pool main].
      destruct Hpos as [-> Hj].
      split.
      { destruct (decide (r * L + L < M)%nat) as [Hlt|Hge].
        - left. split; lia.
        - right. split; [lia|]. symmetry. apply rounds_last; [exact L_pos | lia | lia]. }
      split; [lia|].
      split.
      { rewrite Hstock. simpl.
        destruct (decide (r * L + L <= M)%nat) as [Hle|Hgt].
        - now replace (r * L + length slots)%nat with (r * L + L)%nat by lia.
        - rewrite !drop_ge by lia. reflexivity. }
      split.
      { rewrite deletes_app, Hdel. simpl. rewrite app_nil_r.
        destruct (decide (r * L + L <= M)%nat) as [Hle|Hgt].
        - now replace (r * L + length slots)%nat with (r * L + L)%nat by lia.
        - rewrite !take_ge by lia. reflexivity. }
      split.
      { rewrite gets_app, Hget. simpl. apply repeat_snoc. }
      exists (old ++ tasks_of this retries endpoint slots').
      split; [now apply idle_app|]. split; reflexivity.
    + unfold todo. rewrite Hu1, length_app. simpl length.
      assert (length l1 + length l2 = 0)%nat.
      { apply (f_equal length) in Hu2. rewrite length_app in Hu2.
        simpl in Hu2. lia. }
      lia.
  - (* other deletes of the page are still in flight *)
    rewrite poll_deletes by (rewrite Hu'; discriminate).
    exists (Deleting r j f slots'). split.
    + split; [exact Hq|]. split; [exact Hnd'|]. cbn [server issued pool main].
      split; [exact Hpos|]. split; [exact Hf|].
      split; [unfold slots'; now rewrite (fst_insert _ _ _ _ Hslot)|].
      split; [rewrite Hu'; discriminate|].
      split; [now rewrite Hstock, Hu'|].
      split; [exact Hdel|]. split; [exact Hget|].
      exists old. split; [exact Hidle|]. split; reflexivity.
    + unfold todo. rewrite Hlen.
      pose proof (undone_length_insert slots _ v Hslot) as Hdec.
      fold slots' in Hdec. rewrite Hu' in Hdec. simpl in Hdec.
      rewrite Hu'. simpl length. lia.
Qed.


Lemma DA_step ph h c c' :
  DA ph c ->
  deliver serve h c = Some c' ->
  exists ph', DA ph' c' /\ (todo ph' + 1 = todo ph)%nat.
Proof.
  destruct ph as [r j f|r j f slots|].
  - intros Hda Hd.
    destruct (step_fetching r j f h c c' Hda Hd) as (ph' & Hda' & Ht & _).
    now exists ph'.
  - apply step_deleting.
  - intros (_ & _ & Hidle & _) Hd.
    rewrite deliver_not_flying in Hd; [discriminate | apply Hidle].
Qed.

(** When the fetch of a page completes, what is in flight is one delete per
    item of the page. *)
Lemma DA_page_arrives ph h k c c' :
  DA ph c ->
  pool c !! h = Some (Fetch (page_get this endpoint q0 L) k) ->
  deliver serve h c = Some c' ->
  flying c' =
    map (item_delete this retries endpoint) (take L (stock (server c))).
Proof.
  destruct ph as [r j f|r j f slots|]; intros Hda Hl Hd.
  - now destruct (step_fetching r j f h c c' Hda Hd) as (ph' & _ & _ & Hfl).
  - destruct Hda as (_ & _ & _ & _ & _ & _ & _ & _ & _ & old & Hidle & Hpool & _).
    rewrite Hpool in Hl. apply idle_lookup in Hl as [_ Hl]; [|exact Hidle].
    apply tasks_of_lookup in Hl as (v & _ & Hrq & _). discriminate.
  - destruct Hda as (_ & _ & Hidle & _). now apply Hidle in Hl.
Qed.

Lemma DA_run order : forall ph c c',
  DA ph c ->
  run serve order c = Some c' ->
  exists ph', DA ph' c' /\ (todo ph' + length order = todo ph)%nat.
Proof.
  induction order as [|h order IH]; intros ph c c' Hda Hrun.
  - injection Hrun as <-. exists ph. split; [exact Hda | simpl; lia].
  - simpl in Hrun. destruct (deliver serve h c) as [c1|] eqn:Hd; [|discriminate].
    destruct (DA_step ph h c c1 Hda Hd) as (ph1 & Hda1 & Ht1).
    destruct (IH ph1 c1 c' Hda1 Hrun) as (ph' & Hda' & Ht').
    exists ph'. split; [exact Hda' | simpl; lia].
Qed.

(** What is in flight in each phase. *)
Lemma DA_flying ph c :
  DA ph c ->
  (flying c = [] <-> todo ph = 0%nat) /\
  (length (flying c) <= L)%nat /\
  (todo ph <> 0%nat -> outcome (main c) = Pending).
Proof.
  destruct ph as [r j f|r j f slots|]; unfold flying.
  - intros (_ & _ & _ & _ & _ & _ & _ & old & Hidle & -> & ->).
    rewrite filter_app, (idle_flying old Hidle).
    rewrite filter_cons_True by reflexivity. simpl.
    split; [split; [discriminate | lia] | split; [lia | reflexivity]].
  - intros (_ & _ & _ & _ & Hfst & Hun & _ & _ & _ & old & Hidle & -> & ->).
    rewrite filter_app, (idle_flying old Hidle), flying_tasks_of. simpl.
    split; [|split; [|reflexivity]].
    + split; [|lia]. destruct (undone slots); [congruence | discriminate].
    + rewrite length_map. pose proof (undone_length slots) as Hle.
      apply (f_equal length) in Hfst. rewrite length_map, length_take in Hfst. lia.
  - intros (_ & _ & Hidle & -> & _). rewrite (idle_flying _ Hidle). simpl.
    split; [tauto | split; [lia | congruence]].
Qed.

Lemma DA_start fuel (s0 : Srv) st0 :
  queries st0 = q0 ->
  stock s0 = stock0 ->
  (R <= fuel)%nat ->
  DA (Fetching 0 0 (S fuel))
    (start (deleteAll this retries fuel endpoint (JNum (Z.of_nat L))) s0 st0).
Proof.
  intros Hq Hs Hf. unfold start, deleteAll.
  rewrite run_main_WriteQuery, run_main_Call, run_get.
  cbn [fst snd sent deref queries app length]. rewrite Hq.
  fold (limited q0 L). fold (page_get this endpoint q0 L). fold (page_task this retries endpoint q0 L).
  erewrite run_main_Await_pending by reflexivity.
  split; [reflexivity|]. cbn [server issued pool main].
  split; [now rewrite Hs|].
  split.
  { destruct (Nat.eq_dec (length stock0) 0%nat) as [E|E].
    - right. split; [lia|]. rewrite E. now rewrite rounds_zero.
    - left. simpl. split; lia. }
  split; [lia|]. split; [now rewrite drop_0|].
  split; [reflexivity|]. split; [reflexivity|].
  exists []. split; [|split; reflexivity].
  intros h t Hl. now rewrite lookup_nil in Hl.
Qed.

End DeleteAllRun.


Section BulkDeleteClaims.
Context `{Runtime} (this : Client) (retries : nat).
Context {Srv : Type} (serve : Srv -> Request -> FetchOutcome * Srv).

(** C2.  Against a server that answers a GET of the query with the first
    [L] items left and that removes an item when its DELETE arrives,
    [deleteAll] with limit [L] on [M] items, each with an [id] that can be
    read and converted to a string, in whatever order the deletes of a page
    complete: keeps [limit] set to [L] in the query; when the
    fetch of a page completes has one delete per item of the page in flight,
    all at once, each addressed by the item's id; has at most [L] requests
    in flight; needs exactly M + ceil(M/L) + 1 fetch completions and returns
    at the last of them, not before; and by then has sent one DELETE per
    item, in the order of the items, and ceil(M/L) + 1 GETs of the query,
    one per page of items and the one that came back empty, and the server
    has no item left. *)
Theorem deleteAll_rounds fuel endpoint (L : nat) (stock : Srv -> list jsval)
    (s0 : Srv) st0 order c :
  (1 <= L)%nat ->
  (forall s,
     stock s `sublist_of` stock s0 ->
     exists r m,
       serve s (page_get this endpoint (queries st0) L) = (Responded r, s) /\
       envelope_of r = Some (JArr (take L (stock s)), m)) ->
  (forall s i v,
     stock s `sublist_of` stock s0 ->
     stock s !! i = Some v ->
     exists r s',
       serve s (item_request this endpoint v) = (Responded r, s') /\
       ok r = true /\ stock s' = base.delete i (stock s)) ->
  forallb deletable (stock s0) = true ->
  (rounds (length (stock s0)) L <= fuel)%nat ->
  run serve order
    (start (deleteAll this retries fuel endpoint (JNum (Z.of_nat L))) s0 st0) =
    Some c ->
  queries (store c) = limited (queries st0) L /\
  (forall h k c',
     pool c !! h = Some (Fetch (page_get this endpoint (queries st0) L) k) ->
     deliver serve h c = Some c' ->
     flying c' =
       map (item_delete this retries endpoint) (take L (stock (server c)))) /\
  (length (flying c) <= L)%nat /\
  (length order <= length (stock s0) + rounds (length (stock s0)) L + 1)%nat /\
  (flying c = [] <->
   length order = (length (stock s0) + rounds (length (stock s0)) L + 1)%nat) /\
  (flying c <> [] -> outcome (main c) = Pending) /\
  (flying c = [] ->
   main c = Done JUndefined /\
   stock (server c) = [] /\
   deletes (issued c) = map (item_request this endpoint) (stock s0) /\
   gets (issued c) =
     repeat (page_get this endpoint (queries st0) L)
       (rounds (length (stock s0)) L + 1)).
Proof.
  intros HL Hget Hdel Hids Hf Hrun.
  pose proof (DA_start this retries endpoint (queries st0) L stock (stock s0)
                HL fuel s0 st0 eq_refl eq_refl Hf) as Hda0.
  destruct (DA_run this retries serve endpoint (queries st0) L stock (stock s0)
              HL Hget Hdel Hids order _ _ _ Hda0 Hrun) as (ph & Hda & Htodo).
  destruct (DA_flying this retries endpoint (queries st0) L stock (stock s0)
              HL ph c Hda) as (Hfly & Hlen & Hpend).
  simpl in Htodo.
  split; [apply Hda|].
  split.
  { intros h k c' Hl Hd.
    exact (DA_page_arrives this retries serve endpoint (queries st0) L stock
             (stock s0) HL Hget Hids ph h k c c' Hda Hl Hd). }
  split; [exact Hlen|]. split; [lia|].
  split; [rewrite Hfly; lia|]. split.
  - intros Hne. apply Hpend. intros Hz. now apply Hne, Hfly.
  - intros He. apply Hfly in He. destruct ph; simpl in He; try lia.
    destruct Hda as (_ & _ & _ & Hm & Hs & Hd & Hg). now repeat split.
Qed.

End BulkDeleteClaims.

(** ** Transport failures of the executors *)

Section RetryFacts.
Context `{Runtime} (this : Client).

Lemma map_requeried (f : string -> Request) k i endpoint q :
  map (fun j => f (requeried j endpoint q)) (seq (S i) k) =
  map (fun j => f (requeried j (with_query endpoint q) q)) (seq i k).
Proof. rewrite <- seq_shift, map_map. reflexivity. Qed.

(** [k] transport failures of [get], then a response. *)
Lemma feed_get_retries k : forall retries endpoint qr st log response,
  (k <= retries)%nat ->
  exists m,
    feed (repeat Thrown k ++ [Responded response]) st
      (Fetch (get_request this (with_query endpoint (deref qr st)))
         (get_await this retries (with_query endpoint (deref qr st)) qr)) log =
    ({| meta := m; queries := queries st |}, as_task (received response),
     log ++ map (fun i => get_request this (requeried i endpoint (deref qr st)))
              (seq 2 k)) /\
    run_task (get_await this retries endpoint qr (Responded response)) st =
    ({| meta := m; queries := queries st |}, as_task (received response)).
Proof.
  induction k as [|k IH]; intros retries endpoint qr st log response Hk.
  - destruct (run_get_await this retries endpoint qr response st) as [m Hr].
    exists m. split; [|exact Hr].
    simpl repeat. simpl app. cbn [feed].
    change (run_task (get_await this retries (with_query endpoint (deref qr st)) qr
                        (Responded response)) st)
      with (run_task (get_await this retries endpoint qr (Responded response)) st).
    rewrite Hr. now rewrite sent_as_task, !app_nil_r.
  - destruct retries as [|retries]; [lia|].
    simpl repeat. rewrite <- app_comm_cons. cbn [feed get_await].
    rewrite run_get. cbn [sent].
    destruct (IH retries (with_query endpoint (deref qr st)) qr st
                (log ++ [get_request this
                           (with_query (with_query endpoint (deref qr st))
                              (deref qr st))])
                response ltac:(lia)) as (m & Hf & Hr).
    exists m. split; [|exact Hr].
    rewrite Hf. rewrite <- app_assoc. simpl.
    now rewrite (map_requeried (get_request this) k 2).
Qed.

Lemma feed_get_failures k : forall retries endpoint qr st log,
  (k <= retries)%nat ->
  feed (repeat Thrown k) st
    (Fetch (get_request this (with_query endpoint (deref qr st)))
       (get_await this retries (with_query endpoint (deref qr st)) qr)) log =
  (st,
   Fetch (get_request this (requeried (S k) endpoint (deref qr st)))
     (get_await this (retries - k) (requeried (S k) endpoint (deref qr st)) qr),
   log ++ map (fun i => get_request this (requeried i endpoint (deref qr st)))
            (seq 2 k)).
Proof.
  induction k as [|k IH]; intros retries endpoint qr st log Hk.
  - simpl. now rewrite Nat.sub_0_r, app_nil_r.
  - destruct retries as [|retries]; [lia|].
    simpl repeat. cbn [feed get_await].
    rewrite run_get. cbn [sent].
    rewrite (IH retries (with_query endpoint (deref qr st)) qr st) by lia.
    rewrite <- app_assoc. simpl.
    now rewrite (map_requeried (get_request this) k 2).
Qed.

(** [await t] followed by a [throw]: the fetches of [t], then the error. *)
Lemma run_bind_throw t e st :
  run_task (bind t (fun _ => Throw e)) st =
  (fst (run_task t st), bind (snd (run_task t st)) (fun _ => Throw e)).
Proof.
  revert st. induction t as [v|e'| |rq k IH|m k IH|k IH]; intros st; simpl;
    try reflexivity.
  - apply IH.
  - apply IH.
Qed.

Lemma sent_bind_throw t e :
  sent (bind t (fun _ => Throw e)) = sent t.
Proof. now destruct t. Qed.

(** [run_task] stops at a settled or suspended executor. *)
Lemma run_task_stops t : forall st,
  match snd (run_task t st) with
  | SetMeta _ _ | GetQueries _ => False
  | _ => True
  end.
Proof.
  induction t as [v|e| |rq k _|m k IH|k IH]; intros st; simpl;
    try exact I; apply IH.
Qed.

Lemma feed_bind_throw outcomes e : forall st t log,
  match t with SetMeta _ _ | GetQueries _ => False | _ => True end ->
  feed outcomes st (bind t (fun _ => Throw e)) log =
  (fst (fst (feed outcomes st t log)),
   bind (snd (fst (feed outcomes st t log))) (fun _ => Throw e),
   snd (feed outcomes st t log)).
Proof.
  induction outcomes as [|o outcomes IH]; intros st t log Ht.
  - destruct t; reflexivity.
  - destruct t as [v|e'| |rq k|m k|k]; try reflexivity; try contradiction.
    cbn [bind feed]. rewrite run_bind_throw.
    pose proof (run_task_stops (k o) st) as Hs.
    destruct (run_task (k o) st) as [st' t'] eqn:Hr. cbn [fst snd] in *.
    rewrite sent_bind_throw. now apply IH.
Qed.

(** What [delete] settles with when a response arrives after [k] transport
    failures. *)
Definition delete_settles (k : nat) (response : Response) : Task :=
  match k with
  | O => delete_after_try (Some response)
  | S _ =>
      Throw (if ok response then TypeError
             else Error (status_message response))
  end.

Lemma feed_delete_retries k : forall retries endpoint qr st log response,
  (k <= retries)%nat ->
  feed (repeat Thrown k ++ [Responded response]) st
    (Fetch (delete_request this (with_query endpoint (deref qr st)))
       (delete_await this retries (with_query endpoint (deref qr st)) qr)) log =
  (st, delete_settles k response,
   log ++ map (fun i => delete_request this (requeried i endpoint (deref qr st)))
            (seq 2 k)).
Proof.
  induction k as [|k IH]; intros retries endpoint qr st log response Hk.
  - simpl. unfold delete_after_try.
    destruct (ok response); simpl; now rewrite !app_nil_r.
  - destruct retries as [|retries]; [lia|].
    simpl repeat. rewrite <- app_comm_cons. cbn [feed delete_await].
    change (fun _ : jsval => delete_after_try None)
      with (fun _ : jsval => Throw TypeError).
    rewrite run_bind_throw, run_delete. cbn [fst snd bind sent].
    pose proof (feed_bind_throw (repeat Thrown k ++ [Responded response]) TypeError st
      (Fetch (delete_request this
                (with_query (with_query endpoint (deref qr st)) (deref qr st)))
         (delete_await this retries
            (with_query (with_query endpoint (deref qr st)) (deref qr st)) qr))
      (log ++ [delete_request this
                 (with_query (with_query endpoint (deref qr st)) (deref qr st))]))
      as Hb.
    cbn [bind] in Hb. rewrite Hb by exact I.
    rewrite (IH retries (with_query endpoint (deref qr st)) qr st) by lia.
    cbn [fst snd]. rewrite <- app_assoc. simpl app.
    rewrite (map_requeried (delete_request this) k 2).
    f_equal. f_equal.
    destruct k; simpl; [|reflexivity].
    unfold delete_after_try. now destruct (ok response).
Qed.

Lemma length_requeried n : forall endpoint q,
  String.length (requeried n endpoint q) =
  (String.length endpoint
   + n * (1 + String.length (querystring_stringify q)))%nat.
Proof.
  induction n as [|n IH]; intros endpoint q; simpl; [lia|].
  rewrite IH. unfold with_query. rewrite !length_append. simpl. lia.
Qed.

(** What [post] and [put] do when their fetch ends is what [get] does. *)
Lemma run_body_await response st :
  exists m,
    run_task (if ok response then readResponse response
              else Throw (Error (status_message response))) st =
    ({| meta := m; queries := queries st |}, as_task (received response)).
Proof. exact (run_get_await this 0 EmptyString default_queries response st). Qed.

Lemma feed_post_retries k : forall retries endpoint body st log response,
  (k <= retries)%nat ->
  exists m,
    feed (repeat Thrown k ++ [Responded response]) st
      (post this retries endpoint body) log =
    ({| meta := m; queries := queries st |}, as_task (received response),
     log ++ repeat (post_request this endpoint body) k) /\
    run_task (if ok response then readResponse response
              else Throw (Error (status_message response))) st =
    ({| meta := m; queries := queries st |}, as_task (received response)).
Proof.
  induction k as [|k IH]; intros retries endpoint body st log response Hk.
  - destruct (run_body_await response st) as [m Hr].
    exists m. split; [|exact Hr].
    rewrite post_unfold. simpl repeat. simpl app. cbn [feed].
    rewrite Hr. now rewrite sent_as_task, !app_nil_r.
  - destruct retries as [|retries]; [lia|].
    destruct (IH retries endpoint body st
                (log ++ [post_request this endpoint body]) response ltac:(lia))
      as (m & Hf & Hr).
    exists m. split; [|exact Hr].
    rewrite post_unfold. simpl repeat. rewrite <- app_comm_cons. cbn [feed].
    rewrite post_unfold. cbn [run_task sent]. rewrite <- post_unfold.
    rewrite Hf. now rewrite <- app_assoc.
Qed.

Lemma feed_put_retries k : forall retries endpoint body st log response,
  (k <= retries)%nat ->
  exists m,
    feed (repeat Thrown k ++ [Responded response]) st
      (put this retries endpoint body) log =
    ({| meta := m; queries := queries st |}, as_task (received response),
     log ++ repeat (put_request this endpoint body) k) /\
    run_task (if ok response then readResponse response
              else Throw (Error (status_message response))) st =
    ({| meta := m; queries := queries st |}, as_task (received response)).
Proof.
  induction k as [|k IH]; intros retries endpoint body st log response Hk.
  - destruct (run_body_await response st) as [m Hr].
    exists m. split; [|exact Hr].
    rewrite put_unfold. simpl repeat. simpl app. cbn [feed].
    rewrite Hr. now rewrite sent_as_task, !app_nil_r.
  - destruct retries as [|retries]; [lia|].
    destruct (IH retries endpoint body st
                (log ++ [put_request this endpoint body]) response ltac:(lia))
      as (m & Hf & Hr).
    exists m. split; [|exact Hr].
    rewrite put_unfold. simpl repeat. rewrite <- app_comm_cons. cbn [feed].
    rewrite put_unfold. cbn [run_task sent]. rewrite <- put_unfold.
    rewrite Hf. now rewrite <- app_assoc.
Qed.

End RetryFacts.

(** ** Non-2xx responses, at once or after transport failures *)

Section FailurePolicy.
Context `{Runtime} (this : Client).

(** The outcomes that follow are consumed by the executor as it is after
    the first ones. *)
Lemma feed_last outcomes o more : forall st t log,
  feed (outcomes ++ o :: more) st t log =
  feed more (fst (fst (feed (outcomes ++ [o]) st t log)))
    (snd (fst (feed (outcomes ++ [o]) st t log)))
    (snd (feed (outcomes ++ [o]) st t log)).
Proof.
  induction outcomes as [|o' outcomes IH]; intros st t log.
  - destruct t as [v|e| |rq k|m k|k]; cbn [app feed fst snd];
      try (now destruct more).
    destruct (run_task (k o) st) as [st' t']. reflexivity.
  - destruct t as [v|e| |rq k|m k|k]; cbn [app feed fst snd];
      try (now destruct more).
    destruct (run_task (k o') st) as [st' t']. apply IH.
Qed.

(** C4.  A non-2xx response ends the call: [get] sends no other request
    (whatever the transport would answer next) and throws an error whose
    message is the status code, the status text and the raw body text, as in
    [404 - Not Found: not found].  [getAll] fails with the same error, and
    with no data: at once when the failing response is that of the first
    page; and when it is that of a later page [b], the other pages being
    fine, [getAll] never returns a value, in whatever order the fetches
    complete, and has thrown the error of page [b] as soon as the fetch of
    page [b] has completed.  The same holds of every executor and of every
    response it receives, the first one or one that follows [k] transport
    failures: [get], [delete], [post] and [put] throw the error of the
    status, and the request that was answered is the last they send,
    whatever the transport would answer next. *)
Theorem non_2xx_is_terminal :
  (forall retries endpoint qr st response more,
     ok response = false ->
     solo (get this retries endpoint qr) st (Responded response :: more) =
     (st,
      Throw (Error (Z_to_string (status response) +:+ " - "
                      +:+ statusText response +:+ ": " +:+ text response)),
      [get_request this (with_query endpoint (deref qr st))])) /\
  (forall (Srv : Type) (serve : Srv -> Request -> FetchOutcome * Srv)
          retries fuel endpoint (s0 s1 : Srv) st0 response order,
     ok response = false ->
     serve s0 (get_request this (with_query endpoint (queries st0))) =
       (Responded response, s1) ->
     exec serve (0%nat :: order)
       (start (getAll this retries fuel endpoint) s0 st0) =
     mkConfig s1 st0 [Throw (Error (status_message response))]
       [get_request this (with_query endpoint (queries st0))]
       (Fail (Error (status_message response)))) /\
  (forall (Srv : Type) (serve : Srv -> Request -> FetchOutcome * Srv)
          retries fuel endpoint (s0 s1 : Srv) st0 r1 d1 m N resp (b : nat) order,
     serve s0 (get_request this (with_query endpoint (queries st0))) =
       (Responded r1, s1) ->
     envelope_of r1 = Some (d1, m) ->
     total_pages m = Some (JNum N) ->
     (Z.to_nat (N - 1) <= fuel)%nat ->
     (forall s p, (2 <= p <= S (Z.to_nat (N - 1)))%nat ->
        fst (serve s (page_request this endpoint (queries st0) p)) =
        Responded (resp p)) ->
     (2 <= b <= S (Z.to_nat (N - 1)))%nat ->
     ok (resp b) = false ->
     (forall p, (2 <= p <= S (Z.to_nat (N - 1)))%nat -> p <> b ->
        exists v, received (resp p) = inr v) ->
     (forall v,
        outcome (main (exec serve (0%nat :: order)
                         (start (getAll this retries fuel endpoint) s0 st0)))
        <> Fulfilled v) /\
     ((b - 1)%nat ∈ order ->
      main (exec serve (0%nat :: order)
              (start (getAll this retries fuel endpoint) s0 st0)) =
      Fail (Error (status_message (resp b))))) /\
  (forall k retries endpoint qr st response more,
     (k <= retries)%nat ->
     ok response = false ->
     solo (get this retries endpoint qr) st
       (repeat Thrown k ++ Responded response :: more) =
       (st, Throw (Error (status_message response)),
        get_requests this k endpoint (deref qr st)) /\
     solo (delete this retries endpoint qr) st
       (repeat Thrown k ++ Responded response :: more) =
       (st, Throw (Error (status_message response)),
        delete_requests this k endpoint (deref qr st))) /\
  (forall k retries endpoint body st response more,
     (k <= retries)%nat ->
     ok response = false ->
     solo (post this retries endpoint body) st
       (repeat Thrown k ++ Responded response :: more) =
       (st, Throw (Error (status_message response)),
        repeat (post_request this endpoint body) (S k)) /\
     solo (put this retries endpoint body) st
       (repeat Thrown k ++ Responded response :: more) =
       (st, Throw (Error (status_message response)),
        repeat (put_request this endpoint body) (S k))).
Proof.
  split; [|split; [|split; [|split]]].
  - intros. now apply get_non_2xx.
  - intros. now apply getAll_first_page_fails.
  - intros Srv serve retries fuel endpoint s0 s1 st0 r1 d1 m N resp b order
      Hs He Ht Hf Hp Hb Hbad Hgood.
    destruct (getAll_run this retries serve fuel endpoint s0 s1 st0 r1 d1 m N
                resp order Hs He Ht Hf Hp) as (D & HD & _ & _ & Hm).
    assert (Hrb : received (resp b) = inl (Error (status_message (resp b)))).
    { unfold received. now rewrite Hbad. }
    assert (Herr : forall h e, h ∈ D -> received (resp (S h)) = inl e ->
                     e = Error (status_message (resp b))).
    { intros h e Hh Hr. apply HD in Hh as [_ Hh].
      destruct (decide (S h = b)) as [<-|Hne]; [congruence|].
      destruct (Hgood (S h) ltac:(lia) Hne) as [v Hv]. congruence. }
    split.
    + intros v.
      destruct Hm as [(_ & _ & ->)|[(Hne & Hc & _)|(h & e & _ & _ & ->)]];
        try discriminate.
      exfalso. unfold complete in Hc. rewrite Forall_forall in Hc.
      assert (Hin : (b - 1)%nat ∈ D) by (apply Hc, elem_of_seq; lia).
      destruct (Hne _ Hin) as [w Hw].
      replace (S (b - 1)) with b in Hw by lia. congruence.
    + intros Hin.
      assert (HinD : (b - 1)%nat ∈ D) by (apply HD; split; [exact Hin | lia]).
      destruct Hm as [(Hne & _)|[(Hne & _)|(h & e & Hh & Hr & ->)]].
      * destruct (Hne _ HinD) as [w Hw].
        replace (S (b - 1)) with b in Hw by lia. congruence.
      * destruct (Hne _ HinD) as [w Hw].
        replace (S (b - 1)) with b in Hw by lia. congruence.
      * now rewrite (Herr h e Hh Hr).
  - intros k retries endpoint qr st response more Hk Hbad. split.
    + unfold solo. rewrite run_get. cbn [sent].
      rewrite (feed_last (repeat Thrown k) (Responded response) more).
      destruct (feed_get_retries this k retries endpoint qr st
                  [get_request this (with_query endpoint (deref qr st))]
                  response Hk) as (m & -> & Hr).
      cbn [get_await] in Hr. rewrite Hbad in Hr. injection Hr as Hst.
      rewrite <- Hst. unfold received. rewrite Hbad. cbn [as_task].
      now rewrite feed_settled.
    + unfold solo. rewrite run_delete. cbn [sent].
      rewrite (feed_last (repeat Thrown k) (Responded response) more).
      rewrite feed_delete_retries by exact Hk.
      assert (delete_settles k response =
              Throw (Error (status_message response))) as ->.
      { unfold delete_settles, delete_after_try. rewrite Hbad. now destruct k. }
      now rewrite feed_settled.
  - intros k retries endpoint body st response more Hk Hbad. split.
    + unfold solo. rewrite post_unfold. cbn [run_task sent].
      rewrite <- post_unfold.
      rewrite (feed_last (repeat Thrown k) (Responded response) more).
      destruct (feed_post_retries this k retries endpoint body st
                  [post_request this endpoint body] response Hk)
        as (m & -> & Hr).
      rewrite Hbad in Hr. injection Hr as Hst.
      rewrite <- Hst. unfold received. rewrite Hbad. cbn [as_task].
      now rewrite feed_settled.
    + unfold solo. rewrite put_unfold. cbn [run_task sent].
      rewrite <- put_unfold.
      rewrite (feed_last (repeat Thrown k) (Responded response) more).
      destruct (feed_put_retries this k retries endpoint body st
                  [put_request this endpoint body] response Hk)
        as (m & -> & Hr).
      rewrite Hbad in Hr. injection Hr as Hst.
      rewrite <- Hst. unfold received. rewrite Hbad. cbn [as_task].
      now rewrite feed_settled.
Qed.


End FailurePolicy.

Section RetryProperties.
Context `{Runtime} (this : Client).

(** X4.  Once the transport has thrown, [delete] never fulfils.  When a
    response arrives after [k >= 1] transport failures, the call rejects:
    with the error of the status when the response is not 2xx, and with a
    [TypeError] when it is.  It has sent [k + 1] requests, each to the URL
    of the one before with the query string appended once more. *)
Theorem delete_rejects_once_retried k retries endpoint qr st response :
  (1 <= k <= retries)%nat ->
  solo (delete this retries endpoint qr) st
    (repeat Thrown k ++ [Responded response]) =
  (st,
   Throw (if ok response then TypeError else Error (status_message response)),
   delete_requests this k endpoint (deref qr st)).
Proof.
  intros Hk. unfold solo. rewrite run_delete. cbn [sent].
  rewrite feed_delete_retries by lia.
  destruct k as [|k]; [lia|]. reflexivity.
Qed.

(** X5.  The transport failures of [get] do not reach its caller: when a
    response arrives after [k] of them, [get] settles as it would have on
    that response at once, with the same effect on the session; and as long
    as the transport throws, [get] stays pending.  But the [k + 1] requests
    it has sent went to [k + 1] different URLs: the query string was
    appended once more for each. *)
Theorem get_retries_requery k retries endpoint qr st response :
  (k <= retries)%nat ->
  (exists st',
     solo (get this retries endpoint qr) st [Responded response] =
       (st', as_task (received response),
        [get_request this (with_query endpoint (deref qr st))]) /\
     solo (get this retries endpoint qr) st
       (repeat Thrown k ++ [Responded response]) =
       (st', as_task (received response),
        get_requests this k endpoint (deref qr st))) /\
  (exists t,
     solo (get this retries endpoint qr) st (repeat Thrown k) =
       (st, t, get_requests this k endpoint (deref qr st)) /\
     settled t = Pending) /\
  NoDup (map req_url (get_requests this k endpoint (deref qr st))).
Proof.
  intros Hk. split; [|split].
  - destruct (feed_get_retries this k retries endpoint qr st
                [get_request this (with_query endpoint (deref qr st))]
                response Hk) as (m & Hf & Hr).
    exists {| meta := m; queries := queries st |}. split.
    + unfold solo. rewrite run_get. cbn [sent feed].
      change (run_task (get_await this retries (with_query endpoint (deref qr st)) qr
                          (Responded response)) st)
        with (run_task (get_await this retries endpoint qr (Responded response)) st).
      rewrite Hr. now rewrite sent_as_task, app_nil_r.
    + unfold solo. rewrite run_get. cbn [sent]. exact Hf.
  - eexists. split.
    + unfold solo. rewrite run_get. cbn [sent].
      rewrite feed_get_failures by exact Hk. reflexivity.
    + reflexivity.
  - unfold get_requests. rewrite map_map. cbn [req_url get_request].
    apply NoDup_fmap_2; [|apply NoDup_seq].
    intros i j E. apply append_inj_l in E.
    apply (f_equal String.length) in E. rewrite !length_requeried in E.
    nia.
Qed.

(** X6.  [post] and [put] under transport failures: the very same request
    is sent again each time, and when a response arrives after [k] failures
    the call settles as it would have on that response at once. *)
Theorem post_put_retries_resend k retries endpoint body st response :
  (k <= retries)%nat ->
  (exists st',
     solo (post this retries endpoint body) st [Responded response] =
       (st', as_task (received response), [post_request this endpoint body]) /\
     solo (post this retries endpoint body) st
       (repeat Thrown k ++ [Responded response]) =
       (st', as_task (received response),
        repeat (post_request this endpoint body) (S k))) /\
  (exists st',
     solo (put this retries endpoint body) st [Responded response] =
       (st', as_task (received response), [put_request this endpoint body]) /\
     solo (put this retries endpoint body) st
       (repeat Thrown k ++ [Responded response]) =
       (st', as_task (received response),
        repeat (put_request this endpoint body) (S k))).
Proof.
  intros Hk. split.
  - destruct (feed_post_retries this k retries endpoint body st
                [post_request this endpoint body] response Hk) as (m & Hf & Hr).
    exists {| meta := m; queries := queries st |}. split.
    + unfold solo. rewrite post_unfold. cbn [run_task sent feed].
      rewrite Hr. now rewrite sent_as_task, app_nil_r.
    + unfold solo. rewrite post_unfold. cbn [run_task sent].
      rewrite <- post_unfold, Hf. reflexivity.
  - destruct (feed_put_retries this k retries endpoint body st
                [put_request this endpoint body] response Hk) as (m & Hf & Hr).
    exists {| meta := m; queries := queries st |}. split.
    + unfold solo. rewrite put_unfold. cbn [run_task sent feed].
      rewrite Hr. now rewrite sent_as_task, app_nil_r.
    + unfold solo. rewrite put_unfold. cbn [run_task sent].
      rewrite <- put_unfold, Hf. reflexivity.
Qed.

End RetryProperties.

(** ** The requests of a session *)

Lemma prefix_append (a b : string) : String.prefix a (a +:+ b) = true.
Proof.
  induction a as [|c a IH]; simpl; [now destruct b|].
  destruct (Ascii.ascii_dec c c); [exact IH | congruence].
Qed.

Section SessionRequests.
Context `{Runtime} (this : Client).

Lemma of_session_base m endpoint body :
  session_request this m body
    (mkRequest m (base this +:+ endpoint) (headers this) 15000 body) = true.
Proof.
  unfold session_request, of_session. cbn [req_url req_headers req_timeout
    req_method req_body].
  rewrite prefix_append, !bool_decide_eq_true_2 by reflexivity. reflexivity.
Qed.

Lemma sends_bind P t f :
  sends P t -> (forall v, sends P (f v)) -> sends P (bind t f).
Proof.
  intros Ht Hf. induction Ht; simpl; try constructor; auto.
Qed.

Lemma sends_weaken (P Q : Request -> bool) t :
  (forall rq, P rq = true -> Q rq = true) -> sends P t -> sends Q t.
Proof. intros HPQ Ht. induction Ht; constructor; auto. Qed.

Lemma sends_readResponse P response : sends P (readResponse response).
Proof.
  unfold readResponse.
  destruct (0 <? String.length (text response))%nat; [|constructor].
  destruct (JSON_parse (text response)) as [body|]; [|constructor].
  destruct (GetProp body "meta"); [constructor|]. constructor.
  destruct (GetProp body "data"); constructor.
Qed.

Lemma sends_read_queries P qr k :
  (forall q, sends P (k q)) -> sends P (read_queries qr k).
Proof. intros Hk. destruct qr; simpl; [constructor|]; auto. Qed.

Lemma sends_get retries : forall endpoint qr,
  sends (session_request this GET None) (get this retries endpoint qr).
Proof.
  induction retries as [|retries IH]; intros endpoint qr;
    apply sends_read_queries; intros q; constructor;
    try apply of_session_base;
    intros [|response]; try constructor; try apply IH;
    destruct (ok response); try constructor; apply sends_readResponse.
Qed.

Lemma sends_delete retries : forall endpoint qr,
  sends (session_request this DELETE None) (delete this retries endpoint qr).
Proof.
  induction retries as [|retries IH]; intros endpoint qr;
    apply sends_read_queries; intros q; constructor;
    try apply of_session_base;
    intros [|response]; try constructor;
    try (apply sends_bind; [apply IH | intros; constructor]);
    unfold delete_after_try; destruct (ok response); constructor.
Qed.

Lemma sends_post retries : forall endpoint body,
  sends (session_request this POST (JSON_stringify body))
    (post this retries endpoint body).
Proof.
  induction retries as [|retries IH]; intros endpoint body;
    constructor; try apply of_session_base;
    intros [|response]; try constructor; try apply IH;
    destruct (ok response); try constructor; apply sends_readResponse.
Qed.

Lemma sends_put retries : forall endpoint body,
  sends (session_request this PUT (JSON_stringify body))
    (put this retries endpoint body).
Proof.
  induction retries as [|retries IH]; intros endpoint body;
    constructor; try apply of_session_base;
    intros [|response]; try constructor; try apply IH;
    destruct (ok response); try constructor; apply sends_readResponse.
Qed.

(** Running an executor keeps it within [P], and what it has just sent
    satisfies [P]. *)
Lemma sends_run_task P t : forall st,
  sends P t ->
  sends P (snd (run_task t st)) /\
  Forall (fun rq => P rq = true) (sent (snd (run_task t st))).
Proof.
  intros st Ht. revert st.
  induction Ht as [v|e| |rq k Hrq Hk _|m k Hk IH|k Hk IH]; intros st; simpl.
  - split; constructor.
  - split; constructor.
  - split; constructor.
  - split; [now constructor | now repeat constructor].
  - apply IH.
  - apply IH.
Qed.

Lemma sends_feed P outcomes : forall st t log,
  sends P t -> Forall (fun rq => P rq = true) log ->
  Forall (fun rq => P rq = true) (snd (feed outcomes st t log)).
Proof.
  induction outcomes as [|o outcomes IH]; intros st t log Ht Hl; [exact Hl|].
  destruct Ht as [v|e| |rq k Hrq Hk|m k Hk|k Hk]; try exact Hl.
  cbn [feed].
  destruct (sends_run_task P (k o) st (Hk o)) as [Ht' Hs'].
  destruct (run_task (k o) st) as [st' t']. cbn [snd] in *.
  apply IH; [exact Ht'|]. apply Forall_app. now split.
Qed.

Lemma sends_solo P t st outcomes :
  sends P t -> Forall (fun rq => P rq = true) (snd (solo t st outcomes)).
Proof.
  intros Ht. unfold solo.
  destruct (sends_run_task P t st Ht) as [Ht' Hs'].
  destruct (run_task t st) as [st' t']. now apply sends_feed.
Qed.

Lemma calls_bindP P p f :
  calls P p -> (forall v, calls P (f v)) -> calls P (bindP p f).
Proof. intros Hp Hf. induction Hp; simpl; try constructor; auto. Qed.

Lemma calls__paginate retries fuel : forall endpoint accum current,
  calls (session_request this GET None)
    (_paginate this retries fuel endpoint accum current).
Proof.
  induction fuel as [|fuel IH]; intros endpoint accum current;
    constructor; intros m;
    destruct (GetProp m "pagination") as [|pg]; try constructor;
    destruct (GetProp pg "total_pages") as [|total]; try constructor;
    destruct (js_lt current total) as [e|[|]]; constructor;
    try apply sends_get; intros prom; try constructor; apply IH.
Qed.

Lemma calls_paginate retries fuel endpoint :
  calls (session_request this GET None) (paginate this retries fuel endpoint).
Proof.
  constructor; [apply sends_get|]. intros prom. constructor. intros first.
  apply calls__paginate.
Qed.

Lemma calls_getAll retries fuel endpoint :
  calls (session_request this GET None) (getAll this retries fuel endpoint).
Proof.
  apply calls_bindP; [apply calls_paginate|].
  intros [| | | | |items| |]; constructor. intros vs. constructor.
Qed.

Lemma session_GET_reads rq :
  session_request this GET None rq = true -> reads_or_deletes this rq = true.
Proof. unfold reads_or_deletes. now intros ->. Qed.

Lemma session_DELETE_deletes rq :
  session_request this DELETE None rq = true -> reads_or_deletes this rq = true.
Proof. unfold reads_or_deletes. intros ->. apply orb_true_r. Qed.

Lemma calls_delete_each retries endpoint items : forall proms k,
  (forall ps, calls (reads_or_deletes this) (k ps)) ->
  calls (reads_or_deletes this)
    (delete_each this retries endpoint items proms k).
Proof.
  induction items as [|item items IH]; intros proms k Hk; simpl; [apply Hk|].
  destruct (GetProp item "id") as [|id]; [constructor|].
  destruct (ToString id); constructor.
  - eapply sends_weaken; [apply session_DELETE_deletes | apply sends_delete].
  - intros prom. now apply IH.
Qed.

Lemma calls_deleteAll_loop retries fuel : forall endpoint items,
  calls (reads_or_deletes this) (deleteAll_loop this retries fuel endpoint items).
Proof.
  induction fuel as [|fuel IH]; intros endpoint items; simpl;
    destruct (GetProp items "length") as [|len]; try constructor;
    destruct (ToBoolean len); try constructor;
    destruct items; try constructor;
    apply calls_delete_each; intros ps; constructor; intros vs; constructor;
    try (eapply sends_weaken; [apply session_GET_reads | apply sends_get]);
    intros prom; constructor; intros items'; try constructor; apply IH.
Qed.

Lemma calls_deleteAll retries fuel endpoint limit :
  calls (reads_or_deletes this) (deleteAll this retries fuel endpoint limit).
Proof.
  constructor. constructor.
  - eapply sends_weaken; [apply session_GET_reads | apply sends_get].
  - intros prom. constructor. intros items. apply calls_deleteAll_loop.
Qed.

End SessionRequests.

Section SessionRuns.
Context {Srv : Type} (serve : Srv -> Request -> FetchOutcome * Srv).
Context (P : Request -> bool).

(** The promises and the orchestrator of a configuration stay within [P],
    and so did every request sent so far. *)
Definition within (c : Config Srv) : Prop :=
  Forall (sends P) (pool c) /\
  Forall (fun rq => P rq = true) (issued c) /\
  calls P (main c).

Lemma within_run_main p : forall (s : Srv) st pl log,
  calls P p -> Forall (sends P) pl -> Forall (fun rq => P rq = true) log ->
  within (run_main p s st pl log).
Proof.
  intros s st pl log Hp. revert s st pl log.
  induction Hp as [v|e| |t k Ht Hk IH|p k Hk IH|ps k Hk IH|k Hk IH|key v k Hk IH];
    intros s st pl log Hpl Hlog; simpl.
  - repeat split; [assumption.. | constructor].
  - repeat split; [assumption.. | constructor].
  - repeat split; [assumption.. | constructor].
  - destruct (sends_run_task P t st Ht) as [Ht' Hs'].
    destruct (run_task t st) as [st' t']. cbn [snd] in *.
    apply IH; apply Forall_app; split; auto.
  - destruct (peek pl p).
    + repeat split; [assumption.. | now constructor].
    + now apply IH.
    + repeat split; [assumption.. | constructor].
  - destruct (first_rejected pl ps).
    + repeat split; [assumption.. | constructor].
    + destruct (all_fulfilled pl ps).
      * now apply IH.
      * repeat split; [assumption.. | now constructor].
  - now apply IH.
  - now apply IH.
Qed.

Lemma within_deliver h c c' :
  within c -> deliver serve h c = Some c' -> within c'.
Proof.
  intros (Hpl & Hlog & Hm) Hd.
  apply deliver_inv in Hd as (rq & k & Hl & ->).
  assert (Hk : sends P (Fetch rq k)).
  { rewrite Forall_forall in Hpl. apply Hpl. eapply list_elem_of_lookup_2, Hl. }
  inversion Hk as [| | |rq' k' Hrq Hk'| |]; subst.
  destruct (sends_run_task P (k (fst (serve (server c) rq))) (store c) (Hk' _))
    as [Ht' Hs'].
  apply within_run_main; [exact Hm | | apply Forall_app; now split].
  now apply Forall_insert.
Qed.

Lemma within_exec order : forall c, within c -> within (exec serve order c).
Proof.
  induction order as [|h order IH]; intros c Hc; [exact Hc|].
  simpl. destruct (deliver serve h c) as [c'|] eqn:Hd; simpl.
  - eapply IH, within_deliver; eassumption.
  - now apply IH.
Qed.

Lemma within_start p (s : Srv) st : calls P p -> within (start p s st).
Proof. intros Hp. apply within_run_main; [exact Hp | constructor | constructor]. Qed.

Lemma issued_within p (s : Srv) st order :
  calls P p ->
  Forall (fun rq => P rq = true) (issued (exec serve order (start p s st))).
Proof. intros Hp. now apply within_exec, within_start. Qed.

End SessionRuns.

Section SessionProperties.
Context `{Runtime} (this : Client).

(** X7.  Whatever the outcomes of its fetches, and however often it
    re-issues its request, an executor only sends requests of the session:
    to a URL under the store's base URL, with the session's headers and the
    15 s timeout.  [get] only sends GETs and [delete] only DELETEs, without
    a body; [post] only sends POSTs and [put] only PUTs, whose body is the
    JSON text of the body given. *)
Theorem executors_send_session_requests retries endpoint st outcomes :
  (forall qr,
     Forall (fun rq => session_request this GET None rq = true)
       (snd (solo (get this retries endpoint qr) st outcomes))) /\
  (forall qr,
     Forall (fun rq => session_request this DELETE None rq = true)
       (snd (solo (delete this retries endpoint qr) st outcomes))) /\
  (forall body,
     Forall
       (fun rq => session_request this POST (JSON_stringify body) rq = true)
       (snd (solo (post this retries endpoint body) st outcomes))) /\
  (forall body,
     Forall
       (fun rq => session_request this PUT (JSON_stringify body) rq = true)
       (snd (solo (put this retries endpoint body) st outcomes))).
Proof.
  repeat split; intros; apply sends_solo.
  - apply sends_get.
  - apply sends_delete.
  - apply sends_post.
  - apply sends_put.
Qed.

(** X8.  Against any server, from any session and in whatever order the
    fetches complete, [paginate] and [getAll] only ever send GETs of the
    session without a body, and [deleteAll] only GETs and DELETEs of the
    session without a body. *)
Theorem orchestrators_send_session_requests {Srv : Type}
    (serve : Srv -> Request -> FetchOutcome * Srv) retries fuel endpoint
    (s : Srv) st order :
  Forall (fun rq => session_request this GET None rq = true)
    (issued (exec serve order
               (start (paginate this retries fuel endpoint) s st))) /\
  Forall (fun rq => session_request this GET None rq = true)
    (issued (exec serve order
               (start (getAll this retries fuel endpoint) s st))) /\
  (forall limit,
     Forall (fun rq => reads_or_deletes this rq = true)
       (issued (exec serve order
                  (start (deleteAll this retries fuel endpoint limit) s st)))).
Proof.
  split; [|split]; intros; apply issued_within.
  - apply calls_paginate.
  - apply calls_getAll.
  - apply calls_deleteAll.
Qed.

End SessionProperties.

(** ** Bodies that are not an envelope, and sessions without a page count *)

Lemma GetProp_error v k e : GetProp v k = inl e -> e = TypeError.
Proof. destruct v; simpl; congruence. Qed.

Section ConversionFacts.
Context `{Runtime}.

(** A conversion that throws throws a [TypeError]. *)
Lemma ToString_error : forall (v : jsval) (e : jserror),
  ToString v = inl e -> e = TypeError.
Proof.
  fix conversion 1. intros v e.
  destruct v as [| |b|n|s|l|o|h]; simpl; try discriminate.
  - destruct b; discriminate.
  - match goal with
    | |- match ?elements l with _ => _ end = _ -> _ =>
        assert (Hl : forall err, elements l = inl err -> err = TypeError)
    end.
    { induction l as [|x l IH]; intros err; [discriminate|].
      pose proof (conversion x) as Hx.
      destruct x; simpl in *;
        repeat match goal with
               | |- context [match ?t with _ => _ end] =>
                   let E := fresh "E" in destruct t eqn:E
               end; intros [= <-]; eauto. }
    match goal with
    | |- match ?elements l with _ => _ end = _ -> _ =>
        destruct (elements l) as [err|ss] eqn:E; [|discriminate]
    end.
    intros [= <-]. now apply Hl.
  - destruct (obj_has "toString" o); [now intros [= <-] | discriminate].
Qed.

Lemma ToNumber_error (v : jsval) (e : jserror) :
  ToNumber v = inl e -> e = TypeError.
Proof.
  destruct v; try discriminate; unfold ToNumber;
    match goal with
    | |- context [ToString ?v] => destruct (ToString v) eqn:E
    end; try discriminate; intros [= <-]; exact (ToString_error _ _ E).
Qed.

Lemma js_lt_error (current : Z) (total : jsval) (e : jserror) :
  js_lt current total = inl e -> e = TypeError.
Proof.
  unfold js_lt. destruct (ToNumber total) as [e'|[n|]] eqn:E; try discriminate.
  intros [= <-]. exact (ToNumber_error _ _ E).
Qed.

(** An item whose endpoint cannot be built: reading its [id] or converting
    it throws a [TypeError]. *)
Lemma not_deletable (v : jsval) :
  deletable v = false ->
  match GetProp v "id" with
  | inl e => e = TypeError
  | inr id => ToString id = inl TypeError
  end.
Proof.
  unfold deletable. destruct (GetProp v "id") as [e|id] eqn:E.
  - intros _. exact (GetProp_error _ _ _ E).
  - destruct (ToString id) as [e|] eqn:E'; [|discriminate].
    intros _. now rewrite (ToString_error _ _ E').
Qed.

End ConversionFacts.

Section PageCountFacts.
Context `{Runtime} (this : Client) (retries : nat).
Context {Srv : Type} (serve : Srv -> Request -> FetchOutcome * Srv).

(** The loop of [_paginate] on a session that holds no page count. *)
Lemma run_paginate_no_count fuel endpoint accum current (s : Srv) st pl log :
  total_pages (meta st) = None ->
  run_main (_paginate this retries fuel endpoint accum current) s st pl log =
  mkConfig s st pl log (Fail TypeError).
Proof.
  intros Ht. rewrite _paginate_unfold. simpl run_main.
  unfold total_pages in Ht.
  destruct (GetProp (meta st) "pagination") as [e|pg] eqn:E1.
  - now rewrite (GetProp_error _ _ _ E1).
  - destruct (GetProp pg "total_pages") as [e|t] eqn:E2; [|discriminate].
    now rewrite (GetProp_error _ _ _ E2).
Qed.

(** The loop of [_paginate] on a session whose page count converts to
    NaN. *)
Lemma run_paginate_nan fuel endpoint accum current (s : Srv) st pl log total :
  total_pages (meta st) = Some total ->
  ToNumber total = inr None ->
  run_main (_paginate this retries fuel endpoint accum current) s st pl log =
  mkConfig s
    {| meta := meta st;
       queries := obj_set "page" (JNum (current + 1)) (queries st) |}
    pl log (Done (JArr accum)).
Proof.
  intros Ht Hn. rewrite _paginate_unfold. simpl run_main.
  unfold total_pages in Ht.
  destruct (GetProp (meta st) "pagination") as [e|pg]; [discriminate|].
  destruct (GetProp pg "total_pages") as [e|t]; [discriminate|].
  injection Ht as ->. simpl run_main. unfold js_lt. now rewrite Hn.
Qed.

(** The loop of [_paginate] on a session whose page count cannot be
    converted to a number. *)
Lemma run_paginate_throws fuel endpoint accum current (s : Srv) st pl log total e :
  total_pages (meta st) = Some total ->
  ToNumber total = inl e ->
  run_main (_paginate this retries fuel endpoint accum current) s st pl log =
  mkConfig s
    {| meta := meta st;
       queries := obj_set "page" (JNum (current + 1)) (queries st) |}
    pl log (Fail TypeError).
Proof.
  intros Ht He. rewrite _paginate_unfold. simpl run_main.
  unfold total_pages in Ht.
  destruct (GetProp (meta st) "pagination") as [e'|pg]; [discriminate|].
  destruct (GetProp pg "total_pages") as [e'|t]; [discriminate|].
  injection Ht as ->. simpl run_main. unfold js_lt. rewrite He.
  now rewrite (ToNumber_error _ _ He).
Qed.

(** The first response arrives and [get] returns: the loop of [_paginate]
    starts on the session as the response has left it. *)
Lemma paginate_first_response fuel endpoint (s0 s1 : Srv) st0 r1 st1 d1 :
  serve s0 (get_request this (with_query endpoint (queries st0))) =
    (Responded r1, s1) ->
  ok r1 = true ->
  run_task (readResponse r1) st0 = (st1, Ret d1) ->
  is_promise d1 = false ->
  deliver serve 0 (start (paginate this retries fuel endpoint) s0 st0) =
  Some (run_main (_paginate this retries fuel endpoint [d1] 1) s1 st1 [Ret d1]
          [get_request this (with_query endpoint (queries st0))]).
Proof.
  intros Hs Hok Hr Hd. rewrite start_paginate.
  erewrite deliver_fetch; [| reflexivity | exact Hs |].
  2:{ rewrite get_await_ok by exact Hok. exact Hr. }
  cbn [main pool issued sent insert list_insert app].
  rewrite run_main_Await_fulfilled with (v := d1) by reflexivity. reflexivity.
Qed.

(** [readResponse] leaves the [queries] object as it is and never returns a
    promise. *)
Lemma run_readResponse_ret response st st' d :
  run_task (readResponse response) st = (st', Ret d) ->
  queries st' = queries st /\ is_promise d = false.
Proof.
  unfold readResponse.
  destruct (0 <? String.length (text response))%nat.
  - destruct (JSON_parse (text response)) as [body|] eqn:P; [|discriminate].
    apply JSON_parse_json in P.
    destruct (GetProp body "meta") as [|m]; [discriminate|]. simpl.
    destruct (GetProp body "data") as [|d'] eqn:G; [discriminate|].
    intros [= <- <-]. split; [reflexivity|].
    exact (GetProp_plain _ _ _ P G).
  - intros [= <- <-]. now split.
Qed.

End PageCountFacts.

Section EnvelopeProperties.
Context `{Runtime} (this : Client).

(** X9.  A 2xx body that is valid JSON but not an object is not read as
    data: on a bare array, a string, a number or a boolean, [get] returns no
    value and the session's metadata becomes [undefined]; on [null] it
    throws a [TypeError] and leaves the session as it is.  One request is
    sent. *)
Theorem get_drops_body_without_envelope retries endpoint qr st response body :
  ok response = true ->
  text response <> EmptyString ->
  JSON_parse (text response) = Some body ->
  (forall fields, body <> JObj fields) ->
  solo (get this retries endpoint qr) st [Responded response] =
  (match body with
   | JNull => st
   | _ => {| meta := JUndefined; queries := queries st |}
   end,
   match body with
   | JNull => Throw TypeError
   | _ => Ret JUndefined
   end,
   [get_request this (with_query endpoint (deref qr st))]).
Proof.
  intros Hok He Hp Hb. unfold solo. rewrite run_get. cbn [sent feed].
  rewrite get_await_ok by exact Hok.
  unfold readResponse. rewrite (nonempty_length _ He), Hp.
  pose proof (JSON_parse_json _ _ Hp) as Hj.
  destruct body as [| |b|n|s|l|fields|h]; try discriminate; try reflexivity.
  now destruct (Hb fields).
Qed.

End EnvelopeProperties.

Section PageCountProperties.
Context `{Runtime} (this : Client) (retries : nat).
Context {Srv : Type} (serve : Srv -> Request -> FetchOutcome * Srv).

(** X10.  [paginate] needs a page count in the session's metadata once the
    first response is in.  When the metadata then has no [pagination] object
    to read [total_pages] from (the body had no [meta], or no [pagination]
    in it, or the body was empty and the session is new), [paginate] and
    [getAll] throw a [TypeError] after their one request.  When there is
    one but its [total_pages] converts to NaN (it is missing, or it is a
    string that is no numeral), [paginate] returns the first page alone and
    leaves [page] set to 2 in the caller's query.  When its [total_pages]
    cannot be converted to a number at all (an object that hides the
    [toString] it inherits), [paginate] throws a [TypeError], after it has
    set [page] to 2. *)
Theorem paginate_without_page_count fuel endpoint (s0 s1 : Srv) st0 r1 st1 d1 :
  serve s0 (get_request this (with_query endpoint (queries st0))) =
    (Responded r1, s1) ->
  ok r1 = true ->
  run_task (readResponse r1) st0 = (st1, Ret d1) ->
  (total_pages (meta st1) = None ->
   deliver serve 0 (start (paginate this retries fuel endpoint) s0 st0) =
     Some (mkConfig s1 st1 [Ret d1]
             [get_request this (with_query endpoint (queries st0))]
             (Fail TypeError)) /\
   deliver serve 0 (start (getAll this retries fuel endpoint) s0 st0) =
     Some (mkConfig s1 st1 [Ret d1]
             [get_request this (with_query endpoint (queries st0))]
             (Fail TypeError))) /\
  (forall total,
     total_pages (meta st1) = Some total ->
     ToNumber total = inr None ->
     deliver serve 0 (start (paginate this retries fuel endpoint) s0 st0) =
       Some (mkConfig s1
               {| meta := meta st1; queries := page_query (queries st0) 2 |}
               [Ret d1]
               [get_request this (with_query endpoint (queries st0))]
               (Done (JArr [d1])))) /\
  (forall total e,
     total_pages (meta st1) = Some total ->
     ToNumber total = inl e ->
     deliver serve 0 (start (paginate this retries fuel endpoint) s0 st0) =
       Some (mkConfig s1
               {| meta := meta st1; queries := page_query (queries st0) 2 |}
               [Ret d1]
               [get_request this (with_query endpoint (queries st0))]
               (Fail TypeError))).
Proof.
  intros Hs Hok Hr.
  destruct (run_readResponse_ret _ _ _ _ Hr) as (Hq & Hd).
  pose proof (paginate_first_response this retries serve fuel endpoint s0 s1 st0
                r1 st1 d1 Hs Hok Hr Hd) as Hp.
  split; [|split].
  - intros Ht. rewrite run_paginate_no_count in Hp by exact Ht.
    split; [exact Hp|].
    rewrite start_getAll, deliver_then_run.
    2:{ left. now rewrite start_paginate. }
    rewrite Hp. reflexivity.
  - intros total Ht Hn.
    rewrite (run_paginate_nan _ _ _ _ _ _ _ _ _ _ _ Ht Hn) in Hp.
    rewrite Hp, Hq. reflexivity.
  - intros total e Ht He.
    rewrite (run_paginate_throws _ _ _ _ _ _ _ _ _ _ _ _ Ht He) in Hp.
    rewrite Hp, Hq. reflexivity.
Qed.

(** X11.  When the first response has an empty body, [paginate] takes the
    page count from the metadata the session holds from an earlier call: on
    a session that holds a count of [N], it sends the requests of pages 2..N
    and returns [undefined] followed by their promises. *)
Theorem paginate_empty_body_keeps_page_count fuel endpoint (s0 s1 : Srv) st0 r1
    total N :
  serve s0 (get_request this (with_query endpoint (queries st0))) =
    (Responded r1, s1) ->
  ok r1 = true ->
  text r1 = EmptyString ->
  total_pages (meta st0) = Some total ->
  ToNumber total = inr (Some N) ->
  (Z.to_nat (N - 1) <= fuel)%nat ->
  deliver serve 0 (start (paginate this retries fuel endpoint) s0 st0) =
  Some (mkConfig s1
          {| meta := meta st0;
             queries := page_query (queries st0) (Z.to_nat (N - 1) + 2) |}
          (Ret JUndefined
             :: map (page_fetch this retries endpoint (queries st0))
                  (seq 2 (Z.to_nat (N - 1))))
          (get_request this (with_query endpoint (queries st0))
             :: map (page_request this endpoint (queries st0))
                  (seq 2 (Z.to_nat (N - 1))))
          (Done (JArr (JUndefined
                         :: map JPromise (seq 1 (Z.to_nat (N - 1))))))).
Proof.
  intros Hs Hok He Ht HN Hf.
  rewrite (paginate_first_response this retries serve fuel endpoint s0 s1 st0
             r1 st0 JUndefined Hs Hok (run_readResponse_empty r1 st0 He) eq_refl).
  change 1 with (Z.of_nat 1).
  erewrite (run_paginate_loop this retries (Z.to_nat (N - 1)));
    [| exact Ht | exact HN | simpl; lia | exact Hf].
  simpl. f_equal. f_equal. f_equal. f_equal. lia.
Qed.

End PageCountProperties.

(** ** The session after [getAll] *)

Section SessionAfterGetAll.
Context `{Runtime} (this : Client) (retries : nat).
Context {Srv : Type} (serve : Srv -> Request -> FetchOutcome * Srv).

Lemma start_deleteAll fuel endpoint limit (s0 : Srv) st0 :
  start (deleteAll this retries fuel endpoint limit) s0 st0 =
  mkConfig s0
    {| meta := meta st0; queries := obj_set "limit" limit (queries st0) |}
    [Fetch (limit_request this endpoint (queries st0) limit)
       (get_await this retries
          (with_query endpoint (obj_set "limit" limit (queries st0)))
          caller_queries)]
    [limit_request this endpoint (queries st0) limit]
    (Await (JPromise 0) (deleteAll_loop this retries fuel endpoint)).
Proof.
  unfold start, deleteAll.
  rewrite run_main_WriteQuery, run_main_Call, run_get. reflexivity.
Qed.

Lemma store_run_main_collect ps (s : Srv) st pl log :
  store (run_main (AwaitAll ps collect) s st pl log) = st.
Proof.
  rewrite run_main_AwaitAll.
  destruct (first_rejected pl ps); [reflexivity|].
  now destruct (all_fulfilled pl ps).
Qed.

(** The session when the fetch of a page of [getAll] completes: [get] has
    read the response into it, and the orchestrator has not touched it. *)
Lemma GA_store endpoint q0 n resp d1 log1 D c c' h :
  (forall s p, (2 <= p <= S n)%nat ->
     fst (serve s (page_request this endpoint q0 p)) = Responded (resp p)) ->
  GA this retries endpoint q0 n resp d1 log1 D c ->
  (1 <= h <= n)%nat -> ~ h ∈ D ->
  deliver serve h c = Some c' ->
  store c' =
  fst (run_task (get_await this retries
                   (with_query endpoint (page_query q0 (S h))) caller_queries
                   (Responded (resp (S h)))) (store c)).
Proof.
  intros Hserved (Hp & _ & Hm) Hh Hd Hdel.
  apply deliver_inv in Hdel as (rq & k & Hl & ->).
  rewrite Hp, lookup_pool_of in Hl by exact Hh. unfold slot in Hl.
  rewrite bool_decide_eq_false_2 in Hl by exact Hd.
  injection Hl as <- <-.
  rewrite (Hserved (server c) (S h)) by lia.
  destruct Hm as [(_ & _ & ->)|[(_ & _ & ->)|(h0 & e & _ & _ & ->)]].
  - apply store_run_main_collect.
  - reflexivity.
  - reflexivity.
Qed.

Lemma GA_store_queries endpoint q0 n resp d1 log1 D c c' h :
  (forall s p, (2 <= p <= S n)%nat ->
     fst (serve s (page_request this endpoint q0 p)) = Responded (resp p)) ->
  GA this retries endpoint q0 n resp d1 log1 D c ->
  (1 <= h <= n)%nat -> ~ h ∈ D ->
  deliver serve h c = Some c' ->
  queries (store c') = queries (store c).
Proof.
  intros Hserved Hga Hh Hd Hdel.
  rewrite (GA_store _ _ _ _ _ _ _ _ _ _ Hserved Hga Hh Hd Hdel).
  destruct (run_get_await this retries
              (with_query endpoint (page_query q0 (S h))) caller_queries
              (resp (S h)) (store c)) as [m ->].
  reflexivity.
Qed.

Lemma GA_exec_queries endpoint q0 n resp d1 log1 order : forall D c,
  is_promise d1 = false ->
  (forall s p, (2 <= p <= S n)%nat ->
     fst (serve s (page_request this endpoint q0 p)) = Responded (resp p)) ->
  GA this retries endpoint q0 n resp d1 log1 D c ->
  (forall h, h ∈ D -> (1 <= h <= n)%nat) ->
  queries (store (exec serve order c)) = queries (store c).
Proof.
  induction order as [|h order IH]; intros D c Hd1 Hserved Hga HD; [reflexivity|].
  simpl exec.
  destruct (decide ((1 <= h <= n)%nat /\ ~ h ∈ D)) as [[Hh Hd]|Hno].
  - destruct (GA_step this retries serve endpoint q0 n resp d1 log1 Hd1 Hserved
                D c h Hga Hh Hd) as (c' & Hdel & Hga').
    rewrite Hdel. simpl default.
    rewrite (IH (h :: D) c' Hd1 Hserved Hga').
    + exact (GA_store_queries _ _ _ _ _ _ _ _ _ _ Hserved Hga Hh Hd Hdel).
    + intros h' Hin. apply elem_of_cons in Hin as [->|Hin]; [exact Hh | now apply HD].
  - rewrite (GA_skip this retries serve endpoint q0 n resp d1 log1 D c h Hga HD Hno).
    simpl default. exact (IH D c Hd1 Hserved Hga HD).
Qed.

(** The session once the first page of [getAll] has arrived. *)
Lemma getAll_first_page_store fuel endpoint (s0 s1 : Srv) st0 r1 d1 m total N c1 :
  serve s0 (get_request this (with_query endpoint (queries st0))) =
    (Responded r1, s1) ->
  envelope_of r1 = Some (d1, m) ->
  total_pages m = Some total ->
  ToNumber total = inr (Some N) ->
  (Z.to_nat (N - 1) <= fuel)%nat ->
  deliver serve 0 (start (getAll this retries fuel endpoint) s0 st0) = Some c1 ->
  store c1 =
  {| meta := m; queries := page_query (queries st0) (Z.to_nat (N - 1) + 2) |}.
Proof.
  intros Hs He Ht HN Hf.
  rewrite start_getAll, deliver_then_run.
  2:{ left. now rewrite start_paginate. }
  rewrite (paginate_first_page this retries serve fuel endpoint s0 s1 st0
             r1 d1 m total N Hs He Ht HN Hf).
  simpl fmap. intros [= <-]. unfold then_run. cbn [main server store pool issued].
  apply store_run_main_collect.
Qed.


(** X12.  [getAll] leaves its mark in the caller's [queries] object: once
    the first page has announced [N] pages, and whatever completes
    afterwards, the object holds [page] = max(1, N) + 1.  A second [getAll]
    that is given the same object therefore starts by asking for that page,
    not for the first one; and a [deleteAll] that is given it fetches that
    page, with its limit, instead of the first. *)
Theorem getAll_leaves_page_in_queries fuel endpoint (s0 s1 : Srv) st0 r1 d1 m N
    resp order :
  serve s0 (get_request this (with_query endpoint (queries st0))) =
    (Responded r1, s1) ->
  envelope_of r1 = Some (d1, m) ->
  total_pages m = Some (JNum N) ->
  (Z.to_nat (N - 1) <= fuel)%nat ->
  (forall s p, (2 <= p <= S (Z.to_nat (N - 1)))%nat ->
     fst (serve s (page_request this endpoint (queries st0) p)) =
     Responded (resp p)) ->
  queries (store (exec serve (0%nat :: order)
                    (start (getAll this retries fuel endpoint) s0 st0))) =
    page_query (queries st0) (Z.to_nat (Z.max 1 N) + 1) /\
  (forall fuel' (s : Srv),
     issued (start (getAll this retries fuel' endpoint) s
               (store (exec serve (0%nat :: order)
                         (start (getAll this retries fuel endpoint) s0 st0)))) =
     [page_request this endpoint (queries st0) (Z.to_nat (Z.max 1 N) + 1)]) /\
  (forall fuel' limit (s : Srv),
     issued (start (deleteAll this retries fuel' endpoint limit) s
               (store (exec serve (0%nat :: order)
                         (start (getAll this retries fuel endpoint) s0 st0)))) =
     [limit_request this endpoint
        (page_query (queries st0) (Z.to_nat (Z.max 1 N) + 1)) limit]).
Proof.
  intros Hs He Ht Hf Hserved.
  assert (Hq : queries (store (exec serve (0%nat :: order)
                    (start (getAll this retries fuel endpoint) s0 st0))) =
    page_query (queries st0) (Z.to_nat (Z.max 1 N) + 1)).
  { destruct (getAll_first_page this retries serve fuel endpoint s0 s1 st0 r1 d1 m
                (JNum N) N resp Hs He Ht eq_refl Hf) as (c1 & Hdel & Hga).
    simpl exec. rewrite Hdel. simpl default.
    assert (Hpl : is_promise d1 = false).
    { eapply received_plain, envelope_received, He. }
    rewrite (GA_exec_queries _ _ _ _ _ _ order [] c1 Hpl Hserved Hga).
    - rewrite (getAll_first_page_store fuel endpoint s0 s1 st0 r1 d1 m (JNum N) N c1
                 Hs He Ht eq_refl Hf Hdel).
      simpl. f_equal. lia.
    - intros h Hh. inversion Hh. }
  split; [exact Hq|]. split.
  - intros fuel' s. rewrite start_getAll, start_paginate.
    unfold then_run. cbn [main issued]. rewrite Hq.
    reflexivity.
  - intros fuel' limit s. rewrite start_deleteAll. cbn [issued].
    now rewrite Hq.
Qed.

(** X19.  [getAll] sends max(1, N) requests and no other, whatever the
    pages are answered with and in whatever order the answers arrive, [N]
    being the page count the first response announces: the request of the
    caller's query as it is (whatever page it names), then those of the
    query with [page] overwritten by 2, ..., N, in that order. *)
Theorem getAll_request_count fuel endpoint (s0 s1 : Srv) st0 r1 d1 m N
    resp order :
  serve s0 (get_request this (with_query endpoint (queries st0))) =
    (Responded r1, s1) ->
  envelope_of r1 = Some (d1, m) ->
  total_pages m = Some (JNum N) ->
  (Z.to_nat (N - 1) <= fuel)%nat ->
  (forall s p, (2 <= p <= S (Z.to_nat (N - 1)))%nat ->
     fst (serve s (page_request this endpoint (queries st0) p)) =
     Responded (resp p)) ->
  issued (exec serve (0%nat :: order)
            (start (getAll this retries fuel endpoint) s0 st0)) =
    get_request this (with_query endpoint (queries st0))
      :: map (page_request this endpoint (queries st0))
           (seq 2 (Z.to_nat (N - 1))) /\
  length (issued (exec serve (0%nat :: order)
                    (start (getAll this retries fuel endpoint) s0 st0))) =
    Z.to_nat (Z.max 1 N).
Proof.
  intros Hs He Ht Hf Hserved.
  destruct (getAll_run this retries serve fuel endpoint s0 s1 st0 r1 d1 m N resp
              order Hs He Ht Hf Hserved) as (D & _ & _ & Hl & _).
  rewrite Hl. split; [reflexivity|].
  simpl. rewrite length_map, length_seq. lia.
Qed.


(** X14.  When the transport of a page fetch of [paginate] throws, the
    request is re-issued by a [get] that reads the caller's [queries] object
    anew, and by then the loop has left [page] = N + 1 in it: the fetch of
    page [p] is retried at the URL of page [p] with the query string of page
    N + 1 appended. *)
Theorem paginate_retry_reads_final_page fuel endpoint (s0 s1 s2 : Srv) st0 r1 d1
    m N h :
  serve s0 (get_request this (with_query endpoint (queries st0))) =
    (Responded r1, s1) ->
  envelope_of r1 = Some (d1, m) ->
  total_pages m = Some (JNum N) ->
  (Z.to_nat (N - 1) <= fuel)%nat ->
  (1 <= h <= Z.to_nat (N - 1))%nat ->
  serve s1 (page_request this endpoint (queries st0) (S h)) = (Thrown, s2) ->
  issued (exec serve [0; h]%nat
            (start (paginate this (S retries) fuel endpoint) s0 st0)) =
  (get_request this (with_query endpoint (queries st0))
     :: map (page_request this endpoint (queries st0))
          (seq 2 (Z.to_nat (N - 1))))
  ++ [get_request this
        (with_query (with_query endpoint (page_query (queries st0) (S h)))
           (page_query (queries st0) (Z.to_nat N + 1)))].
Proof.
  intros Hs He Ht Hf Hh Hthrown. simpl exec.
  rewrite (paginate_first_page this (S retries) serve fuel endpoint s0 s1 st0
             r1 d1 m (JNum N) N Hs He Ht eq_refl Hf).
  simpl default.
  erewrite deliver_fetch; [| | exact Hthrown |].
  2:{ cbn [pool]. destruct h as [|h]; [lia|]. simpl.
      rewrite list_lookup_fmap, lookup_seq_lt by lia. simpl.
      unfold page_fetch. reflexivity. }
  2:{ cbn [get_await store]. rewrite run_get. reflexivity. }
  simpl default. cbn [main run_main issued sent deref queries].
  replace (Z.to_nat (N - 1) + 2)%nat with (Z.to_nat N + 1)%nat by lia.
  reflexivity.
Qed.

End SessionAfterGetAll.

(** ** [deleteAll] when a page or a delete goes wrong *)

Section DeleteAllEdgeFacts.
Context `{Runtime} (this : Client) (retries : nat).
Context {Srv : Type} (serve : Srv -> Request -> FetchOutcome * Srv).

(** The first page arrives and [get] returns: the loop starts on it. *)
Lemma deleteAll_first_response fuel endpoint limit (s0 s1 : Srv) st0 r st1 d :
  serve s0 (limit_request this endpoint (queries st0) limit) =
    (Responded r, s1) ->
  ok r = true ->
  run_task (readResponse r)
    {| meta := meta st0; queries := obj_set "limit" limit (queries st0) |} =
    (st1, Ret d) ->
  deliver serve 0 (start (deleteAll this retries fuel endpoint limit) s0 st0) =
  Some (run_main (deleteAll_loop this retries fuel endpoint d) s1 st1 [Ret d]
          [limit_request this endpoint (queries st0) limit]).
Proof.
  intros Hs Hok Hr. rewrite start_deleteAll.
  erewrite deliver_fetch; [| reflexivity | exact Hs |].
  2:{ rewrite get_await_ok by exact Hok. exact Hr. }
  cbn [main pool issued sent insert list_insert app].
  rewrite run_main_Await_fulfilled with (v := d) by reflexivity. reflexivity.
Qed.

(** [items.map(...)] stops at the first item whose endpoint cannot be
    built; the deletes of the items before it have been called. *)
Lemma run_delete_each_stop endpoint good bad rest :
  forall proms k (s : Srv) st pl log,
  forallb deletable good = true ->
  deletable bad = false ->
  run_main (delete_each this retries endpoint (good ++ bad :: rest) proms k)
    s st pl log =
  mkConfig s st (pl ++ map (item_delete this retries endpoint) good)
    (log ++ map (item_request this endpoint) good) (Fail TypeError).
Proof.
  induction good as [|v good IH]; intros proms k s st pl log Hg Hb.
  - simpl. apply not_deletable in Hb.
    destruct (GetProp bad "id") as [e|id]; [subst e | rewrite Hb];
      now rewrite !app_nil_r.
  - simpl in Hg. apply andb_true_iff in Hg as [Hv Hg].
    simpl app. cbn [delete_each]. unfold deletable in Hv.
    destruct (GetProp v "id") as [|id] eqn:Hid; [discriminate|].
    destruct (ToString id) as [|text] eqn:Htext; [discriminate|].
    rewrite run_main_Call, run_delete. cbn [fst snd sent deref].
    rewrite IH by assumption.
    rewrite <- !app_assoc. simpl.
    unfold item_delete, item_request, item_endpoint, id_string, id_of.
    rewrite Hid, Htext. reflexivity.
Qed.

(** The first page arrives with items that can all be deleted: one delete
    per item is in flight, and [deleteAll] awaits them all. *)
Lemma deleteAll_first_round fuel endpoint limit (s0 s1 : Srv) st0 r m items :
  serve s0 (limit_request this endpoint (queries st0) limit) =
    (Responded r, s1) ->
  envelope_of r = Some (JArr items, m) ->
  forallb deletable items = true ->
  items = [] \/
  deliver serve 0 (start (deleteAll this retries fuel endpoint limit) s0 st0) =
  Some (run_main
          (AwaitAll (map JPromise (seq 1 (length items)))
             (after_deletes this retries endpoint fuel))
          s1 {| meta := m; queries := obj_set "limit" limit (queries st0) |}
          (Ret (JArr items) :: map (item_delete this retries endpoint) items)
          (limit_request this endpoint (queries st0) limit
             :: map (item_request this endpoint) items)).
Proof.
  intros Hs He Hdel.
  destruct items as [|v items]; [now left | right].
  assert (Hok : ok r = true).
  { unfold envelope_of in He. destruct (ok r); [reflexivity | discriminate]. }
  pose proof (run_get_await_page this retries EmptyString default_queries r
                {| meta := meta st0;
                   queries := obj_set "limit" limit (queries st0) |}
                _ _ He) as Hr.
  rewrite get_await_ok in Hr by exact Hok.
  rewrite (deleteAll_first_response fuel endpoint limit s0 s1 st0 r _ _ Hs Hok Hr).
  rewrite deleteAll_loop_unfold. cbn [GetProp String.eqb Ascii.eqb Bool.eqb].
  assert (Hlen : ToBoolean (JNum (Z.of_nat (length (v :: items)))) = true).
  { apply negb_true_iff, Z.eqb_neq. simpl length. lia. }
  rewrite Hlen.
  rewrite (run_delete_each this retries endpoint (v :: items)) by exact Hdel.
  reflexivity.
Qed.

(** The promises of a page of which no delete has completed. *)
Lemma round_pool_fresh endpoint stages b vb items :
  items !! b = Some vb ->
  stages 0%nat = item_delete this retries endpoint vb ->
  Ret (JArr items) :: map (item_delete this retries endpoint) items =
  round_pool this retries endpoint stages b items [] 0.
Proof.
  intros Hb H0. unfold round_pool. f_equal.
  apply list_eq. intros i. rewrite list_lookup_imap, list_lookup_fmap.
  destruct (items !! i) as [v|] eqn:Hi; [|reflexivity]. simpl. f_equal.
  unfold round_slot. destruct (decide (i = b)) as [->|Hne].
  - rewrite bool_decide_eq_true_2 by reflexivity. congruence.
  - rewrite bool_decide_eq_false_2 by exact Hne.
    now rewrite bool_decide_eq_false_2 by apply not_elem_of_nil.
Qed.

End DeleteAllEdgeFacts.

Section Round.
Context `{Runtime} (this : Client) (retries : nat).
Context {Srv : Type} (serve : Srv -> Request -> FetchOutcome * Srv).
Context (endpoint : string) (fuel : nat).
Context (items : list jsval) (b : nat) (vb : jsval).
Context (stages : nat -> Task) (final : nat) (e : jserror).
Context (log1 : list Request).

Hypothesis item_b : items !! b = Some vb.

(** The delete that goes wrong goes through its stages, one per completion
    of its fetch, whatever the server holds; the last one is a rejection. *)
Hypothesis stage_next : forall c, (c < final)%nat ->
  exists rq k,
    stages c = Fetch rq k /\
    forall s st, run_task (k (fst (serve s rq))) st = (st, stages (S c)).

Hypothesis stage_last : stages final = Throw e.

Hypothesis others_deleted : forall s i v,
  items !! i = Some v -> i <> b ->
  exists r, fst (serve s (item_request this endpoint v)) = Responded r /\
            ok r = true.

#[local] Abbreviation awaited_deletes :=
  (map JPromise (seq 1 (length items))).

(** The round of deletes of the first page. *)
Definition RD (D : list nat) (c : nat) (cfg : Config Srv) : Prop :=
  (c <= final)%nat /\
  pool cfg = round_pool this retries endpoint stages b items D c /\
  issued cfg = log1 ++ round_log stages c /\
  main cfg = if bool_decide (c = final) then Fail e
             else AwaitAll awaited_deletes
                    (after_deletes this retries endpoint fuel).

Lemma lookup_round_pool D c i v :
  items !! i = Some v ->
  round_pool this retries endpoint stages b items D c !! S i =
  Some (round_slot this retries endpoint stages b D c i v).
Proof. intros Hi. simpl. now rewrite list_lookup_imap, Hi. Qed.

Lemma settled_stage c :
  (c <= final)%nat ->
  settled (stages c) = if bool_decide (c = final) then Rejected e else Pending.
Proof.
  intros Hc. destruct (decide (c = final)) as [->|Hne].
  - rewrite bool_decide_eq_true_2 by reflexivity. now rewrite stage_last.
  - rewrite bool_decide_eq_false_2 by exact Hne.
    destruct (stage_next c ltac:(lia)) as (rq & k & -> & _). reflexivity.
Qed.

Lemma peek_round D c i v :
  (c <= final)%nat ->
  items !! i = Some v ->
  peek (round_pool this retries endpoint stages b items D c) (JPromise (S i)) =
  if bool_decide (i = b) then
    if bool_decide (c = final) then Rejected e else Pending
  else if bool_decide (i ∈ D) then Fulfilled JUndefined
  else Pending.
Proof.
  intros Hc Hi. unfold peek. rewrite (lookup_round_pool D c i v Hi).
  unfold round_slot.
  destruct (bool_decide (i = b)).
  - rewrite <- (settled_stage c Hc). now destruct (stages c).
  - now destruct (bool_decide (i ∈ D)).
Qed.

Lemma awaited_delete p :
  p ∈ awaited_deletes ->
  exists i v, p = JPromise (S i) /\ items !! i = Some v.
Proof.
  intros Hp. apply list_elem_of_fmap in Hp as (h & -> & Hh).
  apply elem_of_seq in Hh. destruct h as [|i]; [lia|].
  destruct (lookup_lt_is_Some_2 items i ltac:(lia)) as [v Hv].
  now exists i, v.
Qed.

Lemma round_pool_insert D c D' c' i v :
  items !! i = Some v ->
  (forall j w, items !! j = Some w -> j <> i ->
     round_slot this retries endpoint stages b D' c' j w =
     round_slot this retries endpoint stages b D c j w) ->
  <[S i := round_slot this retries endpoint stages b D' c' i v]>
    (round_pool this retries endpoint stages b items D c) =
  round_pool this retries endpoint stages b items D' c'.
Proof.
  intros Hi Hsame. unfold round_pool. simpl. f_equal.
  apply list_eq. intros j.
  destruct (decide (j = i)) as [->|Hne].
  - rewrite list_lookup_insert_eq.
    + now rewrite list_lookup_imap, Hi.
    + rewrite length_imap. now apply lookup_lt_Some in Hi.
  - rewrite list_lookup_insert_ne by congruence.
    rewrite !list_lookup_imap.
    destruct (items !! j) as [w|] eqn:Hj; [|reflexivity]. simpl. f_equal.
    symmetry. now apply Hsame.
Qed.

(** The orchestrator looks at the deletes it awaits. *)
Lemma poll_round D c (s : Srv) st log :
  (c <= final)%nat ->
  run_main (AwaitAll awaited_deletes (after_deletes this retries endpoint fuel))
    s st (round_pool this retries endpoint stages b items D c) log =
  mkConfig s st (round_pool this retries endpoint stages b items D c) log
    (if bool_decide (c = final) then Fail e
     else AwaitAll awaited_deletes (after_deletes this retries endpoint fuel)).
Proof.
  intros Hc. rewrite run_main_AwaitAll.
  assert (Hb : JPromise (S b) ∈ awaited_deletes).
  { apply list_elem_of_fmap. exists (S b). split; [reflexivity|].
    apply elem_of_seq. apply lookup_lt_Some in item_b. lia. }
  destruct (decide (c = final)) as [Hf|Hf].
  - rewrite bool_decide_eq_true_2 by exact Hf.
    rewrite (first_rejected_one _ _ (JPromise (S b)) e);
      [reflexivity | exact Hb | |].
    + rewrite (peek_round D c b vb Hc item_b).
      now rewrite !bool_decide_eq_true_2.
    + intros p e' Hp. apply awaited_delete in Hp as (i & v & -> & Hi).
      rewrite (peek_round D c i v Hc Hi).
      destruct (bool_decide (i = b)).
      * rewrite bool_decide_eq_true_2 by exact Hf. congruence.
      * destruct (bool_decide (i ∈ D)); discriminate.
  - rewrite bool_decide_eq_false_2 by exact Hf.
    rewrite first_rejected_none.
    + rewrite (all_fulfilled_none _ _ (JPromise (S b)));
        [reflexivity | exact Hb |].
      intros v. rewrite (peek_round D c b vb Hc item_b).
      rewrite bool_decide_eq_true_2 by reflexivity.
      now rewrite bool_decide_eq_false_2.
    + intros p e' Hp. apply awaited_delete in Hp as (i & v & -> & Hi).
      rewrite (peek_round D c i v Hc Hi).
      destruct (bool_decide (i = b)).
      * now rewrite bool_decide_eq_false_2.
      * destruct (bool_decide (i ∈ D)); discriminate.
Qed.

Lemma round_log_S c :
  round_log stages (S c) = round_log stages c ++ sent (stages (S c)).
Proof.
  unfold round_log. rewrite seq_S, flat_map_app. simpl.
  now rewrite app_nil_r.
Qed.

(** The orchestrator after a completion. *)
Lemma RD_resume D c cfg (s : Srv) st log :
  RD D c cfg -> (c <= final)%nat ->
  forall D' c', (c' <= final)%nat -> (c = final -> c' = final) ->
  run_main (main cfg) s st
    (round_pool this retries endpoint stages b items D' c') log =
  mkConfig s st (round_pool this retries endpoint stages b items D' c') log
    (if bool_decide (c' = final) then Fail e
     else AwaitAll awaited_deletes (after_deletes this retries endpoint fuel)).
Proof.
  intros (_ & _ & _ & Hm) Hc D' c' Hc' Hfin. rewrite Hm.
  destruct (decide (c = final)) as [Hf|Hf].
  - rewrite bool_decide_eq_true_2 by exact Hf.
    now rewrite bool_decide_eq_true_2 by (now apply Hfin).
  - rewrite bool_decide_eq_false_2 by exact Hf. now apply poll_round.
Qed.

(** The delete of an item other than [b] completes. *)
Lemma RD_step_other D c cfg i v :
  RD D c cfg -> items !! i = Some v -> i <> b -> ~ i ∈ D ->
  exists cfg', deliver serve (S i) cfg = Some cfg' /\ RD (i :: D) c cfg'.
Proof.
  intros Hrd Hi Hne Hd. pose proof Hrd as (Hc & Hp & Hl & Hm).
  assert (Hlook : pool cfg !! S i =
                  Some (Fetch (item_request this endpoint v)
                          (delete_await this retries (item_endpoint endpoint v)
                             default_queries))).
  { rewrite Hp, (lookup_round_pool D c i v Hi). unfold round_slot.
    rewrite bool_decide_eq_false_2 by exact Hne.
    now rewrite bool_decide_eq_false_2 by exact Hd. }
  destruct (serve (server cfg) (item_request this endpoint v)) as [o s'] eqn:Hs.
  destruct (others_deleted (server cfg) i v Hi Hne) as (r & E & Hok).
  rewrite Hs in E. simpl in E. subst o.
  eexists. split.
  - eapply deliver_fetch; [exact Hlook | exact Hs |].
    simpl. rewrite Hok. reflexivity.
  - cbn [sent]. rewrite app_nil_r, Hp.
    replace (Ret JUndefined)
      with (round_slot this retries endpoint stages b (i :: D) c i v).
    2:{ unfold round_slot. rewrite bool_decide_eq_false_2 by exact Hne.
        now rewrite bool_decide_eq_true_2 by left. }
    rewrite (round_pool_insert D c (i :: D) c i v Hi).
    2:{ intros j w Hj Hji. unfold round_slot.
        destruct (bool_decide (j = b)); [reflexivity|].
        destruct (decide (j ∈ D)) as [Hin|Hin].
        - rewrite (bool_decide_eq_true_2 (j ∈ i :: D)) by (now right).
          now rewrite (bool_decide_eq_true_2 (j ∈ D)).
        - rewrite (bool_decide_eq_false_2 (j ∈ D)) by exact Hin.
          rewrite (bool_decide_eq_false_2 (j ∈ i :: D)); [reflexivity|].
          intros Hc'. apply elem_of_cons in Hc' as [|]; congruence. }
    rewrite (RD_resume D c cfg _ _ _ Hrd Hc (i :: D) c Hc (fun E => E)).
    split; [exact Hc|]. split; [reflexivity|]. split; [exact Hl | reflexivity].
Qed.

(** A fetch of the delete that goes wrong completes. *)
Lemma RD_step_b D c cfg :
  RD D c cfg -> (c < final)%nat ->
  exists cfg', deliver serve (S b) cfg = Some cfg' /\ RD D (S c) cfg'.
Proof.
  intros Hrd Hlt. pose proof Hrd as (Hc & Hp & Hl & Hm).
  destruct (stage_next c Hlt) as (rq & k & Hst & Hk).
  assert (Hlook : pool cfg !! S b = Some (Fetch rq k)).
  { rewrite Hp, (lookup_round_pool D c b vb item_b). unfold round_slot.
    rewrite bool_decide_eq_true_2 by reflexivity. now rewrite Hst. }
  destruct (serve (server cfg) rq) as [o s'] eqn:Hs.
  pose proof (Hk (server cfg) (store cfg)) as Hr. rewrite Hs in Hr.
  eexists. split.
  - eapply deliver_fetch; [exact Hlook | exact Hs | exact Hr].
  - rewrite Hp.
    replace (stages (S c))
      with (round_slot this retries endpoint stages b D (S c) b vb) at 1.
    2:{ unfold round_slot. now rewrite bool_decide_eq_true_2 by reflexivity. }
    rewrite (round_pool_insert D c D (S c) b vb item_b).
    2:{ intros j w Hj Hjb. unfold round_slot.
        now rewrite !bool_decide_eq_false_2 by exact Hjb. }
    rewrite (RD_resume D c cfg _ _ _ Hrd Hc D (S c) Hlt ltac:(lia)).
    split; [exact Hlt|]. split; [reflexivity|].
    split; [|reflexivity]. cbn [issued].
    now rewrite Hl, round_log_S, app_assoc.
Qed.

Lemma RD_skip D c cfg h :
  RD D c cfg ->
  (h = S b -> c = final) ->
  (forall i v, h = S i -> items !! i = Some v -> i <> b -> i ∈ D) ->
  deliver serve h cfg = None.
Proof.
  intros (Hc & Hp & _) Hb Hothers. apply deliver_not_flying. intros t. rewrite Hp.
  destruct h as [|i]; [now intros [= <-]|].
  simpl. rewrite list_lookup_imap.
  destruct (items !! i) as [v|] eqn:Hi; [|discriminate]. simpl.
  intros [= <-]. unfold round_slot.
  destruct (decide (i = b)) as [->|Hne].
  - rewrite bool_decide_eq_true_2 by reflexivity.
    rewrite (Hb eq_refl), stage_last. reflexivity.
  - rewrite bool_decide_eq_false_2 by exact Hne.
    now rewrite bool_decide_eq_true_2 by (eapply Hothers; eauto).
Qed.

Lemma completions_cons h h' order :
  completions h (h' :: order) =
  ((if bool_decide (h' = h) then 1 else 0) + completions h order)%nat.
Proof.
  unfold completions. destruct (decide (h' = h)) as [E|E].
  - rewrite filter_cons_True by exact E.
    now rewrite bool_decide_eq_true_2 by exact E.
  - rewrite filter_cons_False by exact E.
    now rewrite bool_decide_eq_false_2 by exact E.
Qed.

(** Whatever the order of the completions, the round goes on as
    described, the delete that goes wrong being at the stage that the
    number of its completions tells. *)
Lemma RD_exec order : forall D c cfg,
  RD D c cfg ->
  exists D',
    RD D' (Nat.min final (c + completions (S b) order)) (exec serve order cfg).
Proof.
  induction order as [|h order IH]; intros D c cfg Hrd.
  - exists D. pose proof Hrd as (Hc & _).
    unfold completions. simpl.
    now replace (Nat.min final (c + 0)) with c by lia.
  - simpl exec. rewrite completions_cons. pose proof Hrd as (Hc & _).
    destruct (decide (h = S b)) as [->|Hhb].
    + rewrite bool_decide_eq_true_2 by reflexivity.
      destruct (decide (c < final)%nat) as [Hlt|Hge].
      * destruct (RD_step_b D c cfg Hrd Hlt) as (cfg' & -> & Hrd').
        simpl default. destruct (IH D (S c) cfg' Hrd') as (D' & Hrd'').
        exists D'.
        now replace (c + (1 + completions (S b) order))%nat
          with (S c + completions (S b) order)%nat by lia.
      * rewrite (RD_skip D c cfg (S b) Hrd); [| lia |].
        2:{ intros i v [= <-] _ Hne. now destruct Hne. }
        simpl default. destruct (IH D c cfg Hrd) as (D' & Hrd').
        exists D'.
        replace (Nat.min final (c + (1 + completions (S b) order)))
          with (Nat.min final (c + completions (S b) order)) by lia.
        exact Hrd'.
    + rewrite bool_decide_eq_false_2 by exact Hhb. simpl plus.
      assert (Hcase : (exists i v, h = S i /\ items !! i = Some v /\ ~ i ∈ D) \/
                      (forall i v, h = S i -> items !! i = Some v -> i ∈ D)).
      { destruct h as [|i]; [right; intros i v E; discriminate|].
        destruct (items !! i) as [v|] eqn:Hi.
        - destruct (decide (i ∈ D)) as [Hd|Hd].
          + right. now intros j w [= <-] _.
          + left. now exists i, v.
        - right. intros j w [= <-] Hj. congruence. }
      destruct Hcase as [(i & v & -> & Hi & Hd)|Hno].
      * assert (Hne : i <> b) by congruence.
        destruct (RD_step_other D c cfg i v Hrd Hi Hne Hd) as (cfg' & -> & Hrd').
        simpl default. exact (IH (i :: D) c cfg' Hrd').
      * rewrite (RD_skip D c cfg h Hrd); [| congruence |].
        2:{ intros i v E Hi _. exact (Hno i v E Hi). }
        simpl default. exact (IH D c cfg Hrd).
Qed.

End Round.

Section DeleteAllEdgeProperties.
Context `{Runtime} (this : Client) (retries : nat).
Context {Srv : Type} (serve : Srv -> Request -> FetchOutcome * Srv).

(** X15.  [deleteAll] on a first page that is not an array sends no DELETE:
    the one GET is all it sends.  It throws a [TypeError] when the page has no
    [length] to read (no body, or [data] missing or [null]) or has a truthy
    one (a non-empty string, an object with a [length]); otherwise (an
    object or a number without [length], an empty string) it returns at
    once, as if there were nothing to delete. *)
Theorem deleteAll_page_not_an_array fuel endpoint limit (s0 s1 : Srv) st0 r
    st1 d :
  serve s0 (limit_request this endpoint (queries st0) limit) =
    (Responded r, s1) ->
  ok r = true ->
  run_task (readResponse r)
    {| meta := meta st0; queries := obj_set "limit" limit (queries st0) |} =
    (st1, Ret d) ->
  (forall l, d <> JArr l) ->
  exists p,
    deliver serve 0 (start (deleteAll this retries fuel endpoint limit) s0 st0) =
    Some (mkConfig s1 st1 [Ret d]
            [limit_request this endpoint (queries st0) limit] p) /\
    (forall e, GetProp d "length" = inl e -> p = Fail TypeError) /\
    (forall len,
       GetProp d "length" = inr len ->
       p = if ToBoolean len then Fail TypeError else Done JUndefined).
Proof.
  intros Hs Hok Hr Hd.
  rewrite (deleteAll_first_response this retries serve fuel endpoint limit
             s0 s1 st0 r st1 d Hs Hok Hr).
  rewrite deleteAll_loop_unfold.
  destruct (GetProp d "length") as [e'|len] eqn:E.
  - eexists. split; [reflexivity|]. split; [|discriminate].
    intros e _. now rewrite (GetProp_error _ _ _ E).
  - destruct (ToBoolean len) eqn:Hlen.
    + assert (Hp : match d with
                   | JArr l =>
                       delete_each this retries endpoint l [] (fun proms =>
                         AwaitAll proms (after_deletes this retries endpoint fuel))
                   | _ => Fail TypeError
                   end = Fail TypeError).
      { destruct d; try reflexivity. now destruct (Hd elems). }
      rewrite Hp. eexists. split; [reflexivity|]. split; [discriminate|].
      intros len' [= <-]. now rewrite Hlen.
    + eexists. split; [reflexivity|]. split; [discriminate|].
      intros len' [= <-]. now rewrite Hlen.
Qed.

(** X16.  When the endpoint of an item of the first page cannot be built
    (the item is [null], so that its [id] cannot be read, or its [id] is an
    object that cannot be converted to a string), [deleteAll] throws a
    [TypeError]; but the deletes of the items before it have been sent and
    are in flight, and none is sent for the items after it. *)
Theorem deleteAll_unreadable_item fuel endpoint limit (s0 s1 : Srv) st0 r m
    good bad rest :
  serve s0 (limit_request this endpoint (queries st0) limit) =
    (Responded r, s1) ->
  envelope_of r = Some (JArr (good ++ bad :: rest), m) ->
  forallb deletable good = true ->
  deletable bad = false ->
  deliver serve 0 (start (deleteAll this retries fuel endpoint limit) s0 st0) =
  Some (mkConfig s1
          {| meta := m; queries := obj_set "limit" limit (queries st0) |}
          (Ret (JArr (good ++ bad :: rest))
             :: map (item_delete this retries endpoint) good)
          (limit_request this endpoint (queries st0) limit
             :: map (item_request this endpoint) good)
          (Fail TypeError)).
Proof.
  intros Hs He Hg Hb.
  assert (Hok : ok r = true).
  { unfold envelope_of in He. destruct (ok r); [reflexivity | discriminate]. }
  pose proof (run_get_await_page this retries EmptyString default_queries r
                {| meta := meta st0; queries := obj_set "limit" limit (queries st0) |}
                _ _ He) as Hr.
  rewrite get_await_ok in Hr by exact Hok.
  rewrite (deleteAll_first_response this retries serve fuel endpoint limit
             s0 s1 st0 r _ _ Hs Hok Hr).
  rewrite deleteAll_loop_unfold. cbn [GetProp String.eqb Ascii.eqb Bool.eqb].
  assert (Hlen : ToBoolean (JNum (Z.of_nat (length (good ++ bad :: rest)))) = true).
  { rewrite length_app. simpl. apply negb_true_iff, Z.eqb_neq. lia. }
  rewrite Hlen.
  now rewrite (run_delete_each_stop this retries endpoint good bad rest).
Qed.

(** X17.  When the server refuses the delete of one item of the first page
    (any status that is not 2xx) and accepts the others, [deleteAll] never
    returns a value, in whatever order the deletes complete; it has thrown
    the error of the refused delete as soon as that delete has completed;
    and it never sends another request: no item is deleted twice and no
    further page is fetched. *)
Theorem deleteAll_refused_delete fuel endpoint limit (s0 s1 : Srv) st0 r m
    items b vb rb order :
  serve s0 (limit_request this endpoint (queries st0) limit) =
    (Responded r, s1) ->
  envelope_of r = Some (JArr items, m) ->
  forallb deletable items = true ->
  items !! b = Some vb ->
  (forall s, fst (serve s (item_request this endpoint vb)) = Responded rb) ->
  ok rb = false ->
  (forall s i v,
     items !! i = Some v -> i <> b ->
     exists r', fst (serve s (item_request this endpoint v)) = Responded r' /\
                ok r' = true) ->
  issued (exec serve (0%nat :: order)
            (start (deleteAll this retries fuel endpoint limit) s0 st0)) =
    limit_request this endpoint (queries st0) limit
      :: map (item_request this endpoint) items /\
  (forall v,
     outcome (main (exec serve (0%nat :: order)
                      (start (deleteAll this retries fuel endpoint limit)
                         s0 st0)))
     <> Fulfilled v) /\
  (S b ∈ order ->
   main (exec serve (0%nat :: order)
           (start (deleteAll this retries fuel endpoint limit) s0 st0)) =
   Fail (Error (status_message rb))).
Proof.
  intros Hs He Hdel Hb Hrefused Hnok Hothers.
  destruct (deleteAll_first_round this retries serve fuel endpoint limit s0 s1 st0 r m items
              Hs He Hdel) as [Hnil|Hfirst].
  { subst items. discriminate. }
  set (stages := refused_stages this endpoint retries vb
                   (Error (status_message rb))).
  set (log1 := limit_request this endpoint (queries st0) limit
                 :: map (item_request this endpoint) items) in *.
  assert (Hnext : forall c, (c < 1)%nat ->
            exists rq k,
              stages c = Fetch rq k /\
              forall s st, run_task (k (fst (serve s rq))) st = (st, stages (S c))).
  { intros c Hc. assert (c = 0%nat) as -> by lia.
    eexists. eexists. split; [reflexivity|].
    intros s st. rewrite Hrefused. simpl. now rewrite Hnok. }
  rewrite (round_pool_fresh this retries endpoint stages b vb items Hb eq_refl)
    in Hfirst.
  rewrite (poll_round this retries serve endpoint fuel items b vb stages 1
             (Error (status_message rb)) Hb Hnext eq_refl) in Hfirst by lia.
  cbn [exec]. rewrite Hfirst. cbn [from_option id].
  match goal with
  | |- context [exec serve order ?cfg] =>
      assert (Hrd : RD this retries endpoint fuel items b stages 1
                      (Error (status_message rb)) log1 [] 0 cfg)
  end.
  { split; [lia|]. split; [reflexivity|]. split; [|reflexivity].
    cbn [issued]. unfold round_log. simpl. now rewrite app_nil_r. }
  destruct (RD_exec this retries serve endpoint fuel items b vb stages 1
              (Error (status_message rb)) log1 Hb Hnext eq_refl Hothers
              order [] 0%nat _ Hrd) as (D & Hc & Hp & Hl & Hm).
  split; [|split].
  - rewrite Hl. unfold round_log.
    destruct (Nat.min 1 (0 + completions (S b) order)) as [|[|c]] eqn:E;
      [| |lia]; simpl; rewrite app_nil_r; reflexivity.
  - intros v. rewrite Hm.
    destruct (bool_decide (Nat.min 1 (0 + completions (S b) order) = 1%nat));
      simpl; discriminate.
  - intros Hin. rewrite Hm. rewrite bool_decide_eq_true_2; [reflexivity|].
    assert (1 <= completions (S b) order)%nat; [|lia].
    unfold completions. apply list_elem_of_In, in_split in Hin as (l1 & l2 & ->).
    rewrite filter_app, filter_cons_True, length_app by reflexivity.
    simpl. lia.
Qed.

End DeleteAllEdgeProperties.

Section DeleteAllTimeout.
Context `{Runtime} (this : Client) (retries : nat).
Context {Srv : Type} (serve : Srv -> Request -> FetchOutcome * Srv).

Lemma completions_twice h (pre mid post : list nat) :
  (2 <= completions h (pre ++ h :: mid ++ h :: post))%nat.
Proof.
  unfold completions.
  rewrite filter_app, filter_cons_True, length_app by reflexivity.
  simpl length.
  rewrite filter_app, filter_cons_True, length_app by reflexivity.
  simpl length. lia.
Qed.

(** X18.  One transport failure is enough to make [deleteAll] fail.  When
    the transport of the delete of one item of the first page throws, and
    the delete, re-issued, is answered 2xx (so that the item is deleted),
    as are the deletes of the other items, [deleteAll] never returns a
    value, in whatever order the fetches complete: once the re-issued
    delete has been answered, it has thrown a [TypeError], the outcome of
    the promise of that delete.  It has sent the GET of the page, one DELETE
    per item and the DELETE it re-issued, and it fetches no further page. *)
Theorem deleteAll_fails_on_transport_failure fuel endpoint limit
    (s0 s1 : Srv) st0 r m items b vb :
  serve s0 (limit_request this endpoint (queries st0) limit) =
    (Responded r, s1) ->
  envelope_of r = Some (JArr items, m) ->
  forallb deletable items = true ->
  items !! b = Some vb ->
  (forall s, fst (serve s (item_request this endpoint vb)) = Thrown) ->
  (forall s,
     exists r', fst (serve s (reissued_request this endpoint vb)) = Responded r' /\
                ok r' = true) ->
  (forall s i v,
     items !! i = Some v -> i <> b ->
     exists r', fst (serve s (item_request this endpoint v)) = Responded r' /\
                ok r' = true) ->
  (forall order v,
     outcome (main (exec serve (0%nat :: order)
                      (start (deleteAll this (S retries) fuel endpoint limit)
                         s0 st0)))
     <> Fulfilled v) /\
  (forall pre mid post,
     main (exec serve (0%nat :: pre ++ S b :: mid ++ S b :: post)
             (start (deleteAll this (S retries) fuel endpoint limit) s0 st0)) =
       Fail TypeError /\
     issued (exec serve (0%nat :: pre ++ S b :: mid ++ S b :: post)
               (start (deleteAll this (S retries) fuel endpoint limit) s0 st0)) =
       (limit_request this endpoint (queries st0) limit
          :: map (item_request this endpoint) items)
       ++ [reissued_request this endpoint vb]).
Proof.
  intros Hs He Hdel Hb Hthrown Hanswered Hothers.
  destruct (deleteAll_first_round this (S retries) serve fuel endpoint limit
              s0 s1 st0 r m items Hs He Hdel) as [Hnil|Hfirst].
  { subst items. discriminate. }
  set (stages := timeout_stages this endpoint retries vb).
  set (log1 := limit_request this endpoint (queries st0) limit
                 :: map (item_request this endpoint) items) in *.
  assert (Hnext : forall c, (c < 2)%nat ->
            exists rq k,
              stages c = Fetch rq k /\
              forall s st, run_task (k (fst (serve s rq))) st = (st, stages (S c))).
  { intros c Hc. assert (c = 0 \/ c = 1)%nat as [->| ->] by lia.
    - eexists. eexists. split; [reflexivity|].
      intros s st. rewrite Hthrown. cbn [delete_await].
      rewrite delete_unfold. reflexivity.
    - eexists. eexists. split; [reflexivity|].
      intros s st. destruct (Hanswered s) as (r' & -> & Hok).
      cbn [delete_await delete_after_try]. rewrite Hok. reflexivity. }
  rewrite (round_pool_fresh this (S retries) endpoint stages b vb items Hb eq_refl)
    in Hfirst.
  rewrite (poll_round this (S retries) serve endpoint fuel items b vb stages 2
             TypeError Hb Hnext eq_refl) in Hfirst by lia.
  match type of Hfirst with
  | _ = Some ?cfg =>
      assert (Hrd : RD this (S retries) endpoint fuel items b stages 2
                      TypeError log1 [] 0 cfg)
  end.
  { split; [lia|]. split; [reflexivity|]. split; [|reflexivity].
    cbn [issued]. unfold round_log. simpl. now rewrite app_nil_r. }
  split.
  - intros order v. cbn [exec]. rewrite Hfirst. cbn [from_option id].
    destruct (RD_exec this (S retries) serve endpoint fuel items b vb stages 2
                TypeError log1 Hb Hnext eq_refl Hothers order [] 0%nat _ Hrd)
      as (D & _ & _ & _ & Hm).
    rewrite Hm.
    destruct (bool_decide (Nat.min 2 (0 + completions (S b) order) = 2%nat));
      simpl; discriminate.
  - intros pre mid post. cbn [exec]. rewrite Hfirst. cbn [from_option id].
    destruct (RD_exec this (S retries) serve endpoint fuel items b vb stages 2
                TypeError log1 Hb Hnext eq_refl Hothers
                (pre ++ S b :: mid ++ S b :: post) [] 0%nat _ Hrd)
      as (D & _ & _ & Hl & Hm).
    pose proof (completions_twice (S b) pre mid post) as Htwice.
    replace (Nat.min 2 (0 + completions (S b) (pre ++ S b :: mid ++ S b :: post)))
      with 2%nat in * by lia.
    split; [exact Hm|]. rewrite Hl. reflexivity.
Qed.

End DeleteAllTimeout.

(** ** The properties on the example store *)

Section OnTheExample.
Import Example.

#[local] Existing Instance runtime.

(** C6 on three responses: an empty body, a body that is not JSON, and the
    first page of the catalog. *)
Lemma readResponse_envelope_witness :
  run_task (readResponse (mkResponse 204 "No Content" EmptyString))
    (new_store []) = (new_store [], Ret JUndefined) /\
  run_task (readResponse not_found) (new_store []) =
    (new_store [], Throw SyntaxError) /\
  run_task (readResponse (ok_response (envelope [item 1; item 2] 3)))
    (new_store []) =
    ({| meta := JObj [("pagination", JObj [("total_pages", JNum 3)])];
        queries := [] |},
     Ret (JArr [item 1; item 2])).
Proof.
  split; [|split].
  - apply (proj1 (readResponse_envelope
                    (mkResponse 204 "No Content" EmptyString) (new_store []))).
    reflexivity.
  - apply (proj1 (proj2 (readResponse_envelope not_found (new_store []))));
      [discriminate | reflexivity].
  - apply (proj2 (proj2 (readResponse_envelope
                           (ok_response (envelope [item 1; item 2] 3))
                           (new_store [])))
             [("data", JArr [item 1; item 2]);
              ("meta", JObj [("pagination", JObj [("total_pages", JNum 3)])])]);
      [discriminate | reflexivity].
Defined.

(** C9, as stated, fails on a session whose metadata is already
    [undefined]: after an earlier response with body [{}], a response with an
    empty body and a response with body [{}] return the same value and leave
    the same session. *)
Lemma empty_body_not_told_apart :
  run_task (readResponse (mkResponse 200 "OK" EmptyString)) after_empty_object =
  run_task (readResponse (mkResponse 200 "OK" "{}")) after_empty_object.
Proof. reflexivity. Qed.

(** C9 as amended, on a new session of the example store. *)
Lemma empty_body_vs_empty_object_witness :
  JSON_parse "{}" = Some (JObj []) /\
  run_task (readResponse (mkResponse 200 "OK" EmptyString)) (new_store []) =
    (new_store [], Ret JUndefined) /\
  run_task (readResponse (mkResponse 200 "OK" "{}")) (new_store []) =
    ({| meta := JUndefined; queries := [] |}, Ret JUndefined) /\
  (run_task (readResponse (mkResponse 200 "OK" EmptyString)) (new_store []) =
   run_task (readResponse (mkResponse 200 "OK" "{}")) (new_store []) <->
   meta (new_store []) = JUndefined).
Proof.
  split; [reflexivity|].
  apply (empty_body_vs_empty_object (mkResponse 200 "OK" EmptyString)
           (mkResponse 200 "OK" "{}") (new_store [])); reflexivity.
Defined.





(** C7 on the server of five pages: four fetches are in flight at once. *)
Lemma getAll_fans_out_all_pages_witness :
  long_server tt (get_request bc (with_query endpoint [])) =
    (Responded (ok_response (envelope [item 1] 5)), tt) /\
  envelope_of (ok_response (envelope [item 1] 5)) =
    Some (JArr [item 1], JObj [("pagination", JObj [("total_pages", JNum 5)])]) /\
  total_pages (JObj [("pagination", JObj [("total_pages", JNum 5)])]) =
    Some (JNum 5) /\
  (Z.to_nat (5 - 1) <= 5)%nat /\
  exists c1,
    deliver long_server 0 (start (getAll bc 3 5 endpoint) tt (new_store []))
      = Some c1 /\
    length (flying c1) = 4%nat.
Proof.
  repeat (split; [reflexivity || (simpl; lia)|]).
  destruct (getAll_fans_out_all_pages (H := runtime) bc 3 long_server 5 endpoint tt tt
              (new_store []) (ok_response (envelope [item 1] 5)) (JArr [item 1])
              (JObj [("pagination", JObj [("total_pages", JNum 5)])]) 5
              ltac:(reflexivity) ltac:(reflexivity)
              ltac:(reflexivity) ltac:(simpl; lia))
    as (c1 & Hd & _ & Hl).
  exists c1. split; [exact Hd | exact Hl].
Defined.

(** C1 on the catalog.  Whether page 2 or page 3 arrives first, [getAll]
    returns an array of three arrays, one per page, and not the five
    products in one array. *)
Theorem getAll_returns_pages_not_items :
  outcome (main (exec catalog_server [0; 1; 2]%nat
                   (start (getAll bc 3 5 endpoint) tt (new_store [])))) =
    Fulfilled (JArr [JArr [item 1; item 2]; JArr [item 3; item 4]; JArr [item 5]]) /\
  outcome (main (exec catalog_server [0; 2; 1]%nat
                   (start (getAll bc 3 5 endpoint) tt (new_store [])))) =
    Fulfilled (JArr [JArr [item 1; item 2]; JArr [item 3; item 4]; JArr [item 5]]) /\
  JArr [JArr [item 1; item 2]; JArr [item 3; item 4]; JArr [item 5]] <>
    JArr [item 1; item 2; item 3; item 4; item 5].
Proof. split; [reflexivity | split; [reflexivity | discriminate]]. Qed.

Lemma catalog_pages_served (s : unit) (p : nat) :
  (2 <= p <= S (Z.to_nat (3 - 1)))%nat ->
  fst (catalog_server s (page_request bc endpoint [] p)) =
  Responded (catalog_page p).
Proof.
  intros Hp. assert (p = 2 \/ p = 3)%nat as [->| ->] by (simpl in Hp; lia);
    reflexivity.
Qed.

Lemma broken_pages_served (s : unit) (p : nat) :
  (2 <= p <= S (Z.to_nat (3 - 1)))%nat ->
  fst (broken_server s (page_request bc endpoint [] p)) =
  Responded (broken_page p).
Proof.
  intros Hp. assert (p = 2 \/ p = 3)%nat as [->| ->] by (simpl in Hp; lia);
    reflexivity.
Qed.

(** The order independence of [getAll] on the catalog, page 3 arriving
    before page 2. *)
Lemma getAll_pages_in_order_witness :
  main (exec catalog_server [0; 2; 1]%nat
          (start (getAll bc 3 5 endpoint) tt (new_store []))) =
  Done (JArr [JArr [item 1; item 2]; JArr [item 3; item 4]; JArr [item 5]]).
Proof.
  refine (getAll_pages_in_order (H := runtime) bc 3 catalog_server 5 endpoint tt tt
            (new_store []) (catalog_page 1) (JArr [item 1; item 2]) catalog_meta
            3 catalog_page
            (fun p => match catalog !! (p - 1)%nat with
                      | Some data => JArr data
                      | None => JUndefined
                      end)
            [2; 1]%nat ltac:(reflexivity) ltac:(reflexivity)
              ltac:(reflexivity) ltac:(simpl; lia)
            catalog_pages_served _ _).
  - intros p Hp. assert (p = 2 \/ p = 3)%nat as [->| ->] by (simpl in Hp; lia);
      reflexivity.
  - intros h Hh. assert (h = 1 \/ h = 2)%nat as [->| ->] by (simpl in Hh; lia);
      [right; left | left].
Defined.

(** C4 on the example store: the 404 of a product list that does not
    exist; the catalog with its second page missing, page 3 arriving before
    the 404; and the 404 that answers a [delete], a [post] and a [put],
    for [delete] and [put] after a first attempt that timed out, with a
    200 that would follow and is never asked for. *)
Lemma non_2xx_is_terminal_witness :
  solo (get bc 3 endpoint caller_queries) (new_store []) [Responded not_found] =
    (new_store [], Throw (Error "404 - Not Found: not found"),
     [get_request bc "v3/catalog/products?"]) /\
  exec broken_server [0; 1]%nat
    (start (getAll bc 3 5 "v3/catalog/none") tt (new_store [])) =
    mkConfig tt (new_store []) [Throw (Error "404 - Not Found: not found")]
      [get_request bc "v3/catalog/none?"]
      (Fail (Error "404 - Not Found: not found")) /\
  main (exec broken_server [0; 2; 1]%nat
          (start (getAll bc 3 5 endpoint) tt (new_store []))) =
    Fail (Error "404 - Not Found: not found") /\
  solo (delete bc 3 "v3/catalog/products/9" default_queries) (new_store [])
    [Thrown; Responded not_found; Responded (ok_response (JObj []))] =
    (new_store [], Throw (Error "404 - Not Found: not found"),
     [delete_request bc "v3/catalog/products/9?";
      delete_request bc "v3/catalog/products/9??"]) /\
  solo (post bc 3 "v3/catalog/none" (item 7)) (new_store [])
    [Responded not_found; Responded (ok_response (JObj []))] =
    (new_store [], Throw (Error "404 - Not Found: not found"),
     [post_request bc "v3/catalog/none" (item 7)]) /\
  solo (put bc 3 "v3/catalog/products/9" (item 9)) (new_store [])
    [Thrown; Responded not_found; Responded (ok_response (JObj []))] =
    (new_store [], Throw (Error "404 - Not Found: not found"),
     [put_request bc "v3/catalog/products/9" (item 9);
      put_request bc "v3/catalog/products/9" (item 9)]).
Proof.
  split; [|split; [|split; [|split; [|split]]]].
  - exact (proj1 (non_2xx_is_terminal (H := runtime) bc) 3%nat endpoint caller_queries
             (new_store []) not_found [] ltac:(reflexivity)).
  - exact (proj1 (proj2 (non_2xx_is_terminal (H := runtime) bc)) unit broken_server 3%nat 5%nat
             "v3/catalog/none" tt tt (new_store []) not_found [1%nat]
             ltac:(reflexivity) ltac:(reflexivity)).
  - refine (proj2 (proj1 (proj2 (proj2 (non_2xx_is_terminal (H := runtime) bc)))
                     unit broken_server
                     3%nat 5%nat endpoint tt tt (new_store []) (catalog_page 1)
                     (JArr [item 1; item 2]) catalog_meta 3 broken_page 2%nat
                     [2; 1]%nat ltac:(reflexivity) ltac:(reflexivity)
              ltac:(reflexivity) ltac:(simpl; lia)
                     broken_pages_served ltac:(simpl; lia) ltac:(reflexivity) _) _).
    + intros p Hp Hne. assert (p = 3)%nat as -> by (simpl in Hp; lia).
      eexists. reflexivity.
    + right. left.
  - exact (proj2 (proj1 (proj2 (proj2 (proj2
                    (non_2xx_is_terminal (H := runtime) bc))))
                    1%nat 3%nat "v3/catalog/products/9" default_queries
                    (new_store []) not_found [Responded (ok_response (JObj []))]
                    ltac:(lia) ltac:(reflexivity))).
  - exact (proj1 (proj2 (proj2 (proj2 (proj2
                    (non_2xx_is_terminal (H := runtime) bc))))
                    0%nat 3%nat "v3/catalog/none" (item 7)
                    (new_store []) not_found [Responded (ok_response (JObj []))]
                    ltac:(lia) ltac:(reflexivity))).
  - exact (proj2 (proj2 (proj2 (proj2 (proj2
                    (non_2xx_is_terminal (H := runtime) bc))))
                    1%nat 3%nat "v3/catalog/products/9" (item 9)
                    (new_store []) not_found [Responded (ok_response (JObj []))]
                    ltac:(lia) ltac:(reflexivity))).
Defined.


Lemma sublist_sublists {A : Type} (l1 l2 : list A) :
  l1 `sublist_of` l2 -> In l1 (sublists l2).
Proof.
  induction 1 as [|x l1 l2 _ IH|x l1 l2 _ IH]; simpl.
  - now left.
  - apply in_or_app. left. now apply in_map.
  - apply in_or_app. now right.
Qed.

(** The shop answers a GET of the query with the first two products left. *)
Lemma shop_served_get (s : list jsval) :
  s `sublist_of` products ->
  exists r m,
    shop_server s (page_get bc endpoint [] 2) = (Responded r, s) /\
    envelope_of r = Some (JArr (take 2 s), m).
Proof.
  intros Hs. apply sublist_sublists in Hs. simpl in Hs.
  repeat (destruct Hs as [<-|Hs]; [eexists; eexists; split; reflexivity|]).
  destruct Hs.
Qed.

(** The shop removes the product whose DELETE arrives. *)
Lemma shop_served_delete (s : list jsval) (i : nat) (v : jsval) :
  s `sublist_of` products ->
  s !! i = Some v ->
  exists r s',
    shop_server s (item_request bc endpoint v) = (Responded r, s') /\
    ok r = true /\ s' = stdpp.base.delete i s.
Proof.
  intros Hs. apply sublist_sublists in Hs. simpl in Hs.
  repeat (destruct Hs as [<-|Hs];
          [repeat (destruct i as [|i]; simpl;
                   [intros [= <-]; eexists; eexists; repeat split; reflexivity|]);
           discriminate|]).
  destruct Hs.
Qed.

(** C2 on the shop: three products deleted two at a time, the delete of
    product 2 completing before that of product 1. *)
Lemma deleteAll_rounds_witness :
  (1 <= 2)%nat /\
  forallb deletable products = true /\
  (rounds (length products) 2 <= 3)%nat /\
  exists c,
    run shop_server [0; 2; 1; 3; 4; 5]%nat
      (start (deleteAll bc 3 3 endpoint (JNum 2)) products (new_store [])) =
      Some c /\
    main c = Done JUndefined /\
    server c = [] /\
    deletes (issued c) = map (item_request bc endpoint) products /\
    gets (issued c) = repeat (page_get bc endpoint [] 2) 3 /\
    queries (store c) = [("limit", JNum 2)].
Proof.
  split; [lia|]. split; [reflexivity|]. split; [vm_compute; lia|].
  destruct (run shop_server [0; 2; 1; 3; 4; 5]%nat
              (start (deleteAll bc 3 3 endpoint (JNum 2)) products (new_store [])))
    as [c|] eqn:Hrun.
  - exists c. split; [reflexivity|].
    destruct (deleteAll_rounds (H := runtime) bc 3 shop_server 3 endpoint 2
                (fun s => s) products (new_store []) [0; 2; 1; 3; 4; 5]%nat c
                ltac:(lia) shop_served_get shop_served_delete
                ltac:(reflexivity) ltac:(vm_compute; lia) Hrun)
      as (Hq & _ & _ & _ & Hfly & _ & Hend).
    destruct (Hend (proj2 Hfly ltac:(vm_compute; reflexivity)))
      as (Hm & Hs & Hd & Hg).
    repeat split; assumption.
  - exfalso.
    assert (Hsome : is_Some (run shop_server [0; 2; 1; 3; 4; 5]%nat
                               (start (deleteAll bc 3 3 endpoint (JNum 2))
                                  products (new_store [])))).
    { vm_compute. eexists. reflexivity. }
    rewrite Hrun in Hsome. destruct Hsome as [c Hc]. discriminate.
Defined.

End OnTheExample.

(** ** The further properties on the example store *)

Section OnTheCases.
Import Example Cases.

(** The delete of product 2 on a transport that throws twice: the third
    request is answered 204, and the call throws a [TypeError]. *)
Lemma delete_rejects_once_retried_witness :
  (1 <= 2 <= 3)%nat /\
  solo (delete (H := Example.runtime) bc 3 "v3/catalog/products/2"
          default_queries)
    (new_store [])
    [Thrown; Thrown; Responded (mkResponse 204 "No Content" EmptyString)] =
  (new_store [], Throw TypeError,
   [delete_request bc "v3/catalog/products/2?";
    delete_request bc "v3/catalog/products/2??";
    delete_request bc "v3/catalog/products/2???"]).
Proof.
  split; [lia|].
  exact (delete_rejects_once_retried (H := Example.runtime) bc 2 3
           "v3/catalog/products/2" default_queries (new_store [])
           (mkResponse 204 "No Content" EmptyString) ltac:(lia)).
Defined.

(** The first page of the catalog on a transport that throws twice. *)
Lemma get_retries_requery_witness :
  (2 <= 3)%nat /\
  solo (get (H := Example.runtime) bc 3 endpoint caller_queries)
    (new_store [("limit", JNum 2)])
    [Thrown; Thrown; Responded (catalog_page 1)] =
  ({| meta := catalog_meta; queries := [("limit", JNum 2)] |},
   Ret (JArr [item 1; item 2]),
   [get_request bc "v3/catalog/products?limit=2";
    get_request bc "v3/catalog/products?limit=2?limit=2";
    get_request bc "v3/catalog/products?limit=2?limit=2?limit=2"]).
Proof.
  split; [lia|].
  destruct (get_retries_requery (H := Example.runtime) bc 2 3 endpoint
              caller_queries (new_store [("limit", JNum 2)]) (catalog_page 1)
              ltac:(lia)) as ((st' & H1 & H2) & _).
  etransitivity; [exact H2|].
  apply (f_equal (fun x => fst (fst x))) in H1. cbn [fst] in H1.
  rewrite <- H1. reflexivity.
Defined.

(** A product posted on a transport that throws twice. *)
Lemma post_put_retries_resend_witness :
  (2 <= 3)%nat /\
  solo (post (H := Example.runtime) bc 3 endpoint (item 7)) (new_store [])
    [Thrown; Thrown; Responded (mkResponse 204 "No Content" EmptyString)] =
  (new_store [], Ret JUndefined,
   repeat (post_request (H := Example.runtime) bc endpoint (item 7)) 3).
Proof.
  split; [lia|].
  destruct (post_put_retries_resend (H := Example.runtime) bc 2 3 endpoint
              (item 7) (new_store [])
              (mkResponse 204 "No Content" EmptyString) ltac:(lia))
    as ((st' & H1 & H2) & _).
  etransitivity; [exact H2|].
  apply (f_equal (fun x => fst (fst x))) in H1. cbn [fst] in H1.
  rewrite <- H1. reflexivity.
Defined.

(** A product list sent as a bare array: [get] returns nothing. *)
Lemma get_drops_body_without_envelope_witness :
  ok (ok_response (JArr [item 1; item 2])) = true /\
  JSON_parse (Runtime := Cases.runtime)
    (text (ok_response (JArr [item 1; item 2]))) =
    Some (JArr [item 1; item 2]) /\
  solo (get (H := Cases.runtime) bc 3 "v2/products" default_queries)
    (new_store []) [Responded (ok_response (JArr [item 1; item 2]))] =
  ({| meta := JUndefined; queries := [] |}, Ret JUndefined,
   [get_request bc "v2/products?"]).
Proof.
  split; [reflexivity|]. split; [reflexivity|].
  exact (get_drops_body_without_envelope (H := Cases.runtime) bc 3 "v2/products"
           default_queries (new_store []) (ok_response (JArr [item 1; item 2]))
           (JArr [item 1; item 2]) ltac:(reflexivity) ltac:(discriminate)
           ltac:(reflexivity) ltac:(intros fields; discriminate)).
Defined.

(** [getAll] on a new session against a server that answers 204 without a
    body; [paginate] against a server whose pages have no page count; and
    [paginate] against a server whose page count is an object that hides
    [toString]. *)
Lemma paginate_without_page_count_witness :
  (total_pages (meta (new_store [])) = None /\
   deliver silent_server 0
     (start (getAll (H := Cases.runtime) bc 3 5 endpoint) tt (new_store [])) =
   Some (mkConfig tt (new_store []) [Ret JUndefined]
           [get_request bc "v3/catalog/products?"]
           (Fail TypeError))) /\
  (total_pages (JObj [("pagination", JObj [])]) = Some JUndefined /\
   ToNumber (H := Cases.runtime) JUndefined = inr None /\
   deliver uncounted_server 0
     (start (paginate (H := Cases.runtime) bc 3 5 endpoint) tt (new_store [])) =
   Some (mkConfig tt
           {| meta := JObj [("pagination", JObj [])];
              queries := [("page", JNum 2)] |}
           [Ret (JArr [item 1])]
           [get_request bc "v3/catalog/products?"]
           (Done (JArr [JArr [item 1]])))) /\
  (ToNumber (H := Cases.runtime) (JObj [("toString", JNull)]) = inl TypeError /\
   deliver miscounted_server 0
     (start (paginate (H := Cases.runtime) bc 3 5 endpoint) tt (new_store [])) =
   Some (mkConfig tt
           {| meta := JObj [("pagination",
                             JObj [("total_pages", JObj [("toString", JNull)])])];
              queries := [("page", JNum 2)] |}
           [Ret (JArr [item 1])]
           [get_request bc "v3/catalog/products?"]
           (Fail TypeError))).
Proof.
  split; [|split].
  - split; [reflexivity|].
    exact (proj2 (proj1 (paginate_without_page_count (H := Cases.runtime) bc 3
                           silent_server 5 endpoint tt tt (new_store [])
                           (mkResponse 204 "No Content" EmptyString)
                           (new_store []) JUndefined
                           ltac:(reflexivity) ltac:(reflexivity)
                           ltac:(reflexivity))
                   ltac:(reflexivity))).
  - split; [reflexivity|]. split; [reflexivity|].
    exact (proj1 (proj2 (paginate_without_page_count (H := Cases.runtime) bc 3
                           uncounted_server 5 endpoint tt tt (new_store [])
                           (ok_response uncounted)
                           {| meta := JObj [("pagination", JObj [])];
                              queries := [] |}
                           (JArr [item 1])
                           ltac:(reflexivity) ltac:(reflexivity)
                           ltac:(reflexivity)))
             JUndefined ltac:(reflexivity) ltac:(reflexivity)).
  - split; [reflexivity|].
    exact (proj2 (proj2 (paginate_without_page_count (H := Cases.runtime) bc 3
                           miscounted_server 5 endpoint tt tt (new_store [])
                           (ok_response miscounted)
                           {| meta := JObj [("pagination",
                                             JObj [("total_pages",
                                                    JObj [("toString", JNull)])])];
                              queries := [] |}
                           (JArr [item 1])
                           ltac:(reflexivity) ltac:(reflexivity)
                           ltac:(reflexivity)))
             (JObj [("toString", JNull)]) TypeError
             ltac:(reflexivity) ltac:(reflexivity)).
Defined.

(** [paginate] on a session that has listed the catalog before, against a
    server that answers 204 without a body: pages 2 and 3 are requested. *)
Lemma paginate_empty_body_keeps_page_count_witness :
  total_pages (meta after_catalog) = Some (JNum 3) /\
  (Z.to_nat (3 - 1) <= 5)%nat /\
  exists c1,
    deliver silent_server 0
      (start (paginate (H := Example.runtime) bc 3 5 endpoint) tt after_catalog)
      = Some c1 /\
    main c1 = Done (JArr [JUndefined; JPromise 1; JPromise 2]) /\
    map req_url (issued c1) =
      [page_url []; page_url [("page", JNum 2)]; page_url [("page", JNum 3)]].
Proof.
  split; [reflexivity|]. split; [simpl; lia|].
  eexists. split.
  - exact (paginate_empty_body_keeps_page_count (H := Example.runtime) bc 3
             silent_server 5 endpoint tt tt after_catalog
             (mkResponse 204 "No Content" EmptyString) (JNum 3) 3
             ltac:(reflexivity) ltac:(reflexivity) ltac:(reflexivity)
             ltac:(reflexivity) ltac:(reflexivity) ltac:(simpl; lia)).
  - split; reflexivity.
Defined.

(** After [getAll] on the catalog the query holds [page] = 4, and a second
    [getAll] with the same query starts by asking for page 4. *)
Lemma getAll_leaves_page_in_queries_witness :
  queries (store (exec catalog_server [0; 2; 1]%nat
                    (start (getAll (H := Example.runtime) bc 3 5 endpoint) tt
                       (new_store [])))) = [("page", JNum 4)] /\
  map req_url
    (issued (start (getAll (H := Example.runtime) bc 3 5 endpoint) tt
               (store (exec catalog_server [0; 2; 1]%nat
                         (start (getAll (H := Example.runtime) bc 3 5 endpoint)
                            tt (new_store [])))))) =
  [page_url [("page", JNum 4)]].
Proof.
  destruct (getAll_leaves_page_in_queries (H := Example.runtime) bc 3
              catalog_server 5 endpoint tt tt (new_store []) (catalog_page 1)
              (JArr [item 1; item 2]) catalog_meta 3 catalog_page [2; 1]%nat
              ltac:(reflexivity) ltac:(reflexivity) ltac:(reflexivity)
              ltac:(simpl; lia) catalog_pages_served) as (Hq & Hi & _).
  split; [exact Hq|]. rewrite (Hi 5%nat tt). reflexivity.
Defined.

(** [getAll] on the catalog with its second page missing sends its three
    requests and no other. *)
Lemma getAll_request_count_witness :
  map req_url
    (issued (exec broken_server [0; 2; 1; 2; 0]%nat
               (start (getAll (H := Example.runtime) bc 3 5 endpoint) tt
                  (new_store [])))) =
  [page_url []; page_url [("page", JNum 2)]; page_url [("page", JNum 3)]].
Proof.
  destruct (getAll_request_count (H := Example.runtime) bc 3
              broken_server 5 endpoint tt tt (new_store []) (catalog_page 1)
              (JArr [item 1; item 2]) catalog_meta 3 broken_page
              [2; 1; 2; 0]%nat
              ltac:(reflexivity) ltac:(reflexivity) ltac:(reflexivity)
              ltac:(simpl; lia) broken_pages_served) as [Hi _].
  rewrite Hi. reflexivity.
Defined.



(** The transport of the fetch of page 2 throws: the fetch is retried at
    the URL of page 2 with [?page=4] appended. *)
Lemma paginate_retry_reads_final_page_witness :
  flaky_server false (page_request (H := Example.runtime) bc endpoint [] 2) =
    (Thrown, true) /\
  map req_url
    (issued (exec flaky_server [0; 1]%nat
               (start (paginate (H := Example.runtime) bc 3 5 endpoint) false
                  (new_store [])))) =
  map (append (base bc))
    ["v3/catalog/products?"; "v3/catalog/products?page=2";
     "v3/catalog/products?page=3"; "v3/catalog/products?page=2?page=4"].
Proof.
  split; [reflexivity|].
  rewrite (paginate_retry_reads_final_page (H := Example.runtime) bc 2
             flaky_server 5 endpoint false false true (new_store [])
             (catalog_page 1) (JArr [item 1; item 2]) catalog_meta 3 1%nat
             ltac:(reflexivity) ltac:(reflexivity) ltac:(reflexivity)
             ltac:(simpl; lia) ltac:(simpl; lia) ltac:(reflexivity)).
  reflexivity.
Defined.

(** [deleteAll] against a server that answers 204 without a body. *)
Lemma deleteAll_page_not_an_array_witness :
  deliver silent_server 0
    (start (deleteAll (H := Example.runtime) bc 3 5 endpoint (JNum 3)) tt
       (new_store [])) =
  Some (mkConfig tt (new_store [("limit", JNum 3)]) [Ret JUndefined]
          [get_request bc "v3/catalog/products?limit=3"] (Fail TypeError)).
Proof.
  destruct (deleteAll_page_not_an_array (H := Example.runtime) bc 3
              silent_server 5 endpoint (JNum 3) tt tt (new_store [])
              (mkResponse 204 "No Content" EmptyString)
              (new_store [("limit", JNum 3)]) JUndefined
              ltac:(reflexivity) ltac:(reflexivity) ltac:(reflexivity)
              ltac:(intros l; discriminate)) as (p & Hd & Hp & _).
  rewrite Hd, (Hp TypeError eq_refl). reflexivity.
Defined.

(** [deleteAll] on a page whose second product is [null], and on a page
    whose second product has an [id] that cannot be converted to a string:
    the delete of product 1 is in flight, product 3 is never deleted. *)
Lemma deleteAll_unreadable_item_witness :
  (forallb (deletable (H := Cases.runtime)) [item 1] = true /\
   deletable (H := Cases.runtime) JNull = false /\
   exists c1,
     deliver holed_server 0
       (start (deleteAll (H := Cases.runtime) bc 3 5 endpoint (JNum 3)) tt
          (new_store [])) = Some c1 /\
     main c1 = Fail TypeError /\
     map req_url (deletes (issued c1)) = [delete_url (item 1)] /\
     length (flying c1) = 1%nat) /\
  (deletable (H := Cases.runtime) odd_item = false /\
   exists c1,
     deliver odd_server 0
       (start (deleteAll (H := Cases.runtime) bc 3 5 endpoint (JNum 3)) tt
          (new_store [])) = Some c1 /\
     main c1 = Fail TypeError /\
     map req_url (deletes (issued c1)) = [delete_url (item 1)] /\
     length (flying c1) = 1%nat).
Proof.
  split.
  - split; [reflexivity|]. split; [reflexivity|].
    eexists. split.
    + exact (deleteAll_unreadable_item (H := Cases.runtime) bc 3 holed_server 5
               endpoint (JNum 3) tt tt (new_store [])
               (ok_response (envelope [item 1; JNull; item 3] 1))
               (JObj [("pagination", JObj [("total_pages", JNum 1)])])
               [item 1] JNull [item 3]
               ltac:(reflexivity) ltac:(reflexivity) ltac:(reflexivity)
               ltac:(reflexivity)).
    + repeat split; reflexivity.
  - split; [reflexivity|].
    eexists. split.
    + exact (deleteAll_unreadable_item (H := Cases.runtime) bc 3 odd_server 5
               endpoint (JNum 3) tt tt (new_store [])
               (ok_response (envelope [item 1; odd_item; item 3] 1))
               (JObj [("pagination", JObj [("total_pages", JNum 1)])])
               [item 1] odd_item [item 3]
               ltac:(reflexivity) ltac:(reflexivity) ltac:(reflexivity)
               ltac:(reflexivity)).
    + repeat split; reflexivity.
Defined.

Lemma refusing_others (s : unit) (i : nat) (v : jsval) :
  [item 1; item 2] !! i = Some v -> i <> 1%nat ->
  exists r',
    fst (refusing_server s (item_request (H := Example.runtime) bc endpoint v)) =
      Responded r' /\ ok r' = true.
Proof.
  destruct i as [|[|i]]; simpl; intros Hv Hi.
  - injection Hv as <-. eexists. split; reflexivity.
  - congruence.
  - discriminate.
Qed.

(** The delete of product 2 is refused with a 409, that of product 1 is
    accepted: [deleteAll] throws the 409, whichever completes first, and
    has sent one GET and the two DELETEs. *)
Lemma deleteAll_refused_delete_witness :
  ok conflict = false /\
  main (exec refusing_server [0; 1; 2]%nat
          (start (deleteAll (H := Example.runtime) bc 3 5 endpoint (JNum 2)) tt
             (new_store []))) =
    Fail (Error "409 - Conflict: product 2 is in use") /\
  map req_method
    (issued (exec refusing_server [0; 1; 2]%nat
               (start (deleteAll (H := Example.runtime) bc 3 5 endpoint (JNum 2))
                  tt (new_store [])))) = [GET; DELETE; DELETE].
Proof.
  split; [reflexivity|].
  destruct (deleteAll_refused_delete (H := Example.runtime) bc 3 refusing_server
              5 endpoint (JNum 2) tt tt (new_store [])
              (ok_response (envelope [item 1; item 2] 1))
              (JObj [("pagination", JObj [("total_pages", JNum 1)])])
              [item 1; item 2] 1%nat (item 2) conflict [1; 2]%nat
              ltac:(reflexivity) ltac:(reflexivity) ltac:(reflexivity)
              ltac:(reflexivity) ltac:(intros s; reflexivity) ltac:(reflexivity)
              refusing_others) as (Hi & _ & Hm).
  split.
  - apply Hm. right. left.
  - rewrite Hi. reflexivity.
Defined.

Lemma timeout_others (s : unit) (i : nat) (v : jsval) :
  [item 1; item 2] !! i = Some v -> i <> 0%nat ->
  exists r',
    fst (timeout_server s (item_request (H := Example.runtime) bc endpoint v)) =
      Responded r' /\ ok r' = true.
Proof.
  destruct i as [|[|i]]; simpl; intros Hv Hi.
  - congruence.
  - injection Hv as <-. eexists. split; reflexivity.
  - discriminate.
Qed.

(** The transport of the delete of product 1 throws; the delete of
    product 2 completes, then the re-issued delete of product 1 is answered
    204: [deleteAll] throws a [TypeError]. *)
Lemma deleteAll_fails_on_transport_failure_witness :
  timeout_server tt
    (item_request (H := Example.runtime) bc endpoint (item 1)) =
    (Thrown, tt) /\
  main (exec timeout_server [0; 1; 2; 1]%nat
          (start (deleteAll (H := Example.runtime) bc 3 5 endpoint (JNum 2)) tt
             (new_store []))) = Fail TypeError /\
  map req_url
    (deletes
       (issued (exec timeout_server [0; 1; 2; 1]%nat
                  (start (deleteAll (H := Example.runtime) bc 3 5 endpoint (JNum 2))
                     tt (new_store []))))) =
  map (append (base bc))
    ["v3/catalog/products/1?"; "v3/catalog/products/2?";
     "v3/catalog/products/1??"].
Proof.
  split; [reflexivity|].
  destruct (deleteAll_fails_on_transport_failure (H := Example.runtime) bc 2
              timeout_server 5 endpoint (JNum 2) tt tt
              (new_store []) (ok_response (envelope [item 1; item 2] 1))
              (JObj [("pagination", JObj [("total_pages", JNum 1)])])
              [item 1; item 2] 0%nat (item 1)
              ltac:(reflexivity) ltac:(reflexivity) ltac:(reflexivity)
              ltac:(reflexivity) ltac:(intros s; reflexivity)
              ltac:(intros s; eexists; split; reflexivity)
              timeout_others) as [_ Hrun].
  destruct (Hrun [] [2%nat] []) as [Hm Hi].
  split; [exact Hm|].
  etransitivity; [exact (f_equal (fun l => map req_url (deletes l)) Hi)|].
  reflexivity.
Defined.

End OnTheCases.
